(** * Hulu collections browser: catalog client, item normaliser and the
      selection / navigation state machine.

    Shallow embedding of [src/api/Hulu.ts] and
    [src/components/Collections/index.ts] (with the attribute callbacks of
    [src/components/Tile/index.ts] the navigation code triggers).

    - Raw API data is [any] in the source: it is embedded as [JSValue], the
      values [JSON.parse] produces, with the property access, truthiness and
      string conversion of the language.
    - [try]/[catch] and uncaught [TypeError]s are embedded with the error
      type [Exc]; the component's methods run in a state-and-error monad [M]
      in which the mutations made before a throw persist.
    - The network, the image loader and the host's date printer are
      parameters of the development.
    - The grid is rendered by interpolating the data into markup that the
      browser parses. The document is embedded as the rows and tiles the
      methods read and write. [renderTileHTML] is the markup of a tile as
      the source builds it; [renderTile] and [renderRow] are the elements
      the templates stand for, which the parser makes of the markup when
      the interpolated values hold no markup of their own. The properties
      about the grid are stated for a document in step with the state
      ([Inv], [templated], [rendered]) and for key presses, which change
      the document by [setAttribute] only. *)

From Stdlib Require Import ZArith String List Lia Bool DecimalString.
From stdpp Require Import base option list strings gmap.
Import ListNotations.

#[local] Set Warnings "-register-all".
#[local] Open Scope Z_scope.
#[local] Open Scope string_scope.

(* ===================================================================== *)
(** ** Exceptions *)
(* ===================================================================== *)

Inductive exn : Type :=
| TypeError                 (* property read or call on a nullish / non-callable value *)
| SyntaxError               (* response.json() on a malformed body *)
| NetworkError              (* fetch() rejected *)
| Error (message : string). (* throw new Error(message) *)

Inductive Exc (A : Type) : Type :=
| Ok (a : A)
| Throw (e : exn).
Arguments Ok {A} a.
Arguments Throw {A} e.

Definition ebind {A B} (m : Exc A) (k : A -> Exc B) : Exc B :=
  match m with
  | Ok a => k a
  | Throw e => Throw e
  end.

(** [try { body } catch (error) { handler }] *)
Definition try_catch {A} (body : Exc A) (handler : exn -> Exc A) : Exc A :=
  match body with
  | Ok a => Ok a
  | Throw e => handler e
  end.

Notation "'let?' x ':=' m 'in' k" := (ebind m (fun x => k))
  (at level 10, x name, m at level 100, k at level 200).

Definition returns {A} (m : Exc A) : Prop := exists a, m = Ok a.

(** [xs.map(f)] where [f] may throw: the first throw aborts the map. *)
Definition mapE {A B} (f : A -> Exc B) : list A -> Exc (list B) :=
  fix go (xs : list A) : Exc (list B) :=
    match xs with
    | [] => Ok []
    | x :: rest =>
        let? y := f x in
        let? ys := go rest in
        Ok (y :: ys)
    end.

(* ===================================================================== *)
(** ** JavaScript values of the raw API data *)
(* ===================================================================== *)

(** The values [JSON.parse] yields, and [undefined] for an absent property.
    The program converts the numbers of the raw data to strings and tests
    them for truth, and does nothing else with them: a number is kept as
    its string conversion, which is [0] for the two zeros. An object is the
    list of its own properties, the first binding of a name being its
    value. *)
Inductive JSValue : Type :=
| JUndefined
| JNull
| JBool (b : bool)
| JNum (print : string)
| JStr (s : string)
| JArr (elements : list JSValue)
| JObj (props : list (string * JSValue)).

Fixpoint assoc (name : string) (props : list (string * JSValue)) : JSValue :=
  match props with
  | [] => JUndefined
  | (k, v) :: rest => if String.eqb name k then v else assoc name rest
  end.

Definition hasOwn (name : string) (props : list (string * JSValue)) : bool :=
  existsb (fun kv => String.eqb name (fst kv)) props.

Definition nullish (v : JSValue) : bool :=
  match v with
  | JUndefined | JNull => true
  | _ => false
  end.

(** [v.name]: a [TypeError] on [undefined] and [null]. None of the property
    names the program reads is a built-in property of strings, numbers,
    booleans or arrays, so reading them there yields [undefined]. *)
Definition getProp (v : JSValue) (name : string) : Exc JSValue :=
  match v with
  | JUndefined | JNull => Throw TypeError
  | JObj props => Ok (assoc name props)
  | _ => Ok JUndefined
  end.

(** [if (v)], [v ? a : b], [Boolean(v)] *)
Definition truthy (v : JSValue) : bool :=
  match v with
  | JUndefined | JNull => false
  | JBool b => b
  | JNum print => negb (String.eqb print "0")
  | JStr s => negb (String.eqb s "")
  | JArr _ | JObj _ => true
  end.

(** The digits of an HTTP status code. *)
Definition decimal (z : Z) : string := NilZero.string_of_int (Z.to_int z).

(** [xs.join(sep)] given the conversion [str] of one element: [undefined]
    and [null] elements print as the empty string. *)
Definition joinWith (str : JSValue -> Exc string) (sep : string)
  : list JSValue -> Exc string :=
  fix go (xs : list JSValue) : Exc string :=
    match xs with
    | [] => Ok ""
    | x :: rest =>
        let? s := (if nullish x then Ok "" else str x) in
        match rest with
        | [] => Ok s
        | _ :: _ => let? r := go rest in Ok (s ++ sep ++ r)
        end
    end.

(** String conversion, as in a template literal [`${v}`] and in
    [setAttribute(name, v)]. An object parsed from JSON prints as
    [[object Object]] unless it has an own [toString] property, which is
    then not callable: the conversion throws. *)
Fixpoint ToString (v : JSValue) : Exc string :=
  match v with
  | JUndefined => Ok "undefined"
  | JNull => Ok "null"
  | JBool true => Ok "true"
  | JBool false => Ok "false"
  | JNum print => Ok print
  | JStr s => Ok s
  | JArr xs => joinWith ToString "," xs
  | JObj props =>
      if hasOwn "toString" props then Throw TypeError else Ok "[object Object]"
  end.

(** [v.join(sep)]: only arrays have a callable [join]. *)
Definition join (v : JSValue) (sep : string) : Exc string :=
  match v with
  | JArr xs => joinWith ToString sep xs
  | _ => Throw TypeError
  end.

(** [v.slice(0, 2).join(sep)]: a string has [slice] but its result has no
    [join]; every other non-array has no callable [slice]. *)
Definition slice2_join (v : JSValue) (sep : string) : Exc string :=
  match v with
  | JArr xs => joinWith ToString sep (firstn 2 xs)
  | _ => Throw TypeError
  end.

(** [v.map(f)] where [f] may throw: only arrays have a callable [map]. *)
Definition mapJS {B} (v : JSValue) (f : JSValue -> Exc B) : Exc (list B) :=
  match v with
  | JArr xs => mapE f xs
  | _ => Throw TypeError
  end.

(* ===================================================================== *)
(** ** src/utils/types.ts *)
(* ===================================================================== *)

(** A [Date] object is kept as the value it was constructed from; printing
    it is the host's business. *)
Record Date : Type := newDate { dateValue : JSValue }.

(** [new Date(v)]: an object or an array is first converted to a
    primitive, which throws where its string conversion does; the date of a
    primitive is made without a throw (an invalid date at worst). *)
Definition constructDate (v : JSValue) : Exc Date :=
  let? _ := ToString v in Ok (newDate v).

Module Branding.
Record t : Type := mk { id : JSValue; name : JSValue; logo : string }.
End Branding.

(** The fields filled from the raw record keep whatever value it held. *)
Module View.
Record t : Type := mk {
  id : JSValue;
  actionText : JSValue;
  description : JSValue;
  title : JSValue;
  horizontalImage : string;
  verticalImage : string;
  branding : option Branding.t;   (* Branding | null *)
  rating : JSValue;
  genre : JSValue;
  type : JSValue;
  date : Date
}.
End View.

(** [views] is optional: absent in what [getCollections] returns. *)
Module Collection.
Record t : Type := mk {
  id : JSValue;
  title : JSValue;
  href : JSValue;
  theme : JSValue;
  views : option (list View.t)
}.
End Collection.

(* ===================================================================== *)
(** ** src/api/Hulu.ts *)
(* ===================================================================== *)

Record Response : Type := mkResponse {
  ok : bool;
  status : Z;
  statusText : string;
  json : Exc JSValue     (* response.json(): the parsed body, or a throw *)
}.

(** [constructImageUrl(url, width, height, format)] *)
Definition constructImageUrl (url width height format : string) : string :=
  url ++ "&size=" ++ width ++ "x" ++ height ++ "&format=" ++ format.

(** Truthiness of a string. *)
Definition nonEmpty (s : string) : bool := negb (String.eqb s "").

Section Api.

(** [utils/constants] and the logo asset. *)
Variables (API_HUB_URL PROXY : string) (logo : string).
(** [fetch(url)]: a response, or a rejection. *)
Variable fetch : string -> Exc Response.
(** Whether an [Image] with this [src] fires [onload] (else [onerror]). *)
Variable imageLoads : string -> bool.

Definition fetchCollections : Exc JSValue :=
  try_catch
    (let? response := fetch API_HUB_URL in
     if negb (ok response) then
       Throw (Error ("Failed to fetch collections: "
                     ++ decimal (status response) ++ " " ++ statusText response))
     else
       let? body := json response in
       let? components := getProp body "components" in
       Ok components)
    (fun _ => Ok (JArr [])).

(** [string | null] *)
Definition validateImage (url : string) : option string :=
  if imageLoads url then Some url else None.

(** [data.visuals.artwork.<tile>.image.path] *)
Definition tilePath (data : JSValue) (tile : string) : Exc JSValue :=
  let? visuals := getProp data "visuals" in
  let? artwork := getProp visuals "artwork" in
  let? t := getProp artwork tile in
  let? image := getProp t "image" in
  getProp image "path".

(** The object literal returned by [transformDataToView], after both images
    validated. *)
Definition buildView (data : JSValue) (horizontalImage verticalImage : string)
  : Exc View.t :=
  let? visuals := getProp data "visuals" in
  let? primary_branding := getProp visuals "primary_branding" in
  let? branding :=
    (if truthy primary_branding then
       let? id := getProp primary_branding "id" in
       let? name := getProp primary_branding "name" in
       Ok (Some (Branding.mk id name logo))
     else Ok None) in
  let? id := getProp data "id" in
  let? action_text := getProp visuals "action_text" in
  let? body := getProp visuals "body" in
  let? headline := getProp visuals "headline" in
  let? entity_metadata := getProp data "entity_metadata" in
  let? rating := getProp entity_metadata "rating" in
  let? code := getProp rating "code" in
  let? genre_names := getProp entity_metadata "genre_names" in
  let? entity_type := getProp entity_metadata "entity_type" in
  let? premiere_date := getProp entity_metadata "premiere_date" in
  let? date := constructDate premiere_date in
  Ok (View.mk id action_text body headline horizontalImage verticalImage
        branding code genre_names entity_type date).

(** The body of the [try] block of [transformDataToView]; [None] is
    [undefined]. *)
Definition transformBody (data : JSValue) : Exc (option View.t) :=
  let? hpath := tilePath data "horizontal_tile" in
  let? hurl := ToString hpath in
  let horizontalImage := validateImage (constructImageUrl hurl "800" "600" "jpeg") in
  let? vpath := tilePath data "vertical_tile" in
  let? vurl := ToString vpath in
  let verticalImage := validateImage (constructImageUrl vurl "600" "800" "jpeg") in
  match horizontalImage, verticalImage with
  | Some h, Some v =>
      if negb (nonEmpty h) || negb (nonEmpty v) then Ok None
      else let? view := buildView data h v in Ok (Some view)
  | _, _ => Ok None
  end.

Definition transformDataToView (data : JSValue) : Exc (option View.t) :=
  try_catch (transformBody data) (fun _ => Ok None).

Definition getCollections : Exc (list Collection.t) :=
  try_catch
    (let? rawData := fetchCollections in
     mapJS rawData (fun item =>
       let? id := getProp item "id" in
       let? name := getProp item "name" in
       let? theme := getProp item "theme" in
       let? href := getProp item "href" in
       Ok (Collection.mk id name href theme None)))
    (fun _ => Ok []).

(** [views.filter(Boolean)] *)
Definition filterBoolean (views : list (option View.t)) : list View.t :=
  omap (fun v => v) views.

Definition getViews (href : JSValue) : Exc (list View.t) :=
  try_catch
    (let? h := ToString href in
     let? response := fetch (PROXY ++ h) in
     if negb (ok response) then
       Throw (Error ("Failed to fetch views: "
                     ++ decimal (status response) ++ " " ++ statusText response))
     else
       let? data := json response in
       let? items := getProp data "items" in
       let? views := mapJS items transformDataToView in
       Ok (filterBoolean views))
    (fun _ => Ok []).

End Api.

(* ===================================================================== *)
(** ** The component and its shadow DOM *)
(* ===================================================================== *)

(** An element is the map of its attributes. *)
Abbreviation Element := (gmap string string).

(** One [.collection-container]: the heading and the [#collection--i] list
    with its tiles. The document the methods read and write is a list of
    such rows, whatever put the tiles there. *)
Record Row : Type := mkRow {
  heading : string;
  vertical : bool;
  children : list Element
}.

(** What the component does to the document, in order. *)
Inductive Effect : Type :=
| ShadowInnerHTML                                    (* render() *)
| GridInnerHTML                                      (* renderCollections() *)
| TileSetAttribute (row col : nat) (name value : string)
| TileAdjustScroll (row col : nat)                   (* Tile.adjustScroll() *)
| ModalSetAttribute (name value : string)
| GridOpacity (value : string).

Record State : Type := mkState {
  selectedRowIndex : Z;
  selectedColumnIndex : Z;
  selectedTile : option View.t;      (* [None]: null or undefined *)
  collections : list Collection.t;
  isHorizontal : bool
}.

(** The component instance with the part of the document it owns.
    [collectionsElement] is the node list of the row containers: it is only
    ever queried right after the rows were rendered, so it is embedded as a
    reference to [rows] that is either set or still undefined. *)
Record Comp : Type := mkComp {
  state : State;
  mounted : bool;               (* render() has put #collections, the toggle and the modal in place *)
  rows : list Row;              (* the children of #collections *)
  opacity : option string;      (* #collections style.opacity *)
  modal : Element;              (* the attributes of hulu-modal *)
  collectionsElement : bool;
  listening : bool;             (* addEventListeners() ran *)
  effects : list Effect
}.

Definition withState (f : State -> State) (c : Comp) : Comp :=
  mkComp (f (state c)) (mounted c) (rows c) (opacity c) (modal c)
         (collectionsElement c) (listening c) (effects c).
Definition withRows (r : list Row) (c : Comp) : Comp :=
  mkComp (state c) (mounted c) r (opacity c) (modal c)
         (collectionsElement c) (listening c) (effects c).
Definition withOpacity (o : option string) (c : Comp) : Comp :=
  mkComp (state c) (mounted c) (rows c) o (modal c)
         (collectionsElement c) (listening c) (effects c).
Definition withModal (m : Element) (c : Comp) : Comp :=
  mkComp (state c) (mounted c) (rows c) (opacity c) m
         (collectionsElement c) (listening c) (effects c).
Definition withCollectionsElement (b : bool) (c : Comp) : Comp :=
  mkComp (state c) (mounted c) (rows c) (opacity c) (modal c)
         b (listening c) (effects c).
Definition withListening (b : bool) (c : Comp) : Comp :=
  mkComp (state c) (mounted c) (rows c) (opacity c) (modal c)
         (collectionsElement c) b (effects c).
Definition withMounted (b : bool) (c : Comp) : Comp :=
  mkComp (state c) b (rows c) (opacity c) (modal c)
         (collectionsElement c) (listening c) (effects c).
Definition emit (e : Effect) (c : Comp) : Comp :=
  mkComp (state c) (mounted c) (rows c) (opacity c) (modal c)
         (collectionsElement c) (listening c) (effects c ++ [e]).

Definition setRowIndex (i : Z) (s : State) : State :=
  mkState i (selectedColumnIndex s) (selectedTile s) (collections s) (isHorizontal s).
Definition setColumnIndex (i : Z) (s : State) : State :=
  mkState (selectedRowIndex s) i (selectedTile s) (collections s) (isHorizontal s).
Definition setSelectedTile (t : option View.t) (s : State) : State :=
  mkState (selectedRowIndex s) (selectedColumnIndex s) t (collections s) (isHorizontal s).
Definition pushCollection (x : Collection.t) (s : State) : State :=
  mkState (selectedRowIndex s) (selectedColumnIndex s) (selectedTile s)
          (collections s ++ [x]) (isHorizontal s).
Definition setIsHorizontal (b : bool) (s : State) : State :=
  mkState (selectedRowIndex s) (selectedColumnIndex s) (selectedTile s) (collections s) b.

(** The constructor. *)
Definition constructed : Comp :=
  mkComp (mkState 0 0 None [] true) false [] None ∅ false false [].

(** [xs[i]] for a number [i]: [undefined] out of range. *)
Definition at_ {A} (xs : list A) (i : Z) : option A :=
  if Z.ltb i 0 then None else xs !! Z.to_nat i.

(** *** The monad of the methods: state, and a throw that keeps the state *)

Definition M (A : Type) : Type := Comp -> Exc A * Comp.

Definition ret {A} (a : A) : M A := fun c => (Ok a, c).
Definition throw {A} (e : exn) : M A := fun c => (Throw e, c).
Definition bind {A B} (m : M A) (k : A -> M B) : M B :=
  fun c => match m c with
           | (Ok a, c') => k a c'
           | (Throw e, c') => (Throw e, c')
           end.
Definition liftE {A} (m : Exc A) : M A := fun c => (m, c).
Definition gets {A} (f : Comp -> A) : M A := fun c => (Ok (f c), c).
Definition modify (f : Comp -> Comp) : M unit := fun c => (Ok tt, f c).
(** [try { body } catch { handler } finally { }] *)
Definition tryM {A} (body : M A) (handler : exn -> M A) : M A :=
  fun c => match body c with
           | (Ok a, c') => (Ok a, c')
           | (Throw e, c') => handler e c'
           end.
(** A value that is read through: a [TypeError] when it is [undefined]. *)
Definition defined {A} (x : option A) : M A :=
  match x with
  | Some a => ret a
  | None => throw TypeError
  end.

Notation "'let*' x ':=' m 'in' k" := (bind m (fun x => k))
  (at level 10, x name, m at level 100, k at level 200).
Notation "m ';;' k" := (bind m (fun _ => k))
  (at level 100, k at level 200, right associativity).

(** [for (const x of xs) body(x)] *)
Definition forOf {A} (body : A -> M unit) : list A -> M unit :=
  fix go (xs : list A) : M unit :=
    match xs with
    | [] => ret tt
    | x :: rest => body x ;; go rest
    end.

Definition boolToString (b : bool) : string := if b then "true" else "false".

Definition attrIs (e : Element) (name value : string) : bool :=
  match e !! name with
  | Some s => String.eqb s value
  | None => false
  end.

(** [xs.map((x, i) => f(x, i))] from index [i0] on. *)
Definition mapEi {A B} (f : A -> nat -> Exc B) : nat -> list A -> Exc (list B) :=
  fix go (i : nat) (xs : list A) : Exc (list B) :=
    match xs with
    | [] => Ok []
    | x :: rest =>
        let? y := f x i in
        let? ys := go (S i) rest in
        Ok (y :: ys)
    end.

Definition separator : string := " ● ".

(** The double quote and the line feed of the templates. *)
Definition dquote : string := String (Ascii.ascii_of_nat 34) EmptyString.
Definition newline : string := String (Ascii.ascii_of_nat 10) EmptyString.

(** One line of the tile template: [name="value"], the value interpolated
    as it is. *)
Definition attributeLine (name value : string) : string :=
  newline ++ "        " ++ name ++ "=" ++ dquote ++ value ++ dquote.

Section Component.

Variables (API_HUB_URL PROXY logo : string).
Variable fetch : string -> Exc Response.
Variable imageLoads : string -> bool.
(** [date.toString()], as the host prints a date. *)
Variable dateToString : Date -> string.

(** *** fetchData *)

(** [{...collection, views}] *)
Definition withViews (collection : Collection.t) (views : list View.t) : Collection.t :=
  Collection.mk (Collection.id collection) (Collection.title collection)
                (Collection.href collection) (Collection.theme collection)
                (Some views).

Definition fetchData : M unit :=
  tryM
    (let* fetched := liftE (getCollections API_HUB_URL fetch) in
     forOf (fun collection =>
              let* views := liftE (getViews PROXY logo fetch imageLoads
                                            (Collection.href collection)) in
              modify (withState (pushCollection (withViews collection views))))
           fetched)
    (fun _ => ret tt).

(** *** Rendering *)

Definition brandingLogo (b : option Branding.t) : string :=
  match b with
  | Some b => Branding.logo b
  | None => "undefined"           (* branding?.logo is undefined *)
  end.

(** The markup [renderTile] returns: the values go into the template
    unescaped. *)
Definition renderTileHTML (horizontal : bool) (tile : View.t) (isTileSelected : bool)
  : Exc string :=
  let? title := ToString (View.title tile) in
  let? actionText := ToString (View.actionText tile) in
  let? genre := slice2_join (View.genre tile) separator in
  Ok ("<hulu-tile "
      ++ attributeLine "title" title
      ++ attributeLine "action-text" actionText
      ++ attributeLine "layout" (if horizontal then "horizontal" else "vertical")
      ++ attributeLine "image" (if horizontal then View.horizontalImage tile
                                else View.verticalImage tile)
      ++ attributeLine "is-selected" (boolToString isTileSelected)
      ++ attributeLine "date" (dateToString (View.date tile))
      ++ attributeLine "genre" genre
      ++ attributeLine "logo" (brandingLogo (View.branding tile))
      ++ ">" ++ newline ++ "      </hulu-tile>").

(** The [hulu-tile] element the template stands for: each attribute with
    the value interpolated for it. It is the element the parser makes of
    [renderTileHTML] when no interpolated value holds a character the
    parser does not take literally inside a quoted attribute value (a
    double quote, an ampersand, a carriage return, a null character); with
    such a character the parser makes another element, which this
    embedding does not give. *)
Definition renderTile (horizontal : bool) (tile : View.t) (isTileSelected : bool)
  : Exc Element :=
  let? title := ToString (View.title tile) in
  let? actionText := ToString (View.actionText tile) in
  let? genre := slice2_join (View.genre tile) separator in
  Ok (list_to_map
        [ ("title", title);
          ("action-text", actionText);
          ("layout", if horizontal then "horizontal" else "vertical");
          ("image", if horizontal then View.horizontalImage tile
                    else View.verticalImage tile);
          ("is-selected", boolToString isTileSelected);
          ("date", dateToString (View.date tile));
          ("genre", genre);
          ("logo", brandingLogo (View.branding tile)) ]).

(** One iteration of the outer [collections.map] of [renderCollections]:
    the row the row template stands for, with one tile per item. As for
    [renderTile], it is the row the parser makes of the markup when no
    title, headline or other interpolated value holds markup of its own
    (an angle bracket in a title, or one of the characters above in an
    attribute value). *)
Definition renderRow (s : State) (collection : Collection.t) (rowIndex : nat)
  : Exc Row :=
  let? title := ToString (Collection.title collection) in
  let? views := match Collection.views collection with
                | Some views => Ok views
                | None => Throw TypeError
                end in
  let? tiles :=
    mapEi (fun tile columnIndex =>
             let isTileSelected :=
               Z.eqb (Z.of_nat columnIndex) (selectedColumnIndex s)
               && Z.eqb (Z.of_nat rowIndex) (selectedRowIndex s) in
             renderTile (isHorizontal s) tile isTileSelected)
          0%nat views in
  Ok (mkRow title (negb (isHorizontal s)) tiles).

Definition renderCollections : M unit :=
  fun c =>
    if negb (mounted c) then (Ok tt, c)      (* if (!collectionsElement) return *)
    else
      match mapEi (renderRow (state c)) 0%nat (collections (state c)) with
      | Ok html => (Ok tt, emit GridInnerHTML (withRows html c))
      | Throw e => (Throw e, c)
      end.

Definition render : M unit :=
  modify (fun c => emit ShadowInnerHTML
                     (withMounted true
                        (withRows [] (withOpacity None (withModal ∅ c))))) ;;
  renderCollections.

(** *** Geometry read from the document *)

Definition getCollectionLength : M Z :=
  let* bound := gets collectionsElement in
  if bound then
    let* r := gets rows in ret (Z.of_nat (List.length r))
  else throw TypeError.

Definition getCollectionElement (rowIndex : Z) : M Row :=
  let* bound := gets collectionsElement in
  if bound then
    let* r := gets rows in defined (at_ r rowIndex)
  else throw TypeError.

Definition getTilesLength (rowIndex : Z) : M Z :=
  let* collectionElement := getCollectionElement rowIndex in
  ret (Z.of_nat (List.length (children collectionElement))).

(** *** Selection *)

Definition tileAt (r : list Row) (row col : nat) : option Element :=
  match r !! row with
  | Some x => children x !! col
  | None => None
  end.

Definition setChildAttribute (col : nat) (name value : string) (r : Row) : Row :=
  mkRow (heading r) (vertical r) (alter (insert name value) col (children r)).

(** [tile.setAttribute(name, value)] on the tile at [(row, col)], then the
    tile's [attributeChangedCallback]: nothing when the value is the old
    one; a change of [is-selected] to [true] adjusts the scroll. *)
Definition tileSetAttribute (row col : nat) (name value : string) : M unit :=
  fun c =>
    let old := match tileAt (rows c) row col with
               | Some e => e !! name
               | None => None
               end in
    let c1 := emit (TileSetAttribute row col name value)
                   (withRows (alter (setChildAttribute col name value) row (rows c)) c) in
    let unchanged := match old with
                     | Some s => String.eqb s value
                     | None => false
                     end in
    if unchanged then (Ok tt, c1)
    else if String.eqb name "is-selected" && String.eqb value "true"
         then (Ok tt, emit (TileAdjustScroll row col) c1)
         else (Ok tt, c1).

Definition updateSelectedTile (columnIndex rowIndex : Z) (isSelected : bool) : M unit :=
  let* collectionElement := getCollectionElement rowIndex in
  match at_ (children collectionElement) columnIndex with
  | Some _ =>
      tileSetAttribute (Z.to_nat rowIndex) (Z.to_nat columnIndex)
                       "is-selected" (boolToString isSelected) ;;
      let* cs := gets (fun c => collections (state c)) in
      let* collection := defined (at_ cs rowIndex) in
      let* views := defined (Collection.views collection) in
      modify (withState (setSelectedTile (at_ views columnIndex)))
  | None => ret tt
  end.

Definition updateSelectedRow (newIndex : Z) : M unit :=
  let* row := gets (fun c => selectedRowIndex (state c)) in
  if Z.eqb newIndex row then ret tt
  else
    let* col := gets (fun c => selectedColumnIndex (state c)) in
    updateSelectedTile col row false ;;
    updateSelectedTile col newIndex true ;;
    modify (withState (setRowIndex newIndex)).

Definition updateSelectedColumn (newIndex : Z) : M unit :=
  let* col := gets (fun c => selectedColumnIndex (state c)) in
  if Z.eqb newIndex col then ret tt
  else
    let* row := gets (fun c => selectedRowIndex (state c)) in
    updateSelectedTile col row false ;;
    updateSelectedTile newIndex row true ;;
    modify (withState (setColumnIndex newIndex)).

(** *** The overlay *)

Definition modalSet (name value : string) (c : Comp) : Comp :=
  emit (ModalSetAttribute name value) (withModal (<[name := value]> (modal c)) c).

Definition modalSetAttribute (name value : string) : M unit :=
  modify (modalSet name value).

Definition setOpacity (value : string) : M unit :=
  modify (fun c => emit (GridOpacity value) (withOpacity (Some value) c)).

Definition renderModal : M unit :=
  let* bound := gets (fun c => selectedTile (state c)) in
  let* selectedTile := defined bound in
  modalSetAttribute "logo" (brandingLogo (View.branding selectedTile)) ;;
  modalSetAttribute "horizontal-image" (View.horizontalImage selectedTile) ;;
  let* title := liftE (ToString (View.title selectedTile)) in
  modalSetAttribute "title" title ;;
  let* description := liftE (ToString (View.description selectedTile)) in
  modalSetAttribute "description" description ;;
  let* rating := liftE (ToString (View.rating selectedTile)) in
  modalSetAttribute "rating" rating ;;
  modalSetAttribute "date" (dateToString (View.date selectedTile)) ;;
  let* genre := liftE (join (View.genre selectedTile) separator) in
  modalSetAttribute "genre" genre ;;
  let* type := liftE (ToString (View.type selectedTile)) in
  modalSetAttribute "type" type ;;
  let* actionText := liftE (ToString (View.actionText selectedTile)) in
  modalSetAttribute "action-text" actionText ;;
  modalSetAttribute "is-open" "true".

(** *** Keyboard *)

Definition handleKeyDown (key : string) : M unit :=
  let* present := gets mounted in
  if negb present then throw TypeError      (* modal is null *)
  else
    let* modal := gets modal in
    if attrIs modal "is-open" "true" && negb (String.eqb key "Escape") then ret tt
    else if String.eqb key "ArrowUp" then
      let* row := gets (fun c => selectedRowIndex (state c)) in
      updateSelectedRow (Z.max 0 (row - 1))
    else if String.eqb key "ArrowDown" then
      let* row := gets (fun c => selectedRowIndex (state c)) in
      let* len := getCollectionLength in
      updateSelectedRow (Z.min (row + 1) (len - 1))
    else if String.eqb key "ArrowLeft" then
      let* col := gets (fun c => selectedColumnIndex (state c)) in
      updateSelectedColumn (Z.max 0 (col - 1))
    else if String.eqb key "ArrowRight" then
      let* row := gets (fun c => selectedRowIndex (state c)) in
      let* tilesLength := getTilesLength row in
      let* col := gets (fun c => selectedColumnIndex (state c)) in
      updateSelectedColumn (Z.min (col + 1) (tilesLength - 1))
    else if String.eqb key "Enter" then
      renderModal ;;
      setOpacity "0.5"
    else if String.eqb key "Escape" then
      modalSetAttribute "is-open" "false" ;;
      setOpacity "1"
    else ret tt.

(** *** Layout toggle and start-up *)

Definition toggleHandler : M unit :=
  modify (withState (fun s => setIsHorizontal (negb (isHorizontal s)) s)) ;;
  renderCollections ;;
  modify (withCollectionsElement true).

Definition addEventListeners : M unit := modify (withListening true).

(** The loading image shown first, and removed by the [finally] of
    [fetchData], has no part in what follows and is left out. *)
Definition connectedCallback : M unit :=
  fetchData ;;
  render ;;
  addEventListeners ;;
  let* cs := gets (fun c => collections (state c)) in
  let* first := defined (at_ cs 0) in
  let* views := defined (Collection.views first) in
  modify (withState (setSelectedTile (at_ views 0))) ;;
  modify (withCollectionsElement true).

(** *** The event loop *)

Inductive Event : Type :=
| KeyDown (key : string)
| ToggleClick.

(** A handler that throws leaves the mutations it made so far. *)
Definition dispatch (c : Comp) (e : Event) : Comp :=
  if listening c then
    match e with
    | KeyDown key => snd (handleKeyDown key c)
    | ToggleClick => snd (toggleHandler c)
    end
  else c.

Definition run (c : Comp) (events : list Event) : Comp :=
  fold_left dispatch events c.

(** The component once [connectedCallback] has settled. *)
Definition started : Comp := snd (connectedCallback constructed).

End Component.

(* ===================================================================== *)
(** ** A small catalog service, for the concrete runs *)
(* ===================================================================== *)

Module Fixture.

Definition tileImage (path : string) : JSValue :=
  JObj [("image", JObj [("path", JStr path)])].

Definition rawItem (id : string) (genres : list string) : JSValue :=
  JObj [ ("id", JStr id);
         ("visuals",
           JObj [ ("artwork",
                    JObj [ ("horizontal_tile", tileImage (id ++ "/h"));
                           ("vertical_tile", tileImage (id ++ "/v")) ]);
                  ("headline", JStr ("Title " ++ id));
                  ("body", JStr "Body");
                  ("action_text", JStr "Play");
                  ("primary_branding",
                    JObj [("id", JStr "brand"); ("name", JStr "Hulu")]) ]);
         ("entity_metadata",
           JObj [ ("rating", JObj [("code", JStr "TV-14")]);
                  ("genre_names", JArr (map JStr genres));
                  ("entity_type", JStr "series");
                  ("premiere_date", JStr "2020-01-01T00:00:00Z") ]) ].

Definition rawCollection (id : string) : JSValue :=
  JObj [ ("id", JStr id); ("name", JStr ("Collection " ++ id));
         ("theme", JStr "medium"); ("href", JStr ("/" ++ id)) ].

Definition okResponse (body : JSValue) : Response := mkResponse true 200 "OK" (Ok body).
Definition serverError : Response :=
  mkResponse false 500 "Internal Server Error" (Ok JNull).

(** A service holding the collections [catalog], each an id and its raw
    items; a collection whose id is in [broken] answers 500. *)
Definition service (catalog : list (string * list JSValue)) (broken : list string)
                   (url : string) : Exc Response :=
  if String.eqb url "hub" then
    Ok (okResponse (JObj [("components", JArr (map (fun kv => rawCollection (fst kv)) catalog))]))
  else
    match List.find (fun kv => String.eqb url ("proxy/" ++ fst kv)) catalog with
    | Some kv =>
        if existsb (String.eqb (fst kv)) broken then Ok serverError
        else Ok (okResponse (JObj [("items", JArr (snd kv))]))
    | None => Throw NetworkError
    end.

Definition printDate (d : Date) : string :=
  match dateValue d with
  | JStr s => s
  | _ => "Invalid Date"
  end.

Definition allLoad (url : string) : bool := true.

(** Two collections, of three items and of one. *)
Definition catalog31 : list (string * list JSValue) :=
  [ ("a", [rawItem "a0" ["Drama"]; rawItem "a1" ["Comedy"; "Drama"];
           rawItem "a2" ["Action"; "Crime"; "Thriller"]]);
    ("b", [rawItem "b0" ["News"]]) ].

Definition start (catalog : list (string * list JSValue)) (broken : list string)
                 (loads : string -> bool) : Comp :=
  started "hub" "proxy" "logo.jpeg" (service catalog broken) loads printDate.

Definition go (c : Comp) (events : list Event) : Comp := run printDate c events.

Definition cursor (c : Comp) : Z * Z :=
  (selectedRowIndex (state c), selectedColumnIndex (state c)).

(** The component started on [catalog31]. *)
Definition s0 : Comp := start catalog31 [] allLoad.

(** A genre name with a double quote in it, and an item, typed as the data
    model declares, that has it first of three. *)
Definition quotedGenre : string := "Sci" ++ dquote ++ "Fi".

Definition quotedGenreItem : View.t :=
  View.mk (JStr "a2") (JStr "Play") (JStr "Body") (JStr "Title a2")
          "a2/h&size=800x600&format=jpeg" "a2/v&size=600x800&format=jpeg"
          None (JStr "TV-14") (JArr (map JStr [quotedGenre; "Drama"; "Kids"]))
          (JStr "series") (newDate (JStr "2020-01-01T00:00:00Z")).

(** A headline that closes the attribute it is put in and goes on with an
    attribute of its own, and a typed item that has it. *)
Definition injectingHeadline : string :=
  "x" ++ dquote ++ " is-selected=" ++ dquote ++ "true".

Definition injectingItem : View.t :=
  View.mk (JStr "a1") (JStr "Play") (JStr "Body") (JStr injectingHeadline)
          "a1/h&size=800x600&format=jpeg" "a1/v&size=600x800&format=jpeg"
          None (JStr "TV-14") (JArr (map JStr ["Drama"]))
          (JStr "series") (newDate (JStr "2020-01-01T00:00:00Z")).

End Fixture.

(** The component started on [Fixture.catalog31], and its runs. *)
Abbreviation fetch31 := (Fixture.service Fixture.catalog31 []).
Abbreviation started31 :=
  (started "hub" "proxy" "logo.jpeg" fetch31 Fixture.allLoad Fixture.printDate).
Abbreviation run31 := (run Fixture.printDate started31).

(* ===================================================================== *)
(** ** Vocabulary of the properties: the catalog client *)
(* ===================================================================== *)

Definition raises {A} (m : Exc A) : Prop := exists e, m = Throw e.

(** [v.name] where the read cannot throw: [undefined] on a primitive. *)
Definition field (v : JSValue) (name : string) : JSValue :=
  match v with
  | JObj props => assoc name props
  | _ => JUndefined
  end.

(** The blocks read through on the way to [visuals.artwork.<tile>.image]
    are all there. *)
Definition tileNested (data : JSValue) (tile : string) : bool :=
  negb (nullish data)
  && negb (nullish (field data "visuals"))
  && negb (nullish (field (field data "visuals") "artwork"))
  && negb (nullish (field (field (field data "visuals") "artwork") tile))
  && negb (nullish (field (field (field (field data "visuals") "artwork") tile)
                          "image")).

Definition imagePath (data : JSValue) (tile : string) : JSValue :=
  field (field (field (field (field data "visuals") "artwork") tile) "image") "path".

(** [entity_metadata] and [entity_metadata.rating] are there. *)
Definition metadataNested (data : JSValue) : bool :=
  negb (nullish (field data "entity_metadata"))
  && negb (nullish (field (field data "entity_metadata") "rating")).





(** The item whose every field is the one the raw record holds, the images
    being [h] and [v]; an absent field is [undefined]. *)
Definition viewOf (logo : string) (data : JSValue) (h v : string) : View.t :=
  let visuals := field data "visuals" in
  let primary_branding := field visuals "primary_branding" in
  let entity_metadata := field data "entity_metadata" in
  View.mk (field data "id")
          (field visuals "action_text")
          (field visuals "body")
          (field visuals "headline")
          h v
          (if truthy primary_branding
           then Some (Branding.mk (field primary_branding "id")
                                  (field primary_branding "name") logo)
           else None)
          (field (field entity_metadata "rating") "code")
          (field entity_metadata "genre_names")
          (field entity_metadata "entity_type")
          (newDate (field entity_metadata "premiere_date")).

(** The fetch of [url] fails: the request is rejected or the status is not
    a success. *)
Definition transportFails (fetch : string -> Exc Response) (url : string) : Prop :=
  raises (fetch url) \/ exists r, fetch url = Ok r /\ ok r = false.

(** What [fetchData] leaves in the state: the fetched collections, each with
    the items [getViews] returned for it. *)
Definition appendCollections (xs : list Collection.t) (s : State) : State :=
  mkState (selectedRowIndex s) (selectedColumnIndex s) (selectedTile s)
          (collections s ++ xs) (isHorizontal s).

Definition attached (PROXY logo : string) (fetch : string -> Exc Response)
                    (imageLoads : string -> bool) (x : Collection.t) : Collection.t :=
  withViews x (match getViews PROXY logo fetch imageLoads (Collection.href x) with
               | Ok views => views
               | Throw _ => []
               end).

(* ===================================================================== *)
(** ** Vocabulary of the properties: navigation *)
(* ===================================================================== *)

(** The overlay is showing. *)
Definition overlayOpen (c : Comp) : Prop :=
  mounted c = true /\ modal c !! "is-open" = Some "true".

(** The overlay is in place and not showing. *)
Definition overlayClosed (c : Comp) : Prop :=
  mounted c = true /\ attrIs (modal c) "is-open" "true" = false.

(** [lastRowIndex] and [lastColumnIndexOfCurrentRow], as the document has
    them. *)
Definition lastRowIndex (c : Comp) : Z := Z.of_nat (List.length (rows c)) - 1.

Definition lastColumnIndexOfCurrentRow (c : Comp) : Z :=
  match at_ (rows c) (selectedRowIndex (state c)) with
  | Some r => Z.of_nat (List.length (children r)) - 1
  | None => -1
  end.

(** The target index a directional key computes. *)
Definition computedIndex (key : string) (c : Comp) : option Z :=
  if String.eqb key "ArrowUp" then
    Some (Z.max 0 (selectedRowIndex (state c) - 1))
  else if String.eqb key "ArrowDown" then
    Some (Z.min (selectedRowIndex (state c) + 1) (lastRowIndex c))
  else if String.eqb key "ArrowLeft" then
    Some (Z.max 0 (selectedColumnIndex (state c) - 1))
  else if String.eqb key "ArrowRight" then
    Some (Z.min (selectedColumnIndex (state c) + 1) (lastColumnIndexOfCurrentRow c))
  else None.

(** The index of the cursor that key moves. *)
Definition currentIndex (key : string) (c : Comp) : option Z :=
  if String.eqb key "ArrowUp" || String.eqb key "ArrowDown" then
    Some (selectedRowIndex (state c))
  else if String.eqb key "ArrowLeft" || String.eqb key "ArrowRight" then
    Some (selectedColumnIndex (state c))
  else None.

(** The computed target of the key is the current index. *)
Definition atBoundary (key : string) (c : Comp) : Prop :=
  exists i, computedIndex key c = Some i /\ currentIndex key c = Some i.

(** The item has the field types [utils/types.ts] declares, [genres] being
    its genre list. *)
Definition typedView (v : View.t) (genres : list string) : Prop :=
  (exists s, View.title v = JStr s) /\
  (exists s, View.actionText v = JStr s) /\
  (exists s, View.description v = JStr s) /\
  (exists s, View.rating v = JStr s) /\
  (exists s, View.type v = JStr s) /\
  View.genre v = JArr (map JStr genres).

(** The item, and the tile, at a position of the grid. *)
Definition viewAt (cs : list Collection.t) (row col : Z) : option View.t :=
  match at_ cs row with
  | Some x => match Collection.views x with
              | Some views => at_ views col
              | None => None
              end
  | None => None
  end.

Definition tileAtZ (rs : list Row) (row col : Z) : option Element :=
  match at_ rs row with
  | Some r => at_ (children r) col
  | None => None
  end.

(** [collections[row].items.length] *)
Definition itemCount (cs : list Collection.t) (row : Z) : Z :=
  match at_ cs row with
  | Some x => match Collection.views x with
              | Some views => Z.of_nat (List.length views)
              | None => 0
              end
  | None => 0
  end.

(** The component after the keys were pressed in turn. *)
Definition pressed (dateToString : Date -> string) (c : Comp) (keys : list string)
  : Comp :=
  run dateToString c (map KeyDown keys).

(** The item the cursor addresses, if any. *)
Definition cursorItem (c : Comp) : option View.t :=
  viewAt (collections (state c))
         (selectedRowIndex (state c)) (selectedColumnIndex (state c)).

(** The cursor bounds of the data model. *)
Definition rowInBounds (c : Comp) : Prop :=
  0 <= selectedRowIndex (state c)
       < Z.of_nat (List.length (collections (state c))).

Definition columnInBounds (c : Comp) : Prop :=
  0 <= selectedColumnIndex (state c)
       < itemCount (collections (state c)) (selectedRowIndex (state c)).

(** The tile template can be instantiated for the item, and the row
    template for the collection. *)
Definition tileRenders (v : View.t) : Prop :=
  returns (ToString (View.title v)) /\
  returns (ToString (View.actionText v)) /\
  returns (slice2_join (View.genre v) separator).

Definition rowRenders (x : Collection.t) : Prop :=
  returns (ToString (Collection.title x)) /\
  exists views, Collection.views x = Some views /\ Forall tileRenders views.

(** A rendered row has one tile per item of its collection. *)
Definition sameShape (x : Collection.t) (r : Row) : Prop :=
  exists views, Collection.views x = Some views /\
                List.length (children r) = List.length views.

(** Exactly the tile at the cursor, if there is one, reads as selected. *)
Definition marked (row col : Z) (rs : list Row) : Prop :=
  forall i j e,
    tileAtZ rs i j = Some e ->
    e !! "is-selected" = Some (boolToString (Z.eqb j col && Z.eqb i row)).

(** The document is in step with the state: the grid is in place, it has
    one row per collection and one tile per item, exactly the tile at the
    cursor reads as selected, and the bound record is the item at the
    cursor when there is one. Every key press keeps it. *)
Record Inv (c : Comp) : Prop := mkInv {
  inv_mounted : mounted c = true;
  inv_renders : Forall rowRenders (collections (state c));
  inv_shape : Forall2 sameShape (collections (state c)) (rows c);
  inv_marked : marked (selectedRowIndex (state c)) (selectedColumnIndex (state c))
                      (rows c);
  inv_bound : collectionsElement c = true \/ collections (state c) = [];
  inv_row : 0 <= selectedRowIndex (state c)
            <= Z.max 0 (Z.of_nat (List.length (collections (state c))) - 1);
  inv_tile : forall v, cursorItem c = Some v -> selectedTile (state c) = Some v
}.

(** Everything but the cursor, the bound record, the tiles and the effects
    is the same in both. *)
Definition sameFrame (c c' : Comp) : Prop :=
  collections (state c') = collections (state c) /\
  isHorizontal (state c') = isHorizontal (state c) /\
  mounted c' = mounted c /\
  modal c' = modal c /\
  opacity c' = opacity c /\
  collectionsElement c' = collectionsElement c /\
  listening c' = listening c.

(** The rows after [setAttribute(name, value)] on the tile at a position,
    when there is one. *)
Definition rowsWith (row col : Z) (name value : string) (rs : list Row) : list Row :=
  match tileAtZ rs row col with
  | Some _ => alter (setChildAttribute (Z.to_nat col) name value) (Z.to_nat row) rs
  | None => rs
  end.

(** No tile reads as selected. *)
Definition unmarked (rs : list Row) : Prop :=
  forall i j e, tileAtZ rs i j = Some e -> e !! "is-selected" = Some "false".

(** The state, the tiles and the wiring are the same in both: only the
    overlay, the opacity and the effects may differ. *)
Definition sameCore (c c' : Comp) : Prop :=
  state c' = state c /\
  rows c' = rows c /\
  mounted c' = mounted c /\
  collectionsElement c' = collectionsElement c /\
  listening c' = listening c.

Definition keepsCore {A} (m : M A) : Prop := forall c, sameCore c (snd (m c)).

(** The overlay shows the fields of this record. *)
Definition boundTo (dateToString : Date -> string) (m : Element) (v : View.t) : Prop :=
  exists title description rating genre type actionText,
    ToString (View.title v) = Ok title /\
    ToString (View.description v) = Ok description /\
    ToString (View.rating v) = Ok rating /\
    join (View.genre v) separator = Ok genre /\
    ToString (View.type v) = Ok type /\
    ToString (View.actionText v) = Ok actionText /\
    m !! "logo" = Some (brandingLogo (View.branding v)) /\
    m !! "horizontal-image" = Some (View.horizontalImage v) /\
    m !! "title" = Some title /\
    m !! "description" = Some description /\
    m !! "rating" = Some rating /\
    m !! "date" = Some (dateToString (View.date v)) /\
    m !! "genre" = Some genre /\
    m !! "type" = Some type /\
    m !! "action-text" = Some actionText.

(* ===================================================================== *)
(** ** Vocabulary of the further properties: the catalog client *)
(* ===================================================================== *)

Definition isArray (v : JSValue) : bool :=
  match v with
  | JArr _ => true
  | _ => false
  end.

(** The collection descriptor made of one element of [components]. *)
Definition skeleton (item : JSValue) : Collection.t :=
  Collection.mk (field item "id") (field item "name") (field item "href")
                (field item "theme") None.

(** What one raw item contributes to the item list. *)
Definition normalised (logo : string) (imageLoads : string -> bool)
                      (item : JSValue) : option View.t :=
  match transformDataToView logo imageLoads item with
  | Ok r => r
  | Throw _ => None
  end.

(* ===================================================================== *)
(** ** Vocabulary of the further properties: navigation *)
(* ===================================================================== *)

(** The greatest number of items of a collection. *)
Definition maxItemCount (cs : list Collection.t) : Z :=
  fold_right (fun x acc =>
                Z.max (match Collection.views x with
                       | Some views => Z.of_nat (List.length views)
                       | None => 0
                       end) acc)
             0 cs.

(** The record bound after the cursor moved to [(row, col)]: the item there
    when there is one, else the record bound before. *)
Definition rebound (s : State) (row col : Z) : option View.t :=
  match viewAt (collections s) row col with
  | Some v => Some v
  | None => selectedTile s
  end.

(** The state after the cursor moved to [(row, col)]. *)
Definition movedTo (s : State) (row col : Z) : State :=
  mkState row col (rebound s row col) (collections s) (isHorizontal s).

(** One event takes the state [s] to [s']: nothing changes, or the layout
    flag flips, or the cursor moves by one of the four arrows. *)
Definition stateStep (s s' : State) : Prop :=
  let row := selectedRowIndex s in
  let col := selectedColumnIndex s in
  let cs := collections s in
  s' = s
  \/ s' = setIsHorizontal (negb (isHorizontal s)) s
  \/ (cs <> [] /\
      (s' = movedTo s (Z.max 0 (row - 1)) col
       \/ s' = movedTo s (Z.min (row + 1) (Z.of_nat (List.length cs) - 1)) col
       \/ s' = movedTo s row (Z.max 0 (col - 1))
       \/ s' = movedTo s row (Z.min (col + 1) (itemCount cs row - 1)))).

(** The keys [handleKeyDown] has a case for. *)
Definition handledKeys : list string :=
  ["ArrowUp"; "ArrowDown"; "ArrowLeft"; "ArrowRight"; "Enter"; "Escape"].



(* ===================================================================== *)
(** ** Vocabulary of the further properties: what a key press keeps *)
(* ===================================================================== *)

(** The method keeps the property of the component, also when it throws. *)
Definition preserves {A} (P : Comp -> Prop) (m : M A) : Prop :=
  forall c, P c -> P (snd (m c)).

(** A property kept by each mutation a key press can make: marking a tile,
    writing the cursor or the bound record, setting an attribute of the
    overlay, setting the opacity. *)
Record Stable (P : Comp -> Prop) : Prop := mkStable {
  stable_tile : forall row col value c,
    P c -> P (snd (tileSetAttribute row col "is-selected" value c));
  stable_state : forall f c,
    collections (f (state c)) = collections (state c) ->
    isHorizontal (f (state c)) = isHorizontal (state c) ->
    P c -> P (withState f c);
  stable_modal : forall name value c, P c -> P (modalSet name value c);
  stable_opacity : forall value c,
    P c -> P (emit (GridOpacity value) (withOpacity (Some value) c))
}.

(** The effect replaces the markup of the shadow root or of the grid. *)
Definition isRender (e : Effect) : bool :=
  match e with
  | ShadowInnerHTML | GridInnerHTML => true
  | _ => false
  end.

(** The number of tiles of each row. *)
Definition tileCounts (rs : list Row) : list nat :=
  map (fun r => List.length (children r)) rs.

(** What no key press changes, relative to [c0]. *)
Definition keyFrame (c0 c : Comp) : Prop :=
  collections (state c) = collections (state c0) /\
  isHorizontal (state c) = isHorizontal (state c0) /\
  mounted c = mounted c0 /\
  listening c = listening c0 /\
  collectionsElement c = collectionsElement c0 /\
  map heading (rows c) = map heading (rows c0) /\
  map vertical (rows c) = map vertical (rows c0) /\
  tileCounts (rows c) = tileCounts (rows c0) /\
  filter (fun e => isRender e = true) (effects c)
  = filter (fun e => isRender e = true) (effects c0).

(* ===================================================================== *)
(** ** Vocabulary of the further properties: the grid and the state *)
(* ===================================================================== *)

(** The tile is the tile template instantiated for the item, whatever its
    selection mark. *)
Definition tileFrom (dateToString : Date -> string) (h : bool)
                    (v : View.t) (e : Element) : Prop :=
  exists b e0, renderTile dateToString h v b = Ok e0 /\
               delete "is-selected" e = delete "is-selected" e0.

Definition rowFrom (dateToString : Date -> string) (h : bool)
                   (x : Collection.t) (r : Row) : Prop :=
  ToString (Collection.title x) = Ok (heading r) /\
  vertical r = negb h /\
  exists views, Collection.views x = Some views /\
                Forall2 (tileFrom dateToString h) views (children r).

Definition templated (dateToString : Date -> string) (c : Comp) : Prop :=
  Forall2 (rowFrom dateToString (isHorizontal (state c)))
          (collections (state c)) (rows c).

(** The grid is what [renderCollections] makes of the state. *)
Definition rendered (dateToString : Date -> string) (c : Comp) : Prop :=
  mapEi (renderRow dateToString (state c)) 0%nat (collections (state c))
  = Ok (rows c).

(** The rows [rs'] are the rows [rs] but for the attribute [name] of their
    tiles: the same headings and orientations, and tile for tile the same
    attributes. *)
Definition sameTilesBut (name : string) (rs rs' : list Row) : Prop :=
  Forall2 (fun r r' =>
             heading r' = heading r /\
             vertical r' = vertical r /\
             Forall2 (fun e e' => delete name e' = delete name e)
                     (children r) (children r'))
          rs rs'.

(* ===================================================================== *)
(** ** Vocabulary of the further properties: what a move does to the tiles *)
(* ===================================================================== *)



(** The component on an empty catalog: the cursor at the origin, no record
    bound, no row, the overlay closed. *)
Definition inert (c : Comp) : Prop :=
  listening c = true /\
  selectedRowIndex (state c) = 0 /\
  selectedColumnIndex (state c) = 0 /\
  selectedTile (state c) = None /\
  collections (state c) = [] /\
  rows c = [] /\
  overlayClosed c.

(* ===================================================================== *)
(** ** components/Modal/index.ts *)
(* ===================================================================== *)

(** [oldValue === newValue] in an [attributeChangedCallback]: [null] for an
    attribute that is not there. *)
Definition sameValue (a b : option string) : bool :=
  match a, b with
  | Some x, Some y => String.eqb x y
  | None, None => true
  | _, _ => false
  end.

(** The overlay element: its attributes and what its shadow tree shows.
    The style sheets export their class names unchanged, so each query of
    [updateModal] finds its element. *)
Module Modal.

Record t : Type := mk {
  attrs : Element;               (* the attributes of hulu-modal *)
  show : bool;                   (* .modal carries the class show *)
  imageLogo : option string;     (* hulu-image logo *)
  imageSrc : option string;      (* hulu-image src *)
  titleText : string;            (* h1 *)
  actionText : string;           (* #action-text *)
  ratingText : string;           (* .rating *)
  genreText : string;            (* #genre *)
  dateText : string;             (* #date *)
  descriptionText : string       (* section *)
}.

Definition observedAttributes : list string :=
  ["is-open"; "title"; "description"; "rating"; "genre"; "date";
   "horizontal-image"; "action-text"].

(** The observed attributes other than [is-open]. *)
Definition contentAttributes : list string :=
  ["title"; "description"; "rating"; "genre"; "date";
   "horizontal-image"; "action-text"].

(** [setAttribute(name, v)] converts [v] to a string, [null] included. *)
Definition attributeOf (v : option string) : string :=
  match v with
  | Some s => s
  | None => "null"
  end.

(** [textContent = v]: [null] gives the empty string. *)
Definition textOf (v : option string) : string :=
  match v with
  | Some s => s
  | None => ""
  end.

(** The element once [connectedCallback] has rendered it; the text of the
    description section is the white space of the template. *)
Definition connected : t :=
  mk ∅ false None None "" "" "" "" ""
     (String (Ascii.ascii_of_nat 10) "          ").

Definition withAttrs (a : Element) (m : t) : t :=
  mk a (show m) (imageLogo m) (imageSrc m) (titleText m) (actionText m)
     (ratingText m) (genreText m) (dateText m) (descriptionText m).

Definition withShow (b : bool) (m : t) : t :=
  mk (attrs m) b (imageLogo m) (imageSrc m) (titleText m) (actionText m)
     (ratingText m) (genreText m) (dateText m) (descriptionText m).

Section WithYear.

(** [new Date(v).getFullYear().toString()] *)
Variable yearOf : option string -> string.

Definition updateModal (m : t) : t :=
  let a := attrs m in
  mk a (show m)
     (Some (attributeOf (a !! "logo")))
     (Some (attributeOf (a !! "horizontal-image")))
     (textOf (a !! "title"))
     (textOf (a !! "action-text"))
     (textOf (a !! "rating"))
     (textOf (a !! "genre"))
     (yearOf (a !! "date"))
     (textOf (a !! "description")).

Definition attributeChangedCallback (name : string) (oldValue newValue : option string)
                                    (m : t) : t :=
  if sameValue oldValue newValue then m
  else if String.eqb name "is-open" then
    withShow (sameValue newValue (Some "true")) m
  else updateModal m.

(** [setAttribute(name, value)] on the element, and the callback the
    browser makes when the attribute is observed. *)
Definition setAttribute (name value : string) (m : t) : t :=
  let oldValue := attrs m !! name in
  let m1 := withAttrs (<[name := value]> (attrs m)) m in
  if existsb (String.eqb name) observedAttributes
  then attributeChangedCallback name oldValue (Some value) m1
  else m1.



(** The text and the image follow the attributes. *)
Definition tracked (m : t) : Prop :=
  imageSrc m = Some (attributeOf (attrs m !! "horizontal-image")) /\
  titleText m = textOf (attrs m !! "title") /\
  actionText m = textOf (attrs m !! "action-text") /\
  ratingText m = textOf (attrs m !! "rating") /\
  genreText m = textOf (attrs m !! "genre") /\
  dateText m = yearOf (attrs m !! "date") /\
  descriptionText m = textOf (attrs m !! "description").

(** No content attribute was ever set, and the shadow tree is as rendered. *)
Definition untouched (m : t) : Prop :=
  (forall name, In name contentAttributes -> attrs m !! name = None) /\
  withShow false (withAttrs ∅ m) = connected.

(** The element is consistent with its attributes. *)
Definition follows (m : t) : Prop :=
  show m = attrIs (attrs m) "is-open" "true" /\ (untouched m \/ tracked m).

End WithYear.

End Modal.


(* ===================================================================== *)
(** ** components/LayoutToggle/index.ts *)
(* ===================================================================== *)

Module LayoutToggle.

Record t : Type := mk {
  isHorizontal : bool;     (* state.isHorizontal *)
  sliderOn : bool          (* .slider carries the class on *)
}.

(** The element once constructed and rendered. *)
Definition connected : t := mk false false.


End LayoutToggle.





(* ===================================================================== *)
(** ** components/Tile/index.ts *)
(* ===================================================================== *)

(** One tile element: its attributes and the selection marks of its shadow
    tree, as [attributeChangedCallback] and [updateSelection] read and
    write them. The shadow tree is either empty, as before the element is
    connected, or holds the four elements [updateSelection] looks up.
    Class names are exported unchanged, as for the overlay, and the tile
    sits in a row, so [adjustScroll] has a parent to scroll. *)
Module Tile.

Record t : Type := mk {
  attrs : Element;                 (* the attributes of hulu-tile *)
  rendered : bool;                 (* the shadow tree holds .tile, hulu-image, #title, #subtitle *)
  tileSelected : bool;             (* .tile carries the class selected *)
  titleSelected : bool;            (* #title carries it *)
  subtitleSelected : bool;         (* #subtitle carries it *)
  imageSelected : option string;   (* hulu-image is-selected *)
  scrolls : nat                    (* calls of adjustScroll() *)
}.

Definition observedAttributes : list string :=
  ["layout"; "is-selected"; "image"; "date"; "genre"; "type"].

Definition withAttrs (a : Element) (s : t) : t :=
  mk a (rendered s) (tileSelected s) (titleSelected s) (subtitleSelected s)
     (imageSelected s) (scrolls s).

(** Nothing is done while the shadow tree is empty: the three elements
    looked up are missing. *)
Definition updateSelection (isSelected : bool) (s : t) : t :=
  if negb (rendered s) then s
  else mk (attrs s) true isSelected isSelected isSelected
          (Some (boolToString isSelected))
          (if isSelected then S (scrolls s) else scrolls s).

Definition attributeChangedCallback (name : string) (oldValue newValue : option string)
                                    (s : t) : t :=
  if sameValue oldValue newValue then s
  else if String.eqb name "is-selected" then
    updateSelection (sameValue newValue (Some "true")) s
  else s.

Definition setAttribute (name value : string) (s : t) : t :=
  let oldValue := attrs s !! name in
  let s1 := withAttrs (<[name := value]> (attrs s)) s in
  if existsb (String.eqb name) observedAttributes
  then attributeChangedCallback name oldValue (Some value) s1
  else s1.

(** The four selection marks of the shadow tree agree with the attribute. *)
Definition consistent (s : t) : Prop :=
  let sel := attrIs (attrs s) "is-selected" "true" in
  rendered s = true /\
  tileSelected s = sel /\ titleSelected s = sel /\ subtitleSelected s = sel /\
  imageSelected s = Some (boolToString sel).

End Tile.

(* ===================================================================== *)
(** ** The listeners: [addEventListeners] and [disconnectedCallback] of
       components/Collections/index.ts and components/LayoutToggle/index.ts *)
(* ===================================================================== *)

Module Wiring.

(** Function values, told apart by identity as [removeEventListener] does:
    each call of [bind] and each evaluation of an arrow expression makes a
    new one. *)
Inductive Fn : Type :=
| Method (name : string)                 (* a method read off the instance *)
| Bound (target : Fn) (serial : nat)     (* made by [target.bind(this)] *)
| Arrow (serial : nat).                  (* made by an arrow expression *)

Fixpoint Fn_eqb (f g : Fn) : bool :=
  match f, g with
  | Method a, Method b => String.eqb a b
  | Bound f' a, Bound g' b => Fn_eqb f' g' && Nat.eqb a b
  | Arrow a, Arrow b => Nat.eqb a b
  | _, _ => false
  end.

Record t : Type := mk {
  keydown : list Fn;            (* the keydown listeners of document *)
  click : list Fn;              (* the click listeners of the switch's #toggle *)
  toggleHandler : option Fn;    (* the switch's toggleHandler property *)
  serial : nat                  (* functions made so far *)
}.

Definition initial : t := mk [] [] None 0.

(** A listener already there is not added again. *)
Definition addEventListener (f : Fn) (l : list Fn) : list Fn :=
  if existsb (Fn_eqb f) l then l else (l ++ [f])%list.

(** [undefined] matches no listener. *)
Definition removeEventListener (f : option Fn) (l : list Fn) : list Fn :=
  match f with
  | Some f => List.filter (fun g => negb (Fn_eqb f g)) l
  | None => l
  end.

(** The switch's [connectedCallback], run when [render] of the grid
    component puts a new switch in place: a new [#toggle] with the wrapper
    as its only listener, and no [toggleHandler] yet. *)
Definition switchConnected (w : t) : t :=
  mk (keydown w) [Arrow (serial w)] None (S (serial w)).

(** [addEventListeners] of the grid component. *)
Definition addEventListeners (w : t) : t :=
  mk (addEventListener (Bound (Method "handleKeyDown") (serial w)) (keydown w))
     (click w)
     (Some (Arrow (S (serial w))))
     (S (S (serial w))).

(** A connection of the grid component in which start-up gets as far as
    [addEventListeners]. *)
Definition connected (w : t) : t := addEventListeners (switchConnected w).

(** The two [disconnectedCallback]s, run when the grid component leaves
    the document. *)
Definition disconnected (w : t) : t :=
  mk (removeEventListener (Some (Method "handleKeyDown")) (keydown w))
     (removeEventListener (toggleHandler w) (click w))
     (toggleHandler w)
     (serial w).

Inductive Life : Type := Connect | Disconnect.

Definition step (w : t) (e : Life) : t :=
  match e with
  | Connect => connected w
  | Disconnect => disconnected w
  end.

Definition connects (es : list Life) : nat :=
  List.length (List.filter (fun e => match e with Connect => true | Disconnect => false end) es).

(** Every keydown listener is a bound copy of [handleKeyDown] made earlier,
    and the switch's wrapper is not its [toggleHandler]. *)
Definition wellFormed (w : t) : Prop :=
  Forall (fun f => exists k, f = Bound (Method "handleKeyDown") k /\ (k < serial w)%nat)
         (keydown w)
  /\ (click w = [] \/
      exists j, click w = [Arrow j] /\ (j < serial w)%nat /\
                match toggleHandler w with
                | Some f => f <> Arrow j
                | None => True
                end).

End Wiring.

(* ===================================================================== *)
(** ** Data of the concrete runs of the further properties *)
(* ===================================================================== *)

Abbreviation hubBody31 :=
  (JObj [("components", JArr [Fixture.rawCollection "a"; Fixture.rawCollection "b"])]).

Abbreviation itemsBody31 := (JObj [("items", JArr [Fixture.rawItem "b0" ["News"]])]).

Abbreviation nullResponse := (mkResponse true 200 "OK" (Ok JNull)).

Abbreviation fetchEmpty := (Fixture.service [] []).

Abbreviation oneTile :=
  (mkComp (mkState 0 0 None [] true) true
          [mkRow "Row" false [<["is-selected" := "false"]> ∅]]
          None ∅ true true []).

(** A tile with its shadow tree filled, not selected. *)
Abbreviation renderedTile :=
  (Tile.mk (<["is-selected" := "false"]> ∅) true false false false (Some "false") 0).

(* ===================================================================== *)
(** * Properties *)
(* ===================================================================== *)

(** ** Exceptions and maps *)

Lemma ebind_Ok {A B} (m : Exc A) (k : A -> Exc B) (b : B) :
  ebind m k = Ok b -> exists a, m = Ok a /\ k a = Ok b.
Proof. destruct m as [a|e]; simpl; [eauto | discriminate]. Qed.

Lemma try_catch_returns {A} (body : Exc A) (handler : exn -> Exc A) :
  (forall e, returns (handler e)) -> returns (try_catch body handler).
Proof.
  intros Hh. destruct body as [a|e]; simpl; [by exists a | apply Hh].
Qed.



Lemma mapE_total {A B} (f : A -> Exc B) xs :
  (forall x, returns (f x)) -> returns (mapE f xs).
Proof.
  intros Hf. induction xs as [|x xs [ys IH]]; simpl; [by eexists|].
  destruct (Hf x) as [y ->]. simpl. rewrite IH. simpl. by eexists.
Qed.

Lemma constructImageUrl_nonEmpty url w h f :
  nonEmpty (constructImageUrl url w h f) = true.
Proof. unfold constructImageUrl, nonEmpty. by destruct url. Qed.

(** ** Reading the raw record *)

Lemma getProp_field v name :
  getProp v name = if nullish v then Throw TypeError else Ok (field v name).
Proof. by destruct v. Qed.

Lemma truthy_not_nullish v : truthy v = true -> nullish v = false.
Proof. by destruct v. Qed.

Lemma tilePath_nested data tile :
  tilePath data tile
  = if tileNested data tile then Ok (imagePath data tile) else Throw TypeError.
Proof.
  unfold tilePath, tileNested, imagePath. rewrite getProp_field.
  destruct (nullish data); [done|]. simpl. rewrite getProp_field.
  destruct (nullish (field data "visuals")); [done|]. simpl. rewrite getProp_field.
  destruct (nullish (field (field data "visuals") "artwork")); [done|]. simpl.
  rewrite getProp_field.
  destruct (nullish (field (field (field data "visuals") "artwork") tile));
    [done|]. simpl.
  rewrite getProp_field.
  by destruct (nullish (field (field (field (field data "visuals") "artwork") tile)
                              "image")).
Qed.

Lemma tileNested_visuals data tile :
  tileNested data tile = true ->
  nullish data = false /\ nullish (field data "visuals") = false.
Proof.
  unfold tileNested. destruct (nullish data); [done|].
  by destruct (nullish (field data "visuals")).
Qed.

(** ** The item normaliser *)

Section ApiProperties.

Variables (PROXY logo : string).
Variable fetch : string -> Exc Response.
Variable imageLoads : string -> bool.

(** The object literal, on a record whose [visuals] block is there. *)
Lemma buildView_eval data h v :
  nullish data = false -> nullish (field data "visuals") = false ->
  buildView logo data h v
  = if metadataNested data then
      match ToString (field (field data "entity_metadata") "premiere_date") with
      | Ok _ => Ok (viewOf logo data h v)
      | Throw e => Throw e
      end
    else Throw TypeError.
Proof.
  intros Hd Hv. unfold buildView, metadataNested, viewOf, constructDate.
  rewrite !(getProp_field data), Hd. cbn [ebind].
  rewrite !(getProp_field (field data "visuals")), Hv. cbn [ebind].
  destruct (truthy (field (field data "visuals") "primary_branding")) eqn:Ht.
  - rewrite !(getProp_field (field (field data "visuals") "primary_branding")),
      (truthy_not_nullish _ Ht). cbn [ebind].
    rewrite !(getProp_field (field data "entity_metadata")).
    destruct (nullish (field data "entity_metadata")); [done|]. cbn [ebind negb andb].
    rewrite getProp_field.
    destruct (nullish (field (field data "entity_metadata") "rating")); [done|].
    cbn [ebind negb].
    by destruct (ToString (field (field data "entity_metadata") "premiere_date")).
  - cbn [ebind].
    rewrite !(getProp_field (field data "entity_metadata")).
    destruct (nullish (field data "entity_metadata")); [done|]. cbn [ebind negb andb].
    rewrite getProp_field.
    destruct (nullish (field (field data "entity_metadata") "rating")); [done|].
    cbn [ebind negb].
    by destruct (ToString (field (field data "entity_metadata") "premiere_date")).
Qed.

(** The body of the [try] block, step by step on the raw record. *)
Lemma transformBody_eval data :
  transformBody logo imageLoads data
  = if tileNested data "horizontal_tile" then
      match ToString (imagePath data "horizontal_tile") with
      | Throw e => Throw e
      | Ok hpath =>
          if tileNested data "vertical_tile" then
            match ToString (imagePath data "vertical_tile") with
            | Throw e => Throw e
            | Ok vpath =>
                let h := constructImageUrl hpath "800" "600" "jpeg" in
                let v := constructImageUrl vpath "600" "800" "jpeg" in
                if imageLoads h && imageLoads v then
                  if metadataNested data then
                    match ToString (field (field data "entity_metadata")
                                          "premiere_date") with
                    | Ok _ => Ok (Some (viewOf logo data h v))
                    | Throw e => Throw e
                    end
                  else Throw TypeError
                else Ok None
            end
          else Throw TypeError
      end
    else Throw TypeError.
Proof.
  unfold transformBody, validateImage. rewrite !tilePath_nested.
  destruct (tileNested data "horizontal_tile") eqn:Hh; [|done]. cbn [ebind].
  destruct (ToString (imagePath data "horizontal_tile")) as [hpath|e]; [|done].
  cbn [ebind].
  destruct (tileNested data "vertical_tile"); [|done]. cbn [ebind].
  destruct (ToString (imagePath data "vertical_tile")) as [vpath|e]; [|done].
  cbn [ebind]. cbv zeta.
  destruct (imageLoads (constructImageUrl hpath _ _ _)); [|done].
  destruct (imageLoads (constructImageUrl vpath _ _ _)); [|done].
  rewrite !constructImageUrl_nonEmpty. cbn [negb orb andb].
  destruct (tileNested_visuals _ _ Hh) as [Hd Hv].
  rewrite (buildView_eval _ _ _ Hd Hv).
  destruct (metadataNested data); [|done].
  by destruct (ToString (field (field data "entity_metadata") "premiere_date")).
Qed.

Lemma transformDataToView_returns data :
  returns (transformDataToView logo imageLoads data).
Proof. apply try_catch_returns. intros _. by eexists. Qed.





End ApiProperties.

(** ** The catalog client *)

Section TransportProperties.

Variables (API_HUB_URL PROXY logo : string).
Variable fetch : string -> Exc Response.
Variable imageLoads : string -> bool.

Lemma fetchCollections_returns : returns (fetchCollections API_HUB_URL fetch).
Proof. apply try_catch_returns. intros _. by eexists. Qed.

Lemma getCollections_returns : returns (getCollections API_HUB_URL fetch).
Proof. apply try_catch_returns. intros _. by eexists. Qed.

Lemma getViews_returns href : returns (getViews PROXY logo fetch imageLoads href).
Proof. apply try_catch_returns. intros _. by eexists. Qed.

Lemma fetchCollections_fails :
  transportFails fetch API_HUB_URL ->
  fetchCollections API_HUB_URL fetch = Ok (JArr []).
Proof.
  unfold fetchCollections. intros [[e He] | (r & Hr & Hok)].
  - by rewrite He.
  - rewrite Hr. simpl. by rewrite Hok.
Qed.

Lemma getCollections_fails :
  transportFails fetch API_HUB_URL -> getCollections API_HUB_URL fetch = Ok [].
Proof.
  intros H. unfold getCollections. by rewrite (fetchCollections_fails H).
Qed.

Lemma getViews_fails href h :
  ToString href = Ok h ->
  transportFails fetch (PROXY ++ h) ->
  getViews PROXY logo fetch imageLoads href = Ok [].
Proof.
  unfold getViews. intros -> [[e He] | (r & Hr & Hok)]; simpl.
  - by rewrite He.
  - rewrite Hr. simpl. by rewrite Hok.
Qed.

Lemma withState_push x xs c :
  withState (pushCollection x) (withState (appendCollections xs) c)
  = withState (appendCollections (xs ++ [x])) c.
Proof.
  destruct c as [[] ? ? ? ? ? ? ?]. unfold withState, pushCollection, appendCollections.
  simpl. by rewrite <- app_assoc.
Qed.

Lemma withState_append_nil c : withState (appendCollections []) c = c.
Proof.
  destruct c as [[] ? ? ? ? ? ? ?]. unfold withState, appendCollections.
  simpl. by rewrite app_nil_r.
Qed.

Lemma forOf_push xs acc c :
  forOf (fun collection =>
           let* views := liftE (getViews PROXY logo fetch imageLoads
                                         (Collection.href collection)) in
           modify (withState (pushCollection (withViews collection views))))
        xs (withState (appendCollections acc) c)
  = (Ok tt, withState (appendCollections
                         (acc ++ map (attached PROXY logo fetch imageLoads) xs)) c).
Proof.
  revert acc. induction xs as [|x xs IH]; intros acc; simpl.
  - by rewrite app_nil_r.
  - unfold bind at 1. unfold bind at 1. unfold liftE, modify.
    destruct (getViews_returns (Collection.href x)) as [views Hv].
    rewrite Hv, withState_push, IH. do 2 f_equal.
    rewrite <- app_assoc. simpl. unfold attached at 2. by rewrite Hv.
Qed.

Lemma fetchData_run c :
  exists fetched,
    getCollections API_HUB_URL fetch = Ok fetched /\
    fetchData API_HUB_URL PROXY logo fetch imageLoads c
    = (Ok tt, withState (appendCollections
                           (map (attached PROXY logo fetch imageLoads) fetched)) c).
Proof.
  destruct getCollections_returns as [fetched Hf]. exists fetched. split; [done|].
  unfold fetchData, tryM, bind, liftE. rewrite Hf.
  rewrite <- (withState_append_nil c) at 1. by rewrite forOf_push.
Qed.

(** C7. The two retrieval operations never throw; a transport failure makes
    each return the empty sequence; and [fetchData] keeps every fetched
    collection in order, a collection whose item fetch failed being present
    with an empty item list. *)
Theorem soft_fail_transport :
  (returns (fetchCollections API_HUB_URL fetch)
   /\ returns (getCollections API_HUB_URL fetch))
  /\ (forall href, returns (getViews PROXY logo fetch imageLoads href))
  /\ (transportFails fetch API_HUB_URL ->
        fetchCollections API_HUB_URL fetch = Ok (JArr []) /\
        getCollections API_HUB_URL fetch = Ok [])
  /\ (forall href h,
        ToString href = Ok h -> transportFails fetch (PROXY ++ h) ->
        getViews PROXY logo fetch imageLoads href = Ok [])
  /\ (forall c, exists fetched c',
        getCollections API_HUB_URL fetch = Ok fetched /\
        fetchData API_HUB_URL PROXY logo fetch imageLoads c = (Ok tt, c') /\
        collections (state c')
        = (collections (state c) ++ map (attached PROXY logo fetch imageLoads) fetched)%list /\
        forall i x h,
          fetched !! i = Some x ->
          ToString (Collection.href x) = Ok h ->
          transportFails fetch (PROXY ++ h) ->
          exists y, collections (state c') !! (List.length (collections (state c)) + i)%nat = Some y
                    /\ Collection.id y = Collection.id x
                    /\ Collection.views y = Some []).
Proof.
  split; [split; [apply fetchCollections_returns | apply getCollections_returns]|].
  split; [apply getViews_returns|].
  split; [intros H; split; [by apply fetchCollections_fails
                           | by apply getCollections_fails]|].
  split; [apply getViews_fails|].
  intros c. destruct (fetchData_run c) as (fetched & Hf & Hrun).
  eexists fetched, _. split; [done|]. split; [exact Hrun|].
  split; [by destruct c as [[] ? ? ? ? ? ? ?]|].
  intros i x h Hi Hh Hfail.
  exists (attached PROXY logo fetch imageLoads x). split; [|split].
  - destruct c as [[] ? ? ? ? ? ? ?]. simpl.
    rewrite lookup_app_r by lia.
    replace (_ + i - _)%nat with i by lia.
    by rewrite list_lookup_fmap, Hi.
  - done.
  - unfold attached. by rewrite (getViews_fails _ _ Hh Hfail).
Qed.

End TransportProperties.

(** ** Keyboard handling in any state *)

Section KeyboardProperties.

Variable dateToString : Date -> string.

Lemma handleKeyDown_gated c key :
  overlayOpen c -> key <> "Escape" ->
  handleKeyDown dateToString key c = (Ok tt, c).
Proof.
  intros [Hm Ho] Hk. unfold handleKeyDown, bind, gets. rewrite Hm. simpl.
  unfold attrIs. rewrite Ho. simpl.
  apply String.eqb_neq in Hk. by rewrite Hk.
Qed.

Lemma handleKeyDown_Escape c :
  mounted c = true ->
  handleKeyDown dateToString "Escape" c
  = (Ok tt, emit (GridOpacity "1")
              (withOpacity (Some "1")
                 (emit (ModalSetAttribute "is-open" "false")
                    (withModal (<["is-open" := "false"]> (modal c)) c)))).
Proof.
  intros Hm. unfold handleKeyDown, bind, gets. rewrite Hm. simpl.
  rewrite andb_false_r. reflexivity.
Qed.

(** C2. While the overlay is open every key but Escape, the four arrows
    and Enter among them, leaves the component as it is; Escape is
    processed: it closes the overlay and changes neither the cursor nor the
    grid. *)
Theorem overlay_gating (c : Comp) :
  overlayOpen c ->
  (forall key, In key ["ArrowUp"; "ArrowDown"; "ArrowLeft"; "ArrowRight"; "Enter"] ->
     handleKeyDown dateToString key c = (Ok tt, c))
  /\ (forall key, key <> "Escape" -> handleKeyDown dateToString key c = (Ok tt, c))
  /\ (exists c',
        handleKeyDown dateToString "Escape" c = (Ok tt, c') /\
        modal c' !! "is-open" = Some "false" /\
        ~ overlayOpen c' /\
        state c' = state c /\
        rows c' = rows c).
Proof.
  intros Hopen. split; [|split].
  - intros key Hin. apply handleKeyDown_gated; [done|].
    simpl in Hin. intuition (subst; discriminate).
  - intros key. by apply handleKeyDown_gated.
  - destruct Hopen as [Hm Ho]. eexists. split; [by apply handleKeyDown_Escape|].
    cbn [modal emit withOpacity withModal state rows modalSet].
    rewrite lookup_insert_eq. repeat split; try done.
    intros [_ H]. cbn [modal emit withOpacity withModal modalSet] in H.
    rewrite lookup_insert_eq in H. discriminate.
Qed.

End KeyboardProperties.

Section BoundaryProperties.

Variable dateToString : Date -> string.

Lemma updateSelectedRow_same c :
  updateSelectedRow (selectedRowIndex (state c)) c = (Ok tt, c).
Proof. unfold updateSelectedRow, bind, gets. by rewrite Z.eqb_refl. Qed.

Lemma updateSelectedColumn_same c :
  updateSelectedColumn (selectedColumnIndex (state c)) c = (Ok tt, c).
Proof. unfold updateSelectedColumn, bind, gets. by rewrite Z.eqb_refl. Qed.

Lemma handleKeyDown_boundary c key :
  atBoundary key c -> snd (handleKeyDown dateToString key c) = c.
Proof.
  intros (i & Hc & Hi). unfold handleKeyDown, bind, gets.
  cbv beta iota.
  destruct (mounted c); [|reflexivity]. cbn [negb].
  destruct (attrIs (modal c) "is-open" "true" && negb (String.eqb key "Escape"));
    [reflexivity|].
  unfold computedIndex, currentIndex in *.
  destruct (String.eqb key "ArrowUp").
  { simpl in Hi. injection Hc as <-. injection Hi as Hi.
    cbv beta. rewrite <- Hi. by rewrite updateSelectedRow_same. }
  destruct (String.eqb key "ArrowDown").
  { simpl in Hi. injection Hc as <-. injection Hi as Hi.
    unfold getCollectionLength, bind, gets. cbv beta iota.
    destruct (collectionsElement c); [|reflexivity].
    unfold ret. cbv beta iota. unfold lastRowIndex in Hi. rewrite <- Hi.
    by rewrite updateSelectedRow_same. }
  destruct (String.eqb key "ArrowLeft").
  { simpl in Hi. injection Hc as <-. injection Hi as Hi.
    cbv beta. rewrite <- Hi. by rewrite updateSelectedColumn_same. }
  destruct (String.eqb key "ArrowRight"); [|discriminate].
  simpl in Hi. injection Hc as <-. injection Hi as Hi.
  unfold getTilesLength, getCollectionElement, bind, gets. cbv beta iota.
  destruct (collectionsElement c); [|reflexivity]. cbv beta iota.
  unfold lastColumnIndexOfCurrentRow in Hi.
  destruct (at_ (rows c) (selectedRowIndex (state c))) as [r|]; [|reflexivity].
  unfold defined, ret. cbv beta iota. rewrite <- Hi.
  by rewrite updateSelectedColumn_same.
Qed.

Lemma dispatch_boundary c key :
  atBoundary key c -> dispatch dateToString c (KeyDown key) = c.
Proof.
  intros H. unfold dispatch. destruct (listening c); [|done].
  by apply handleKeyDown_boundary.
Qed.

Lemma run_boundary c key n :
  atBoundary key c -> run dateToString c (repeat (KeyDown key) n) = c.
Proof.
  intros H. induction n as [|n IH]; [done|].
  unfold run in *. simpl. by rewrite dispatch_boundary.
Qed.

Lemma boundary_left c :
  selectedColumnIndex (state c) = 0 -> atBoundary "ArrowLeft" c.
Proof. intros H. exists 0. unfold computedIndex, currentIndex. simpl. by rewrite H. Qed.

Lemma boundary_up c :
  selectedRowIndex (state c) = 0 -> atBoundary "ArrowUp" c.
Proof. intros H. exists 0. unfold computedIndex, currentIndex. simpl. by rewrite H. Qed.

Lemma boundary_right c :
  selectedColumnIndex (state c) = lastColumnIndexOfCurrentRow c ->
  atBoundary "ArrowRight" c.
Proof.
  intros H. exists (selectedColumnIndex (state c)).
  unfold computedIndex, currentIndex. simpl. split; [|done]. f_equal. lia.
Qed.

Lemma boundary_down c :
  selectedRowIndex (state c) = lastRowIndex c -> atBoundary "ArrowDown" c.
Proof.
  intros H. exists (selectedRowIndex (state c)).
  unfold computedIndex, currentIndex. simpl. split; [|done]. f_equal. lia.
Qed.

(** C4. When the target index a directional key computes is the current
    index, handling the key leaves the whole component as it is, the record
    of what it did to the document included (no attribute update, no
    re-render, no scroll adjustment), however many times the key is
    pressed. *)
Theorem boundary_noop (c : Comp) (key : string) :
  atBoundary key c ->
  snd (handleKeyDown dateToString key c) = c
  /\ forall n,
       run dateToString c (repeat (KeyDown key) n) = c
       /\ effects (run dateToString c (repeat (KeyDown key) n)) = effects c.
Proof.
  intros H. split; [by apply handleKeyDown_boundary|].
  intros n. by rewrite run_boundary.
Qed.

End BoundaryProperties.

(** ** Genre summaries *)

Lemma joinWith_strings sep (genres : list string) :
  joinWith ToString sep (map JStr genres) = Ok (String.concat sep genres).
Proof.
  induction genres as [|g [|g' rest] IH]; [done|done|].
  change (map JStr (g :: g' :: rest)) with (JStr g :: map JStr (g' :: rest)).
  change (joinWith ToString sep (JStr g :: map JStr (g' :: rest)))
    with (let? r := joinWith ToString sep (map JStr (g' :: rest)) in
          Ok (g ++ sep ++ r)).
  by rewrite IH.
Qed.

Section GenreProperties.

Variable dateToString : Date -> string.

Lemma renderModal_genre c tile genres :
  typedView tile genres ->
  selectedTile (state c) = Some tile ->
  exists c', renderModal dateToString c = (Ok tt, c') /\
             modal c' !! "genre" = Some (String.concat separator genres) /\
             modal c' !! "is-open" = Some "true".
Proof.
  intros ([t Ht] & [a Ha] & [d Hd] & [r Hr] & [ty Hty] & Hg) Hsel.
  unfold renderModal, bind, gets, defined, liftE, modalSetAttribute, modify, ret.
  cbv beta iota. rewrite Hsel. cbv beta iota.
  rewrite Ht, Ha, Hd, Hr, Hty, Hg. cbn [ToString join].
  rewrite joinWith_strings. cbv beta iota.
  eexists. split; [reflexivity|].
  cbn [modal emit withModal modalSet]. split.
  - by repeat (rewrite lookup_insert_ne by done); rewrite lookup_insert_eq.
  - by rewrite lookup_insert_eq.
Qed.

End GenreProperties.

Lemma string_app_assoc (s t u : string) : (s ++ t) ++ u = s ++ (t ++ u).
Proof.
  induction s as [|a s IH]; [reflexivity|].
  change (String a ((s ++ t) ++ u) = String a (s ++ (t ++ u))). by f_equal.
Qed.

Section MarkupAtItems.

Variable dateToString : Date -> string.

(** C10, at an item the claim fails on. The item is typed as the data
    model declares and has three genres, the first with a double quote in
    it. The markup [renderTile] returns for its tile has the join of the
    first two genres between the quotes of [genre], unescaped, so that the
    quote inside the genre closes the attribute: the tile's summary stops
    at it. The overlay gets the join of all three with [setAttribute], as
    it is. *)
Theorem genre_markup_unescaped :
  typedView Fixture.quotedGenreItem [Fixture.quotedGenre; "Drama"; "Kids"]
  /\ renderTileHTML dateToString true Fixture.quotedGenreItem false
     = Ok ("<hulu-tile "
           ++ newline ++ "        title=" ++ dquote ++ "Title a2" ++ dquote
           ++ newline ++ "        action-text=" ++ dquote ++ "Play" ++ dquote
           ++ newline ++ "        layout=" ++ dquote ++ "horizontal" ++ dquote
           ++ newline ++ "        image=" ++ dquote
                      ++ "a2/h&size=800x600&format=jpeg" ++ dquote
           ++ newline ++ "        is-selected=" ++ dquote ++ "false" ++ dquote
           ++ newline ++ "        date=" ++ dquote
                      ++ dateToString (View.date Fixture.quotedGenreItem) ++ dquote
           ++ newline ++ "        genre=" ++ dquote
                      ++ "Sci" ++ dquote ++ "Fi ● Drama" ++ dquote
           ++ newline ++ "        logo=" ++ dquote ++ "undefined" ++ dquote
           ++ ">" ++ newline ++ "      </hulu-tile>")
  /\ (forall c,
        selectedTile (state c) = Some Fixture.quotedGenreItem ->
        exists c',
          renderModal dateToString c = (Ok tt, c') /\
          modal c' !! "genre"
          = Some ("Sci" ++ dquote ++ "Fi ● Drama ● Kids")).
Proof.
  assert (Ht : typedView Fixture.quotedGenreItem
                 [Fixture.quotedGenre; "Drama"; "Kids"]).
  { repeat split; eexists; reflexivity. }
  split; [exact Ht|]. split.
  - unfold renderTileHTML, attributeLine.
    cbn [Fixture.quotedGenreItem View.title View.actionText View.genre
         View.horizontalImage View.branding ToString ebind].
    change (slice2_join _ separator) with (Ok ("Sci" ++ dquote ++ "Fi ● Drama")).
    cbn [ebind]. rewrite !string_app_assoc. reflexivity.
  - intros c Hsel.
    destruct (renderModal_genre dateToString c _ _ Ht Hsel)
      as (c' & Hrun & Hg & _).
    exists c'. split; [exact Hrun|]. rewrite Hg. reflexivity.
Qed.

(** C5, at an item the claim fails on. The headline of the item, which is
    typed as the data model declares, holds a double quote followed by
    [is-selected="true"]. The markup [renderTile] returns for its tile when
    it is not the one at the cursor, in either layout, has that text in the
    start tag ahead of the template's own [is-selected="false"]: the
    headline ends the [title] attribute after [x], and the tile reads as
    selected by the first of the two [is-selected] attributes. So each
    re-rendering that a toggle makes has this tile read as selected, where
    the cursor is or not, also after a key press had set its mark to
    [false]. *)
Theorem toggle_markup_injection :
  typedView Fixture.injectingItem ["Drama"]
  /\ renderTileHTML dateToString true Fixture.injectingItem false
     = Ok ("<hulu-tile "
           ++ newline ++ "        title=" ++ dquote ++ "x" ++ dquote
                      ++ " is-selected=" ++ dquote ++ "true" ++ dquote
           ++ newline ++ "        action-text=" ++ dquote ++ "Play" ++ dquote
           ++ newline ++ "        layout=" ++ dquote ++ "horizontal" ++ dquote
           ++ newline ++ "        image=" ++ dquote
                      ++ "a1/h&size=800x600&format=jpeg" ++ dquote
           ++ newline ++ "        is-selected=" ++ dquote ++ "false" ++ dquote
           ++ newline ++ "        date=" ++ dquote
                      ++ dateToString (View.date Fixture.injectingItem) ++ dquote
           ++ newline ++ "        genre=" ++ dquote ++ "Drama" ++ dquote
           ++ newline ++ "        logo=" ++ dquote ++ "undefined" ++ dquote
           ++ ">" ++ newline ++ "      </hulu-tile>")
  /\ renderTileHTML dateToString false Fixture.injectingItem false
     = Ok ("<hulu-tile "
           ++ newline ++ "        title=" ++ dquote ++ "x" ++ dquote
                      ++ " is-selected=" ++ dquote ++ "true" ++ dquote
           ++ newline ++ "        action-text=" ++ dquote ++ "Play" ++ dquote
           ++ newline ++ "        layout=" ++ dquote ++ "vertical" ++ dquote
           ++ newline ++ "        image=" ++ dquote
                      ++ "a1/v&size=600x800&format=jpeg" ++ dquote
           ++ newline ++ "        is-selected=" ++ dquote ++ "false" ++ dquote
           ++ newline ++ "        date=" ++ dquote
                      ++ dateToString (View.date Fixture.injectingItem) ++ dquote
           ++ newline ++ "        genre=" ++ dquote ++ "Drama" ++ dquote
           ++ newline ++ "        logo=" ++ dquote ++ "undefined" ++ dquote
           ++ ">" ++ newline ++ "      </hulu-tile>").
Proof.
  split; [repeat split; eexists; reflexivity|].
  split; unfold renderTileHTML, attributeLine;
    cbn [Fixture.injectingItem View.title View.actionText View.genre
         View.horizontalImage View.verticalImage View.branding ToString ebind];
    change (slice2_join _ separator) with (@Ok string "Drama");
    cbn [ebind]; rewrite !string_app_assoc; reflexivity.
Qed.

End MarkupAtItems.

(** ** The grid and its rendering *)

Lemma at_Some {A} (xs : list A) (i : Z) (x : A) :
  at_ xs i = Some x <-> 0 <= i /\ xs !! Z.to_nat i = Some x.
Proof.
  unfold at_. destruct (Z.ltb_spec i 0); split; try intros [? ?]; try done; lia.
Qed.

Lemma at_is_Some {A} (xs : list A) (i : Z) :
  is_Some (at_ xs i) <-> 0 <= i < Z.of_nat (List.length xs).
Proof.
  split.
  - intros [x Hx]. apply at_Some in Hx as [? Hx].
    apply lookup_lt_Some in Hx. lia.
  - intros [? ?]. destruct (lookup_lt_is_Some_2 xs (Z.to_nat i)) as [x Hx]; [lia|].
    exists x. by apply at_Some.
Qed.

Lemma at_of_nat {A} (xs : list A) (k : nat) : at_ xs (Z.of_nat k) = xs !! k.
Proof.
  unfold at_. destruct (Z.ltb_spec (Z.of_nat k) 0); [lia|]. by rewrite Nat2Z.id.
Qed.

Lemma at_alter {A} (f : A -> A) (xs : list A) (i j : Z) :
  0 <= i ->
  at_ (alter f (Z.to_nat i) xs) j = if Z.eqb i j then f <$> at_ xs j else at_ xs j.
Proof.
  intros Hi. unfold at_. destruct (Z.ltb_spec j 0).
  - by destruct (Z.eqb i j).
  - destruct (Z.eqb_spec i j) as [->|Hne].
    + apply list_lookup_alter_eq.
    + apply list_lookup_alter_ne. lia.
Qed.

Lemma mapEi_lookup {A B} (f : A -> nat -> Exc B) (i0 : nat) xs ys :
  mapEi f i0 xs = Ok ys ->
  List.length ys = List.length xs /\
  forall k x, xs !! k = Some x ->
              exists y, ys !! k = Some y /\ f x (i0 + k)%nat = Ok y.
Proof.
  revert i0 ys. induction xs as [|x xs IH]; intros i0 ys H; simpl in H.
  - injection H as <-. split; [done|]. intros k x Hk. by destruct k.
  - apply ebind_Ok in H as (y & Hy & H). apply ebind_Ok in H as (ys' & Hys & H).
    injection H as <-. destruct (IH _ _ Hys) as [Hlen Hk]. split; [simpl; lia|].
    intros [|k] x' Hx'; simpl in *.
    + injection Hx' as <-. exists y. by rewrite Nat.add_0_r.
    + destruct (Hk _ _ Hx') as (y' & ? & ?). exists y'.
      by rewrite <- Nat.add_succ_comm.
Qed.

Lemma mapEi_returns {A B} (f : A -> nat -> Exc B) (i0 : nat) xs :
  Forall (fun x => forall k, returns (f x k)) xs -> returns (mapEi f i0 xs).
Proof.
  intros H. revert i0. induction H as [|x xs Hx _ IH]; intros i0; simpl.
  - by eexists.
  - destruct (Hx i0) as [y ->]. destruct (IH (S i0)) as [ys ->]. by eexists.
Qed.

Lemma mapEi_Forall {A B} (f : A -> nat -> Exc B) (i0 : nat) xs ys :
  mapEi f i0 xs = Ok ys -> Forall (fun x => exists k, returns (f x k)) xs.
Proof.
  revert i0 ys. induction xs as [|x xs IH]; intros i0 ys H; simpl in H; [constructor|].
  apply ebind_Ok in H as (y & Hy & H). apply ebind_Ok in H as (ys' & Hys & H).
  constructor; [exists i0; by exists y | by eapply IH].
Qed.

Section RenderProperties.

Variable dateToString : Date -> string.

Lemma renderTile_selected horizontal tile selected e :
  renderTile dateToString horizontal tile selected = Ok e ->
  e !! "is-selected" = Some (boolToString selected).
Proof.
  unfold renderTile. intros H.
  apply ebind_Ok in H as (t & _ & H). apply ebind_Ok in H as (a & _ & H).
  apply ebind_Ok in H as (g & _ & H). injection H as <-.
  cbn [list_to_map foldr uncurry fst snd].
  by repeat (rewrite lookup_insert_ne by done); rewrite lookup_insert_eq.
Qed.

Lemma renderTile_returns horizontal tile selected :
  returns (renderTile dateToString horizontal tile selected) <-> tileRenders tile.
Proof.
  unfold renderTile, tileRenders, returns. split.
  - intros [e H].
    apply ebind_Ok in H as (t & Ht & H). apply ebind_Ok in H as (a & Ha & H).
    apply ebind_Ok in H as (g & Hg & H).
    repeat split; eexists; eassumption.
  - intros ([t ->] & [a ->] & [g ->]). simpl. by eexists.
Qed.

Lemma renderRow_returns s x k :
  returns (renderRow dateToString s x k) <-> rowRenders x.
Proof.
  unfold renderRow, rowRenders. split.
  - intros [r H]. apply ebind_Ok in H as (t & Ht & H).
    apply ebind_Ok in H as (views & Hv & H). apply ebind_Ok in H as (tiles & Htiles & H).
    split; [by exists t|].
    destruct (Collection.views x) as [vs|]; [|discriminate]. injection Hv as ->.
    exists views. split; [done|].
    apply mapEi_Forall in Htiles. eapply Forall_impl; [exact Htiles|].
    intros v [j Hj]. by apply renderTile_returns in Hj.
  - intros ([t ->] & views & -> & Hviews). simpl.
    destruct (mapEi_returns
                (fun tile columnIndex =>
                   renderTile dateToString (isHorizontal s) tile
                     (Z.eqb (Z.of_nat columnIndex) (selectedColumnIndex s)
                      && Z.eqb (Z.of_nat k) (selectedRowIndex s)))
                0%nat views) as [tiles Ht].
    { eapply Forall_impl; [exact Hviews|]. intros v Hv j.
      by apply renderTile_returns. }
    rewrite Ht. simpl. by eexists.
Qed.

Lemma render_returns s cs :
  Forall rowRenders cs -> returns (mapEi (renderRow dateToString s) 0%nat cs).
Proof.
  intros H. apply mapEi_returns. eapply Forall_impl; [exact H|].
  intros x Hx k. by apply renderRow_returns.
Qed.

Lemma render_renders s cs rs :
  mapEi (renderRow dateToString s) 0%nat cs = Ok rs -> Forall rowRenders cs.
Proof.
  intros H. apply mapEi_Forall in H. eapply Forall_impl; [exact H|].
  intros x [k Hk]. by apply renderRow_returns in Hk.
Qed.

Lemma render_shape s cs rs :
  mapEi (renderRow dateToString s) 0%nat cs = Ok rs -> Forall2 sameShape cs rs.
Proof.
  intros H. apply mapEi_lookup in H as [Hlen Hk].
  apply Forall2_same_length_lookup. split; [done|].
  intros k x r Hx Hr. destruct (Hk _ _ Hx) as (r' & Hr' & Hrow).
  assert (r' = r) as -> by congruence. unfold renderRow in Hrow.
  apply ebind_Ok in Hrow as (t & _ & Hrow).
  apply ebind_Ok in Hrow as (views & Hv & Hrow).
  apply ebind_Ok in Hrow as (tiles & Htiles & Hrow). injection Hrow as <-.
  destruct (Collection.views x) as [vs|] eqn:Hviews; [|discriminate].
  injection Hv as ->.
  exists views. split; [done|]. simpl. by apply mapEi_lookup in Htiles as [? _].
Qed.

Lemma render_marked s cs rs :
  mapEi (renderRow dateToString s) 0%nat cs = Ok rs ->
  marked (selectedRowIndex s) (selectedColumnIndex s) rs.
Proof.
  intros H i j e He. apply mapEi_lookup in H as [Hlen Hk].
  unfold tileAtZ in He. destruct (at_ rs i) as [r|] eqn:Hr; [|discriminate].
  apply at_Some in Hr as [Hi Hr]. apply at_Some in He as [Hj He].
  destruct (lookup_lt_is_Some_2 cs (Z.to_nat i)) as [x Hx].
  { apply lookup_lt_Some in Hr. lia. }
  destruct (Hk _ _ Hx) as (r' & Hr' & Hrow).
  assert (r' = r) as -> by congruence. unfold renderRow in Hrow.
  apply ebind_Ok in Hrow as (t & _ & Hrow).
  apply ebind_Ok in Hrow as (views & _ & Hrow).
  apply ebind_Ok in Hrow as (tiles & Htiles & Hrow). injection Hrow as <-.
  simpl in He. apply mapEi_lookup in Htiles as [Hlen' Hk'].
  destruct (lookup_lt_is_Some_2 views (Z.to_nat j)) as [v Hv].
  { apply lookup_lt_Some in He. lia. }
  destruct (Hk' _ _ Hv) as (e' & He' & Htile).
  assert (e' = e) as -> by congruence.
  apply renderTile_selected in Htile. rewrite Htile.
  simpl Nat.add. by rewrite !Z2Nat.id.
Qed.

End RenderProperties.

(** ** Selecting and deselecting tiles *)

Lemma tileAtZ_Some rs row col e :
  tileAtZ rs row col = Some e -> 0 <= row /\ 0 <= col.
Proof.
  unfold tileAtZ. destruct (at_ rs row) as [r|] eqn:Hr; [|discriminate].
  intros He. apply at_Some in Hr as [? _]. by apply at_Some in He as [? _].
Qed.

Lemma tileAtZ_alter rs row col name value i j :
  0 <= row -> 0 <= col ->
  tileAtZ (alter (setChildAttribute (Z.to_nat col) name value) (Z.to_nat row) rs) i j
  = if Z.eqb row i && Z.eqb col j
    then insert name value <$> tileAtZ rs i j
    else tileAtZ rs i j.
Proof.
  intros Hrow Hcol. unfold tileAtZ. rewrite at_alter by done.
  destruct (Z.eqb row i); [|done]. simpl.
  destruct (at_ rs i) as [r|]; simpl; [|by destruct (Z.eqb col j)].
  by rewrite at_alter.
Qed.

Lemma rowsWith_length row col name value rs :
  List.length (rowsWith row col name value rs) = List.length rs.
Proof.
  unfold rowsWith. destruct (tileAtZ rs row col); [|done]. apply length_alter.
Qed.

Lemma rowsWith_shape row col name value cs rs :
  Forall2 sameShape cs rs -> Forall2 sameShape cs (rowsWith row col name value rs).
Proof.
  intros H. unfold rowsWith. destruct (tileAtZ rs row col); [|done].
  apply Forall2_alter_r; [done|].
  intros x r _ _ (views & Hv & Hlen). exists views. split; [done|].
  simpl. by rewrite length_alter.
Qed.

Lemma rowsWith_lookup row col name value rs i j :
  tileAtZ (rowsWith row col name value rs) i j
  = if Z.eqb row i && Z.eqb col j
    then insert name value <$> tileAtZ rs i j
    else tileAtZ rs i j.
Proof.
  unfold rowsWith. destruct (tileAtZ rs row col) as [e|] eqn:He.
  - apply tileAtZ_Some in He as [? ?]. by apply tileAtZ_alter.
  - destruct (Z.eqb_spec row i) as [->|]; [|done].
    destruct (Z.eqb_spec col j) as [->|]; [|done]. simpl. by rewrite He.
Qed.

Lemma marked_deselect row col rs :
  marked row col rs -> unmarked (rowsWith row col "is-selected" "false" rs).
Proof.
  intros H i j e. rewrite rowsWith_lookup.
  destruct (Z.eqb_spec row i) as [->|Hi]; simpl.
  - destruct (Z.eqb_spec col j) as [->|Hj].
    + destruct (tileAtZ rs i j); cbn [fmap option_fmap option_map];
      [|discriminate]. intros Heq.
      apply (inj Some) in Heq. subst e.
      apply lookup_insert_eq.
    + intros He. rewrite (H _ _ _ He).
      destruct (Z.eqb_spec j col); [congruence|done].
  - intros He. rewrite (H _ _ _ He).
    destruct (Z.eqb_spec i row); [congruence|]. by rewrite andb_false_r.
Qed.

Lemma marked_select row col rs :
  unmarked rs -> marked row col (rowsWith row col "is-selected" "true" rs).
Proof.
  intros H i j e. rewrite rowsWith_lookup.
  rewrite (Z.eqb_sym j col), (Z.eqb_sym i row).
  destruct (Z.eqb row i), (Z.eqb col j); cbn [andb]; try apply H.
  destruct (tileAtZ rs i j); cbn [fmap option_fmap option_map]; [|discriminate].
  intros Heq. apply (inj Some) in Heq. subst e. apply lookup_insert_eq.
Qed.

Lemma shape_tile_view cs rs row col :
  Forall2 sameShape cs rs ->
  is_Some (tileAtZ rs row col) <-> is_Some (viewAt cs row col).
Proof.
  intros H. unfold tileAtZ, viewAt. unfold at_ at 1 3.
  destruct (Z.ltb_spec row 0); [done|].
  destruct (rs !! Z.to_nat row) as [r|] eqn:Hr.
  - destruct (Forall2_lookup_r _ _ _ _ _ H Hr) as (x & -> & views & -> & Hlen).
    rewrite !at_is_Some. lia.
  - destruct (cs !! Z.to_nat row) as [x|] eqn:Hx; [|done].
    destruct (Forall2_lookup_l _ _ _ _ _ H Hx) as (r & Hr' & _). congruence.
Qed.

Lemma shape_itemCount cs rs row r :
  Forall2 sameShape cs rs -> at_ rs row = Some r ->
  itemCount cs row = Z.of_nat (List.length (children r)).
Proof.
  intros H Hr. unfold itemCount. apply at_Some in Hr as [Hrow Hr].
  destruct (Forall2_lookup_r _ _ _ _ _ H Hr) as (x & Hx & views & Hv & Hlen).
  assert (at_ cs row = Some x) as -> by (by apply at_Some).
  rewrite Hv. lia.
Qed.

Lemma tileSetAttribute_run row col name value c :
  exists c',
    tileSetAttribute row col name value c = (Ok tt, c') /\
    state c' = state c /\
    rows c' = alter (setChildAttribute col name value) row (rows c) /\
    sameFrame c c'.
Proof.
  unfold tileSetAttribute.
  destruct (match match tileAt (rows c) row col with
                  | Some e => e !! name
                  | None => None
                  end with
            | Some s => String.eqb s value
            | None => false
            end).
  - eexists. split; [reflexivity|]. by repeat split.
  - destruct (String.eqb name "is-selected" && String.eqb value "true");
      eexists; (split; [reflexivity|]); by repeat split.
Qed.

Lemma updateSelectedTile_run col row sel c :
  collectionsElement c = true ->
  Forall2 sameShape (collections (state c)) (rows c) ->
  0 <= row < Z.of_nat (List.length (rows c)) ->
  exists c',
    updateSelectedTile col row sel c = (Ok tt, c') /\
    sameFrame c c' /\
    selectedRowIndex (state c') = selectedRowIndex (state c) /\
    selectedColumnIndex (state c') = selectedColumnIndex (state c) /\
    rows c' = rowsWith row col "is-selected" (boolToString sel) (rows c) /\
    selectedTile (state c')
    = match viewAt (collections (state c)) row col with
      | Some v => Some v
      | None => selectedTile (state c)
      end.
Proof.
  intros Hb Hshape Hrow.
  destruct (proj2 (at_is_Some (rows c) row) Hrow) as [r Hr].
  unfold updateSelectedTile, getCollectionElement, bind, gets. cbv beta iota.
  rewrite Hb. cbv beta iota. rewrite Hr. unfold defined at 1, ret. cbv beta iota.
  pose proof (shape_tile_view _ _ row col Hshape) as Hiff.
  unfold rowsWith. unfold tileAtZ in Hiff |- *. rewrite Hr in Hiff |- *.
  destruct (at_ (children r) col) as [e|] eqn:He.
  - destruct (proj1 Hiff ltac:(by eexists)) as [v Hv]. rewrite Hv.
    destruct (tileSetAttribute_run (Z.to_nat row) (Z.to_nat col) "is-selected"
                (boolToString sel) c) as (c1 & -> & Hst & Hrows & Hframe).
    cbv beta iota. rewrite Hst.
    unfold viewAt in Hv.
    destruct (at_ (collections (state c)) row) as [x|] eqn:Hx; [|discriminate].
    destruct (Collection.views x) as [views|] eqn:Hviews; [|discriminate].
    cbv beta iota delta [defined ret]. rewrite Hviews. unfold modify.
    eexists. split; [reflexivity|]. simpl. rewrite Hst.
    destruct Hframe as (? & ? & ? & ? & ? & ? & ?).
    repeat split; first [done | congruence].
  - exists c. split; [reflexivity|].
    destruct (viewAt (collections (state c)) row col) as [v|] eqn:Hv.
    { destruct (proj2 Hiff ltac:(by eexists)) as [? ?]. discriminate. }
    by repeat split.
Qed.

(** ** Moving the cursor keeps the invariant *)

Lemma sameFrame_refl c : sameFrame c c.
Proof. by repeat split. Qed.

Lemma sameFrame_trans c1 c2 c3 : sameFrame c1 c2 -> sameFrame c2 c3 -> sameFrame c1 c3.
Proof.
  intros (? & ? & ? & ? & ? & ? & ?) (? & ? & ? & ? & ? & ? & ?).
  repeat split; congruence.
Qed.

Lemma Inv_rows_length c :
  Inv c -> List.length (rows c) = List.length (collections (state c)).
Proof. intros H. symmetry. eapply Forall2_length, inv_shape, H. Qed.

Lemma Inv_selectedTile c :
  Inv c ->
  match cursorItem c with
  | Some v => Some v
  | None => selectedTile (state c)
  end = selectedTile (state c).
Proof.
  intros H. destruct (cursorItem c) as [v|] eqn:Hv; [|done].
  symmetry. by apply inv_tile.
Qed.

Lemma updateSelectedRow_run c new :
  Inv c -> collectionsElement c = true ->
  0 <= new < Z.of_nat (List.length (collections (state c))) ->
  exists c',
    updateSelectedRow new c = (Ok tt, c') /\
    Inv c' /\ sameFrame c c' /\
    selectedRowIndex (state c') = new /\
    selectedColumnIndex (state c') = selectedColumnIndex (state c) /\
    selectedTile (state c')
    = match viewAt (collections (state c)) new (selectedColumnIndex (state c)) with
      | Some v => Some v
      | None => selectedTile (state c)
      end.
Proof.
  intros HI Hb Hnew. unfold updateSelectedRow, bind, gets. cbv beta iota.
  destruct (Z.eqb_spec new (selectedRowIndex (state c))) as [->|Hne].
  { exists c. split; [reflexivity|]. split; [done|]. split; [apply sameFrame_refl|].
    repeat split. symmetry. by apply Inv_selectedTile. }
  pose proof (Inv_rows_length c HI) as Hlen.
  pose proof (inv_row c HI) as Hrow.
  destruct (updateSelectedTile_run (selectedColumnIndex (state c))
              (selectedRowIndex (state c)) false c Hb (inv_shape c HI))
    as (c1 & -> & Hf1 & Hr1 & Hc1 & Hrows1 & Ht1); [lia|].
  cbv beta iota.
  assert (Hshape1 : Forall2 sameShape (collections (state c1)) (rows c1)).
  { destruct Hf1 as (-> & _). rewrite Hrows1. apply rowsWith_shape, inv_shape, HI. }
  destruct (updateSelectedTile_run (selectedColumnIndex (state c)) new true c1)
    as (c2 & -> & Hf2 & Hr2 & Hc2 & Hrows2 & Ht2).
  { destruct Hf1 as (_ & _ & _ & _ & _ & -> & _). done. }
  { done. }
  { rewrite Hrows1, rowsWith_length. lia. }
  cbv beta iota. unfold modify.
  pose proof (sameFrame_trans _ _ _ Hf1 Hf2) as Hf.
  destruct Hf as (Hcs & Hh & Hm & Hmod & Hop & Hce & Hl).
  eexists. split; [reflexivity|].
  assert (Htile : selectedTile (state c2)
                  = match viewAt (collections (state c)) new
                            (selectedColumnIndex (state c)) with
                    | Some v => Some v
                    | None => selectedTile (state c)
                    end).
  { rewrite Ht2. destruct Hf1 as (-> & _).
    destruct (viewAt (collections (state c)) new (selectedColumnIndex (state c)));
      [done|]. rewrite Ht1. by apply Inv_selectedTile. }
  split; [|split; [by repeat split|simpl; by rewrite Hc2, Hc1]].
  constructor; simpl; rewrite ?Hcs.
  - by rewrite Hm; apply inv_mounted.
  - apply inv_renders, HI.
  - rewrite Hrows2. apply rowsWith_shape.
    destruct Hf1 as (Hcs1 & _). by rewrite <- Hcs1.
  - rewrite Hc2, Hc1, Hrows2, Hrows1.
    apply marked_select, marked_deselect, inv_marked, HI.
  - left. congruence.
  - lia.
  - unfold cursorItem. simpl. rewrite Hcs, Hc2, Hc1. intros v Hv.
    by rewrite Htile, Hv.
Qed.

Lemma updateSelectedColumn_run c new :
  Inv c -> collectionsElement c = true -> collections (state c) <> [] ->
  exists c',
    updateSelectedColumn new c = (Ok tt, c') /\
    Inv c' /\ sameFrame c c' /\
    selectedRowIndex (state c') = selectedRowIndex (state c) /\
    selectedColumnIndex (state c') = new /\
    selectedTile (state c')
    = match viewAt (collections (state c)) (selectedRowIndex (state c)) new with
      | Some v => Some v
      | None => selectedTile (state c)
      end.
Proof.
  intros HI Hb Hne. unfold updateSelectedColumn, bind, gets. cbv beta iota.
  destruct (Z.eqb_spec new (selectedColumnIndex (state c))) as [->|Hnew].
  { exists c. split; [reflexivity|]. split; [done|]. split; [apply sameFrame_refl|].
    repeat split. symmetry. by apply Inv_selectedTile. }
  pose proof (Inv_rows_length c HI) as Hlen.
  pose proof (inv_row c HI) as Hrow.
  assert (0 < List.length (collections (state c)))%nat as Hpos.
  { destruct (collections (state c)); [done|simpl; lia]. }
  destruct (updateSelectedTile_run (selectedColumnIndex (state c))
              (selectedRowIndex (state c)) false c Hb (inv_shape c HI))
    as (c1 & -> & Hf1 & Hr1 & Hc1 & Hrows1 & Ht1); [lia|].
  cbv beta iota.
  assert (Hshape1 : Forall2 sameShape (collections (state c1)) (rows c1)).
  { destruct Hf1 as (-> & _). rewrite Hrows1. apply rowsWith_shape, inv_shape, HI. }
  destruct (updateSelectedTile_run new (selectedRowIndex (state c)) true c1)
    as (c2 & -> & Hf2 & Hr2 & Hc2 & Hrows2 & Ht2).
  { destruct Hf1 as (_ & _ & _ & _ & _ & -> & _). done. }
  { done. }
  { rewrite Hrows1, rowsWith_length. lia. }
  cbv beta iota. unfold modify.
  pose proof (sameFrame_trans _ _ _ Hf1 Hf2) as Hf.
  destruct Hf as (Hcs & Hh & Hm & Hmod & Hop & Hce & Hl).
  eexists. split; [reflexivity|].
  assert (Htile : selectedTile (state c2)
                  = match viewAt (collections (state c))
                            (selectedRowIndex (state c)) new with
                    | Some v => Some v
                    | None => selectedTile (state c)
                    end).
  { rewrite Ht2. destruct Hf1 as (-> & _).
    destruct (viewAt (collections (state c)) (selectedRowIndex (state c)) new);
      [done|]. rewrite Ht1. by apply Inv_selectedTile. }
  split; [|split; [by repeat split|simpl; by rewrite Hr2, Hr1]].
  constructor; simpl; rewrite ?Hcs.
  - by rewrite Hm; apply inv_mounted.
  - apply inv_renders, HI.
  - rewrite Hrows2. apply rowsWith_shape.
    destruct Hf1 as (Hcs1 & _). by rewrite <- Hcs1.
  - rewrite Hr2, Hr1, Hrows2, Hrows1.
    apply marked_select, marked_deselect, inv_marked, HI.
  - left. congruence.
  - rewrite Hr2, Hr1. lia.
  - unfold cursorItem. simpl. rewrite Hcs, Hr2, Hr1. intros v Hv.
    by rewrite Htile, Hv.
Qed.

(** ** Handlers that touch only the overlay *)

Lemma sameCore_refl c : sameCore c c.
Proof. by repeat split. Qed.

Lemma sameCore_trans c1 c2 c3 : sameCore c1 c2 -> sameCore c2 c3 -> sameCore c1 c3.
Proof.
  intros (? & ? & ? & ? & ?) (? & ? & ? & ? & ?). repeat split; congruence.
Qed.

Lemma keepsCore_bind {A B} (m : M A) (k : A -> M B) :
  keepsCore m -> (forall a, keepsCore (k a)) -> keepsCore (bind m k).
Proof.
  intros Hm Hk c. unfold bind. specialize (Hm c).
  destruct (m c) as [[a|e] c1]; simpl in *; [|done].
  eapply sameCore_trans; [exact Hm | apply Hk].
Qed.

Lemma keepsCore_ret {A} (a : A) : keepsCore (ret a).
Proof. intros c. apply sameCore_refl. Qed.

Lemma keepsCore_throw {A} (e : exn) : keepsCore (@throw A e).
Proof. intros c. apply sameCore_refl. Qed.

Lemma keepsCore_liftE {A} (m : Exc A) : keepsCore (liftE m).
Proof. intros c. apply sameCore_refl. Qed.

Lemma keepsCore_gets {A} (f : Comp -> A) : keepsCore (gets f).
Proof. intros c. apply sameCore_refl. Qed.

Lemma keepsCore_defined {A} (x : option A) : keepsCore (defined x).
Proof. destruct x; [apply keepsCore_ret | apply keepsCore_throw]. Qed.

Lemma keepsCore_modalSetAttribute name value :
  keepsCore (modalSetAttribute name value).
Proof. intros c. by repeat split. Qed.

Lemma keepsCore_setOpacity value : keepsCore (setOpacity value).
Proof. intros c. by repeat split. Qed.

Create HintDb core_db.

#[local] Hint Resolve keepsCore_ret keepsCore_throw keepsCore_liftE keepsCore_gets
  keepsCore_defined keepsCore_modalSetAttribute keepsCore_setOpacity : core_db.

Ltac keeps_core :=
  repeat first [ apply keepsCore_bind; [|intros ?] | solve [auto with core_db] ].

Lemma Inv_sameCore c c' : Inv c -> sameCore c c' -> Inv c'.
Proof.
  intros [H1 H2 H3 H4 H5 H6 H7] (Hs & Hr & Hm & Hce & Hl).
  constructor; unfold cursorItem in *; rewrite ?Hs, ?Hr, ?Hm, ?Hce; done.
Qed.

Section HandlerProperties.

Variable dateToString : Date -> string.

Lemma keepsCore_renderModal : keepsCore (renderModal dateToString).
Proof. unfold renderModal. keeps_core. Qed.

(** *** With no row in the document the arrows do nothing *)

Lemma getCollectionElement_empty c i :
  rows c = [] -> exists e, getCollectionElement i c = (Throw e, c).
Proof.
  intros Hr. unfold getCollectionElement, bind, gets. cbv beta iota.
  destruct (collectionsElement c); cbv beta iota; [|by eexists].
  rewrite Hr. unfold at_. destruct (Z.ltb i 0); by eexists.
Qed.

Lemma updateSelectedTile_empty c col row sel :
  rows c = [] -> exists e, updateSelectedTile col row sel c = (Throw e, c).
Proof.
  intros Hr. unfold updateSelectedTile, bind.
  destruct (getCollectionElement_empty c row Hr) as [e ->]. by exists e.
Qed.

Lemma updateSelectedRow_empty c new :
  rows c = [] -> snd (updateSelectedRow new c) = c.
Proof.
  intros Hr. unfold updateSelectedRow, bind, gets. cbv beta iota.
  destruct (Z.eqb new (selectedRowIndex (state c))); [reflexivity|].
  by destruct (updateSelectedTile_empty c (selectedColumnIndex (state c))
                 (selectedRowIndex (state c)) false Hr) as [e ->].
Qed.

Lemma updateSelectedColumn_empty c new :
  rows c = [] -> snd (updateSelectedColumn new c) = c.
Proof.
  intros Hr. unfold updateSelectedColumn, bind, gets. cbv beta iota.
  destruct (Z.eqb new (selectedColumnIndex (state c))); [reflexivity|].
  by destruct (updateSelectedTile_empty c (selectedColumnIndex (state c))
                 (selectedRowIndex (state c)) false Hr) as [e ->].
Qed.

Lemma handleKeyDown_arrow_empty c key :
  rows c = [] ->
  In key ["ArrowUp"; "ArrowDown"; "ArrowLeft"; "ArrowRight"] ->
  snd (handleKeyDown dateToString key c) = c.
Proof.
  intros Hr Hkey. unfold handleKeyDown, bind, gets. cbv beta iota.
  destruct (mounted c); [|reflexivity]. cbn [negb].
  destruct (attrIs (modal c) "is-open" "true" && negb (String.eqb key "Escape"));
    [reflexivity|].
  simpl in Hkey. destruct Hkey as [<-|[<-|[<-|[<-|[]]]]]; cbn [String.eqb Ascii.eqb Bool.eqb];
    cbv beta iota.
  - by apply updateSelectedRow_empty.
  - unfold getCollectionLength, bind, gets. cbv beta iota.
    destruct (collectionsElement c); [|reflexivity]. unfold ret. cbv beta iota.
    by apply updateSelectedRow_empty.
  - by apply updateSelectedColumn_empty.
  - unfold getTilesLength, bind.
    by destruct (getCollectionElement_empty c (selectedRowIndex (state c)) Hr)
      as [e ->].
Qed.

End HandlerProperties.

(** ** The four arrows on a non-empty catalog, overlay closed *)

Section ArrowProperties.

Variable dateToString : Date -> string.

Lemma handleKeyDown_open c key :
  overlayClosed c ->
  handleKeyDown dateToString key c
  = (if String.eqb key "ArrowUp" then
       updateSelectedRow (Z.max 0 (selectedRowIndex (state c) - 1))
     else if String.eqb key "ArrowDown" then
       let* len := getCollectionLength in
       updateSelectedRow (Z.min (selectedRowIndex (state c) + 1) (len - 1))
     else if String.eqb key "ArrowLeft" then
       updateSelectedColumn (Z.max 0 (selectedColumnIndex (state c) - 1))
     else if String.eqb key "ArrowRight" then
       let* tilesLength := getTilesLength (selectedRowIndex (state c)) in
       let* col := gets (fun c => selectedColumnIndex (state c)) in
       updateSelectedColumn (Z.min (col + 1) (tilesLength - 1))
     else if String.eqb key "Enter" then
       renderModal dateToString ;; setOpacity "0.5"
     else if String.eqb key "Escape" then
       modalSetAttribute "is-open" "false" ;; setOpacity "1"
     else ret tt) c.
Proof.
  intros [Hm Hc]. unfold handleKeyDown. unfold bind at 1, gets at 1.
  rewrite Hm. cbn [negb]. unfold bind at 1, gets at 1. rewrite Hc. cbn [andb].
  repeat (match goal with |- context [String.eqb key ?s] =>
            destruct (String.eqb key s); [reflexivity|] end).
  reflexivity.
Qed.

Lemma Inv_ready c :
  Inv c -> collections (state c) <> [] ->
  collectionsElement c = true /\
  (0 < List.length (collections (state c)))%nat /\
  0 <= selectedRowIndex (state c) < Z.of_nat (List.length (collections (state c))).
Proof.
  intros HI Hne. destruct (inv_bound c HI) as [Hb|]; [|done].
  pose proof (inv_row c HI).
  destruct (collections (state c)); [done|]. simpl List.length in *.
  repeat split; first [done | lia].
Qed.

Lemma ArrowUp_run c :
  Inv c -> collections (state c) <> [] -> overlayClosed c ->
  exists c',
    handleKeyDown dateToString "ArrowUp" c = (Ok tt, c') /\
    Inv c' /\ sameFrame c c' /\
    selectedRowIndex (state c') = Z.max 0 (selectedRowIndex (state c) - 1) /\
    selectedColumnIndex (state c') = selectedColumnIndex (state c) /\
    selectedTile (state c')
    = match viewAt (collections (state c))
              (Z.max 0 (selectedRowIndex (state c) - 1))
              (selectedColumnIndex (state c)) with
      | Some v => Some v
      | None => selectedTile (state c)
      end.
Proof.
  intros HI Hne Hc. rewrite (handleKeyDown_open c _ Hc). cbn [String.eqb Ascii.eqb Bool.eqb].
  destruct (Inv_ready c HI Hne) as (Hb & Hpos & Hrow).
  apply updateSelectedRow_run; [done|done|lia].
Qed.

Lemma ArrowDown_run c :
  Inv c -> collections (state c) <> [] -> overlayClosed c ->
  exists c',
    handleKeyDown dateToString "ArrowDown" c = (Ok tt, c') /\
    Inv c' /\ sameFrame c c' /\
    selectedRowIndex (state c')
    = Z.min (selectedRowIndex (state c) + 1)
            (Z.of_nat (List.length (collections (state c))) - 1) /\
    selectedColumnIndex (state c') = selectedColumnIndex (state c) /\
    selectedTile (state c')
    = match viewAt (collections (state c))
              (Z.min (selectedRowIndex (state c) + 1)
                     (Z.of_nat (List.length (collections (state c))) - 1))
              (selectedColumnIndex (state c)) with
      | Some v => Some v
      | None => selectedTile (state c)
      end.
Proof.
  intros HI Hne Hc. rewrite (handleKeyDown_open c _ Hc). cbn [String.eqb Ascii.eqb Bool.eqb].
  destruct (Inv_ready c HI Hne) as (Hb & Hpos & Hrow).
  unfold bind at 1, getCollectionLength, bind, gets. cbv beta iota.
  rewrite Hb. unfold ret. cbv beta iota. rewrite (Inv_rows_length c HI).
  apply updateSelectedRow_run; [done|done|lia].
Qed.

Lemma ArrowLeft_run c :
  Inv c -> collections (state c) <> [] -> overlayClosed c ->
  exists c',
    handleKeyDown dateToString "ArrowLeft" c = (Ok tt, c') /\
    Inv c' /\ sameFrame c c' /\
    selectedRowIndex (state c') = selectedRowIndex (state c) /\
    selectedColumnIndex (state c') = Z.max 0 (selectedColumnIndex (state c) - 1) /\
    selectedTile (state c')
    = match viewAt (collections (state c)) (selectedRowIndex (state c))
              (Z.max 0 (selectedColumnIndex (state c) - 1)) with
      | Some v => Some v
      | None => selectedTile (state c)
      end.
Proof.
  intros HI Hne Hc. rewrite (handleKeyDown_open c _ Hc). cbn [String.eqb Ascii.eqb Bool.eqb].
  destruct (Inv_ready c HI Hne) as (Hb & Hpos & Hrow).
  by apply updateSelectedColumn_run.
Qed.

Lemma ArrowRight_run c :
  Inv c -> collections (state c) <> [] -> overlayClosed c ->
  exists c',
    handleKeyDown dateToString "ArrowRight" c = (Ok tt, c') /\
    Inv c' /\ sameFrame c c' /\
    selectedRowIndex (state c') = selectedRowIndex (state c) /\
    selectedColumnIndex (state c')
    = Z.min (selectedColumnIndex (state c) + 1)
            (itemCount (collections (state c)) (selectedRowIndex (state c)) - 1) /\
    selectedTile (state c')
    = match viewAt (collections (state c)) (selectedRowIndex (state c))
              (Z.min (selectedColumnIndex (state c) + 1)
                     (itemCount (collections (state c))
                                (selectedRowIndex (state c)) - 1)) with
      | Some v => Some v
      | None => selectedTile (state c)
      end.
Proof.
  intros HI Hne Hc. rewrite (handleKeyDown_open c _ Hc). cbn [String.eqb Ascii.eqb Bool.eqb].
  destruct (Inv_ready c HI Hne) as (Hb & Hpos & Hrow).
  destruct (proj2 (at_is_Some (rows c) (selectedRowIndex (state c)))) as [r Hr].
  { rewrite (Inv_rows_length c HI). lia. }
  unfold bind at 1, getTilesLength, getCollectionElement, bind, gets.
  cbv beta iota. rewrite Hb. cbv beta iota. rewrite Hr.
  unfold defined, ret. cbv beta iota.
  rewrite <- (shape_itemCount _ _ _ _ (inv_shape c HI) Hr).
  by apply updateSelectedColumn_run.
Qed.

(** *** Every key keeps the invariant *)

Lemma handleKeyDown_Inv c key :
  Inv c ->
  Inv (snd (handleKeyDown dateToString key c)) /\
  collections (state (snd (handleKeyDown dateToString key c)))
  = collections (state c).
Proof.
  intros HI.
  destruct (attrIs (modal c) "is-open" "true") eqn:Hopen.
  { destruct (String.eqb_spec key "Escape") as [->|Hk].
    - rewrite handleKeyDown_Escape by apply inv_mounted, HI.
      split; [|done]. eapply Inv_sameCore; [exact HI|]. by repeat split.
    - rewrite handleKeyDown_gated; [done| |done]. split; [apply inv_mounted, HI|].
      unfold attrIs in Hopen. destruct (modal c !! "is-open") as [s|]; [|done].
      apply String.eqb_eq in Hopen. by subst. }
  assert (Hc : overlayClosed c) by (split; [apply inv_mounted, HI|done]).
  destruct (in_dec String.string_dec key
              ["ArrowUp"; "ArrowDown"; "ArrowLeft"; "ArrowRight"]) as [Hin|Hnot].
  - destruct (collections (state c)) as [|x cs] eqn:Hcs.
    + rewrite handleKeyDown_arrow_empty; [by rewrite Hcs| |done].
      pose proof (Inv_rows_length c HI) as Hl. rewrite Hcs in Hl.
      by destruct (rows c).
    + assert (Hne : collections (state c) <> []) by (by rewrite Hcs).
      rewrite <- Hcs. simpl in Hin. destruct Hin as [<-|[<-|[<-|[<-|[]]]]].
      * by destruct (ArrowUp_run c HI Hne Hc) as (c' & -> & ? & (? & _) & _).
      * by destruct (ArrowDown_run c HI Hne Hc) as (c' & -> & ? & (? & _) & _).
      * by destruct (ArrowLeft_run c HI Hne Hc) as (c' & -> & ? & (? & _) & _).
      * by destruct (ArrowRight_run c HI Hne Hc) as (c' & -> & ? & (? & _) & _).
  - rewrite (handleKeyDown_open c key Hc).
    destruct (String.eqb_spec key "ArrowUp") as [->|_]; [simpl in Hnot; tauto|].
    destruct (String.eqb_spec key "ArrowDown") as [->|_]; [simpl in Hnot; tauto|].
    destruct (String.eqb_spec key "ArrowLeft") as [->|_]; [simpl in Hnot; tauto|].
    destruct (String.eqb_spec key "ArrowRight") as [->|_]; [simpl in Hnot; tauto|].
    match goal with
    | |- Inv (snd ?m) /\ _ =>
        assert (Hcore : sameCore c (snd m))
    end.
    { destruct (String.eqb key "Enter").
      { apply keepsCore_bind; [apply keepsCore_renderModal|].
        intros _. apply keepsCore_setOpacity. }
      destruct (String.eqb key "Escape").
      { apply keepsCore_bind; [apply keepsCore_modalSetAttribute|].
        intros _. apply keepsCore_setOpacity. }
      apply sameCore_refl. }
    split; [by eapply Inv_sameCore|]. destruct Hcore as (-> & _). done.
Qed.

Lemma toggleHandler_run c :
  Inv c ->
  exists c' rs,
    toggleHandler dateToString c = (Ok tt, c') /\
    Inv c' /\
    state c' = setIsHorizontal (negb (isHorizontal (state c))) (state c) /\
    mapEi (renderRow dateToString (state c')) 0%nat (collections (state c')) = Ok rs /\
    rows c' = rs /\
    effects c' = (effects c ++ [GridInnerHTML])%list /\
    modal c' = modal c /\ opacity c' = opacity c /\
    mounted c' = true /\ listening c' = listening c /\
    collectionsElement c' = true.
Proof.
  intros HI. unfold toggleHandler, bind, modify, renderCollections. cbv beta iota.
  cbn [mounted withState state]. rewrite (inv_mounted c HI). cbn [negb].
  destruct (render_returns dateToString
              (setIsHorizontal (negb (isHorizontal (state c))) (state c))
              (collections (state c)) (inv_renders c HI)) as [rs Hrs].
  cbn [collections setIsHorizontal]. cbn [collections setIsHorizontal] in Hrs.
  rewrite Hrs. cbv beta iota.
  eexists _, rs. split; [reflexivity|].
  split; [|cbn; repeat split; [exact Hrs | exact (inv_mounted c HI)]].
  constructor; cbn.
  - apply inv_mounted, HI.
  - apply inv_renders, HI.
  - by apply render_shape in Hrs.
  - by apply render_marked in Hrs.
  - by left.
  - apply inv_row, HI.
  - apply (inv_tile c HI).
Qed.

Lemma dispatch_Inv c e :
  Inv c ->
  Inv (dispatch dateToString c e) /\
  collections (state (dispatch dateToString c e)) = collections (state c).
Proof.
  intros HI. unfold dispatch. destruct (listening c); [|done].
  destruct e as [key|].
  - by apply handleKeyDown_Inv.
  - destruct (toggleHandler_run c HI) as (c' & rs & -> & ? & Hst & _).
    simpl. split; [done|]. by rewrite Hst.
Qed.

Lemma run_Inv c events :
  Inv c ->
  Inv (run dateToString c events) /\
  collections (state (run dateToString c events)) = collections (state c).
Proof.
  revert c. induction events as [|e events IH]; intros c HI; [done|].
  destruct (dispatch_Inv c e HI) as [HI' Hcs].
  destruct (IH _ HI') as [? Hcs']. split; [done|].
  unfold run in *. simpl. congruence.
Qed.

End ArrowProperties.

(** ** Start-up establishes the invariant *)

Ltac comp_cbn :=
  cbn [mounted withMounted emit withRows withOpacity withModal withState negb
       state constructed appendCollections collections app withListening
       selectedRowIndex selectedColumnIndex selectedTile isHorizontal
       rows opacity modal collectionsElement listening effects].

Section StartProperties.

Variables (API_HUB_URL PROXY logo : string).
Variable fetch : string -> Exc Response.
Variable imageLoads : string -> bool.
Variable dateToString : Date -> string.

Lemma started_Inv :
  let c := started API_HUB_URL PROXY logo fetch imageLoads dateToString in
  listening c = true -> Inv c.
Proof.
  cbv zeta. unfold started, connectedCallback, render, addEventListeners,
    renderCollections, bind, modify, gets.
  destruct (fetchData_run API_HUB_URL PROXY logo fetch imageLoads constructed)
    as (fetched & _ & ->).
  generalize (map (attached PROXY logo fetch imageLoads) fetched). intros cs.
  comp_cbn.
  destruct (mapEi _ 0%nat cs) as [rs|e] eqn:Hrs; [|discriminate].
  comp_cbn.
  intros _.
  pose proof (render_renders _ _ _ _ Hrs) as Hren.
  pose proof (render_shape _ _ _ _ Hrs) as Hshape.
  pose proof (render_marked _ _ _ _ Hrs) as Hmarked.
  cbn [appendCollections selectedRowIndex selectedColumnIndex] in Hmarked.
  destruct cs as [|x cs].
  - cbn. constructor; cbn; try done. by right.
  - change (at_ (x :: cs) 0) with (Some x). cbn [defined ret].
    destruct (proj1 (Forall_cons _ _ _) Hren) as [(_ & views & Hviews & _) _].
    rewrite Hviews. cbn.
    constructor; cbn; try done.
    + by left.
    + lia.
    + unfold cursorItem, viewAt. cbn.
      change (Z.to_nat 0) with 0%nat. cbn. by rewrite Hviews.
Qed.

Lemma started_cursor :
  let c := started API_HUB_URL PROXY logo fetch imageLoads dateToString in
  selectedRowIndex (state c) = 0 /\ selectedColumnIndex (state c) = 0.
Proof.
  cbv zeta. unfold started, connectedCallback, render, addEventListeners,
    renderCollections, bind, modify, gets.
  destruct (fetchData_run API_HUB_URL PROXY logo fetch imageLoads constructed)
    as (fetched & _ & ->).
  generalize (map (attached PROXY logo fetch imageLoads) fetched). intros cs.
  comp_cbn.
  destruct (mapEi _ 0%nat cs) as [rs|e]; [|split; reflexivity]. comp_cbn.
  destruct cs as [|x cs]; [split; reflexivity|].
  change (at_ (x :: cs) 0) with (Some x). cbn [defined ret].
  destruct (Collection.views x); split; reflexivity.
Qed.

End StartProperties.

(** ** Keys other than the arrows leave the state and the tiles alone *)

Section OtherKeys.

Variable dateToString : Date -> string.

Lemma handleKeyDown_core c key :
  ~ In key ["ArrowUp"; "ArrowDown"; "ArrowLeft"; "ArrowRight"] ->
  sameCore c (snd (handleKeyDown dateToString key c)).
Proof.
  intros Hnot. unfold handleKeyDown. unfold bind at 1, gets at 1.
  destruct (mounted c); cbn [negb]; [|apply sameCore_refl].
  unfold bind at 1, gets at 1.
  destruct (attrIs (modal c) "is-open" "true" && negb (String.eqb key "Escape"));
    [apply sameCore_refl|].
  destruct (String.eqb_spec key "ArrowUp") as [->|_]; [simpl in Hnot; tauto|].
  destruct (String.eqb_spec key "ArrowDown") as [->|_]; [simpl in Hnot; tauto|].
  destruct (String.eqb_spec key "ArrowLeft") as [->|_]; [simpl in Hnot; tauto|].
  destruct (String.eqb_spec key "ArrowRight") as [->|_]; [simpl in Hnot; tauto|].
  destruct (String.eqb key "Enter").
  { apply keepsCore_bind; [apply keepsCore_renderModal|].
    intros _. apply keepsCore_setOpacity. }
  destruct (String.eqb key "Escape").
  { apply keepsCore_bind; [apply keepsCore_modalSetAttribute|].
    intros _. apply keepsCore_setOpacity. }
  apply sameCore_refl.
Qed.

Lemma overlay_cases c :
  mounted c = true -> overlayOpen c \/ overlayClosed c.
Proof.
  intros Hm. unfold overlayOpen, overlayClosed, attrIs.
  destruct (modal c !! "is-open") as [s|]; [|by right].
  destruct (String.eqb_spec s "true") as [->|]; [by left|by right].
Qed.

End OtherKeys.

(** ** The claims about navigation *)

Lemma Inv_last_indices c :
  Inv c ->
  lastRowIndex c = Z.of_nat (List.length (collections (state c))) - 1
  /\ lastColumnIndexOfCurrentRow c
     = itemCount (collections (state c)) (selectedRowIndex (state c)) - 1.
Proof.
  intros HI. unfold lastRowIndex, lastColumnIndexOfCurrentRow, itemCount.
  rewrite (Inv_rows_length c HI). split; [reflexivity|].
  pose proof (inv_shape c HI) as Hs. unfold at_.
  destruct (Z.ltb (selectedRowIndex (state c)) 0); [reflexivity|].
  destruct (rows c !! Z.to_nat (selectedRowIndex (state c))) as [r|] eqn:Hr.
  - destruct (Forall2_lookup_r _ _ _ _ _ Hs Hr) as (x & -> & views & -> & ->).
    reflexivity.
  - destruct (collections (state c) !! Z.to_nat (selectedRowIndex (state c)))
      as [x|] eqn:Hx; [|reflexivity].
    destruct (Forall2_lookup_l _ _ _ _ _ Hs Hx) as (r & Hr' & _). congruence.
Qed.

Section NavigationClaims.

Variable dateToString : Date -> string.

Lemma pressed_Inv c keys :
  Inv c ->
  Inv (pressed dateToString c keys)
  /\ collections (state (pressed dateToString c keys)) = collections (state c).
Proof. intros HI. by apply run_Inv. Qed.

(** C3, as amended. In every state in which the overlay is closed, the
    catalog has a collection and the grid is in step with it ([Inv]): Up
    sets the row to max(0, row - 1) and Down to min(row + 1, lastRowIndex),
    both keeping the column index whatever the length of the new row; Left
    sets the column to max(0, column - 1) and Right to
    min(column + 1, lastColumnIndexOfCurrentRow), both keeping the row.
    The two last indices are those of the document, which in such a state
    are the number of collections less one and the number of items of the
    current row less one. On the catalog of sizes 3 and 1 from (0,0): Down
    gives (1,0), Right then changes nothing, Up gives (0,0); and Down from
    (0,2) gives (1,2), the stale column kept. *)
Theorem directional_transitions (c : Comp) :
  let row := selectedRowIndex (state c) in
  let col := selectedColumnIndex (state c) in
  Inv c ->
  collections (state c) <> [] ->
  overlayClosed c ->
  (exists c', handleKeyDown dateToString "ArrowUp" c = (Ok tt, c') /\
              selectedRowIndex (state c') = Z.max 0 (row - 1) /\
              selectedColumnIndex (state c') = col)
  /\ (exists c', handleKeyDown dateToString "ArrowDown" c = (Ok tt, c') /\
                 selectedRowIndex (state c') = Z.min (row + 1) (lastRowIndex c) /\
                 selectedColumnIndex (state c') = col)
  /\ (exists c', handleKeyDown dateToString "ArrowLeft" c = (Ok tt, c') /\
                 selectedColumnIndex (state c') = Z.max 0 (col - 1) /\
                 selectedRowIndex (state c') = row)
  /\ (exists c', handleKeyDown dateToString "ArrowRight" c = (Ok tt, c') /\
                 selectedColumnIndex (state c')
                 = Z.min (col + 1) (lastColumnIndexOfCurrentRow c) /\
                 selectedRowIndex (state c') = row)
  /\ lastRowIndex c = Z.of_nat (List.length (collections (state c))) - 1
  /\ lastColumnIndexOfCurrentRow c = itemCount (collections (state c)) row - 1
  /\ (let s0 := Fixture.start Fixture.catalog31 [] Fixture.allLoad in
      Fixture.cursor s0 = (0, 0) /\
      Fixture.cursor (Fixture.go s0 [KeyDown "ArrowDown"]) = (1, 0) /\
      Fixture.go s0 [KeyDown "ArrowDown"; KeyDown "ArrowRight"]
      = Fixture.go s0 [KeyDown "ArrowDown"] /\
      Fixture.cursor (Fixture.go s0 [KeyDown "ArrowDown"; KeyDown "ArrowRight";
                                     KeyDown "ArrowUp"]) = (0, 0) /\
      Fixture.cursor (Fixture.go s0 [KeyDown "ArrowRight"; KeyDown "ArrowRight";
                                     KeyDown "ArrowDown"]) = (1, 2) /\
      itemCount (collections (state s0)) 1 = 1).
Proof.
  intros row col HI Hne Hc.
  destruct (Inv_last_indices c HI) as [Hlr Hlc]. fold row in Hlc.
  rewrite Hlr, Hlc.
  split; [|split; [|split; [|split; [|split; [|split]]]]].
  - destruct (ArrowUp_run dateToString c HI Hne Hc) as (c' & H & _ & _ & Hr & Hcol & _).
    by exists c'.
  - destruct (ArrowDown_run dateToString c HI Hne Hc) as (c' & H & _ & _ & Hr & Hcol & _).
    by exists c'.
  - destruct (ArrowLeft_run dateToString c HI Hne Hc) as (c' & H & _ & _ & Hr & Hcol & _).
    by exists c'.
  - destruct (ArrowRight_run dateToString c HI Hne Hc) as (c' & H & _ & _ & Hr & Hcol & _).
    by exists c'.
  - reflexivity.
  - reflexivity.
  - vm_compute. repeat split; reflexivity.
Qed.

End NavigationClaims.
Section CursorBounds.

Variables (API_HUB_URL PROXY logo : string).
Variable fetch : string -> Exc Response.
Variable imageLoads : string -> bool.
Variable dateToString : Date -> string.

Lemma columnInBounds_state c c' :
  state c' = state c -> columnInBounds c -> columnInBounds c'.
Proof. unfold columnInBounds. by intros ->. Qed.

Lemma key_column_kept c key :
  Inv c -> collections (state c) <> [] ->
  key <> "ArrowUp" -> key <> "ArrowDown" ->
  columnInBounds c -> columnInBounds (pressed dateToString c [key]).
Proof.
  intros HI Hne Hup Hdown Hcol. unfold pressed, run. simpl. unfold dispatch.
  destruct (listening c); [|done].
  destruct (in_dec String.string_dec key
              ["ArrowUp"; "ArrowDown"; "ArrowLeft"; "ArrowRight"]) as [Hin|Hnot].
  2:{ destruct (handleKeyDown_core dateToString c key Hnot) as (Hst & _).
      by apply (columnInBounds_state c). }
  destruct (overlay_cases c (inv_mounted c HI)) as [Ho|Hc].
  { rewrite handleKeyDown_gated; [done|done|].
    simpl in Hin. intuition (subst; discriminate). }
  simpl in Hin. destruct Hin as [<-|[<-|[<-|[<-|[]]]]]; [done|done| |].
  - destruct (ArrowLeft_run dateToString c HI Hne Hc)
      as (c' & -> & _ & (Hcs & _) & Hr & Hcl & _).
    unfold columnInBounds in *. simpl. rewrite Hcs, Hr, Hcl. lia.
  - destruct (ArrowRight_run dateToString c HI Hne Hc)
      as (c' & -> & _ & (Hcs & _) & Hr & Hcl & _).
    unfold columnInBounds in *. simpl. rewrite Hcs, Hr, Hcl. lia.
Qed.

Lemma key_vertical_column c key :
  Inv c -> collections (state c) <> [] ->
  In key ["ArrowUp"; "ArrowDown"] ->
  selectedColumnIndex (state (pressed dateToString c [key]))
  = selectedColumnIndex (state c).
Proof.
  intros HI Hne Hin. unfold pressed, run. simpl. unfold dispatch.
  destruct (listening c); [|done].
  destruct (overlay_cases c (inv_mounted c HI)) as [Ho|Hc].
  { rewrite handleKeyDown_gated; [done|done|].
    simpl in Hin. intuition (subst; discriminate). }
  simpl in Hin. destruct Hin as [<-|[<-|[]]].
  - by destruct (ArrowUp_run dateToString c HI Hne Hc) as (c' & -> & _ & _ & _ & ? & _).
  - by destruct (ArrowDown_run dateToString c HI Hne Hc) as (c' & -> & _ & _ & _ & ? & _).
Qed.

(** C1, as amended. From a state in which the catalog has a collection and
    the grid is in step with it ([Inv]), after any sequence of keys the row
    index is within [0, collectionCount-1]; every key other than Up and
    Down keeps the column index within [0, itemCountOfCurrentRow-1]; Up and
    Down keep the column index as it is, whatever the length of the row
    they move to. The cursor the component starts with is (0,0), within the
    bounds of the first row when that row has an item. *)
Theorem cursor_bounds_amended (c0 : Comp) (keys : list string) :
  let c := pressed dateToString c0 keys in
  let s := started API_HUB_URL PROXY logo fetch imageLoads dateToString in
  Inv c0 ->
  collections (state c0) <> [] ->
  rowInBounds c
  /\ (forall key, key <> "ArrowUp" -> key <> "ArrowDown" ->
                  columnInBounds c -> columnInBounds (pressed dateToString c [key]))
  /\ (forall key, In key ["ArrowUp"; "ArrowDown"] ->
                  selectedColumnIndex (state (pressed dateToString c [key]))
                  = selectedColumnIndex (state c))
  /\ selectedRowIndex (state s) = 0
  /\ selectedColumnIndex (state s) = 0
  /\ (0 < itemCount (collections (state s)) 0 -> columnInBounds s).
Proof.
  intros c s HI0 Hne.
  destruct (pressed_Inv dateToString c0 keys HI0) as [HI Hcs]. fold c in HI, Hcs.
  assert (Hne' : collections (state c) <> []) by (by rewrite Hcs).
  destruct (started_cursor API_HUB_URL PROXY logo fetch imageLoads dateToString)
    as [Hr0 Hc0]. fold s in Hr0, Hc0.
  split; [|split; [|split; [|split; [|split]]]].
  - by destruct (Inv_ready c HI Hne') as (_ & _ & ?).
  - intros key. by apply key_column_kept.
  - intros key. by apply key_vertical_column.
  - exact Hr0.
  - exact Hc0.
  - intros Hpos. unfold columnInBounds. rewrite Hr0, Hc0. lia.
Qed.

End CursorBounds.

(** ** What Enter binds to the overlay *)

Section OverlayProperties.

Variable dateToString : Date -> string.

Lemma modalSet_lookup_eq name value c :
  modal (modalSet name value c) !! name = Some value.
Proof. apply lookup_insert_eq. Qed.

Lemma modalSet_lookup_ne name value c name' :
  name <> name' -> modal (modalSet name value c) !! name' = modal c !! name'.
Proof. intros H. by apply lookup_insert_ne. Qed.

Ltac modal_lookup :=
  repeat (rewrite modalSet_lookup_ne by discriminate);
  first [apply modalSet_lookup_eq | reflexivity].

Lemma renderModal_cases c :
  (exists v c', selectedTile (state c) = Some v /\
                renderModal dateToString c = (Ok tt, c') /\
                boundTo dateToString (modal c') v /\
                modal c' !! "is-open" = Some "true")
  \/ (exists e c', renderModal dateToString c = (Throw e, c') /\
                   modal c' !! "is-open" = modal c !! "is-open").
Proof.
  unfold renderModal, bind, gets, liftE, modalSetAttribute, modify.
  cbv beta iota.
  destruct (selectedTile (state c)) as [v|]; cbn [defined ret throw];
    [|right; by eexists _, _].
  cbv beta iota.
  destruct (ToString (View.title v)) as [title|e] eqn:Ht;
    [|right; eexists _, _; split; [reflexivity|modal_lookup]].
  destruct (ToString (View.description v)) as [description|e] eqn:Hd;
    [|right; eexists _, _; split; [reflexivity|modal_lookup]].
  destruct (ToString (View.rating v)) as [rating|e] eqn:Hr;
    [|right; eexists _, _; split; [reflexivity|modal_lookup]].
  destruct (join (View.genre v) separator) as [genre|e] eqn:Hg;
    [|right; eexists _, _; split; [reflexivity|modal_lookup]].
  destruct (ToString (View.type v)) as [type|e] eqn:Hty;
    [|right; eexists _, _; split; [reflexivity|modal_lookup]].
  destruct (ToString (View.actionText v)) as [actionText|e] eqn:Ha;
    [|right; eexists _, _; split; [reflexivity|modal_lookup]].
  left. eexists v, _. split; [reflexivity|]. split; [reflexivity|].
  split; [|modal_lookup].
  exists title, description, rating, genre, type, actionText.
  repeat split; try assumption; modal_lookup.
Qed.

Lemma typedView_join v genres :
  typedView v genres -> join (View.genre v) separator = Ok (String.concat separator genres).
Proof. intros (_ & _ & _ & _ & _ & ->). apply joinWith_strings. Qed.

Lemma renderModal_typed c v genres :
  selectedTile (state c) = Some v -> typedView v genres ->
  exists c', renderModal dateToString c = (Ok tt, c').
Proof.
  intros Hsel Ht. destruct (renderModal_genre dateToString c v genres Ht Hsel)
    as (c' & H & _). by exists c'.
Qed.

End OverlayProperties.

Lemma viewAt_is_Some cs row col :
  is_Some (viewAt cs row col) <-> 0 <= col < itemCount cs row.
Proof.
  unfold viewAt, itemCount. destruct (at_ cs row) as [x|].
  - destruct (Collection.views x) as [views|].
    + apply at_is_Some.
    + split; [intros [? ?]; discriminate | lia].
  - split; [intros [? ?]; discriminate | lia].
Qed.

Lemma Inv_no_tile c row col :
  Inv c -> tileAtZ (rows c) row col = None ->
  viewAt (collections (state c)) row col = None.
Proof.
  intros HI Ht. apply eq_None_not_Some.
  rewrite <- (shape_tile_view _ _ row col (inv_shape c HI)), Ht.
  by intros [? ?].
Qed.

Section SelectionClaims.

Variable dateToString : Date -> string.

(** C9. In a state in which the grid is in step with the catalog ([Inv]),
    a row move to a row of the grid that has no tile at the preserved
    column (so that the column index, when not negative, is at least the
    new row's item count) sets the row index, keeps the column index and
    leaves the bound record as it was, while the cursor addresses no item.
    The overlay Enter then opens shows that record, which is not the item
    at the cursor; and Enter does open it when the record is typed as the
    data model declares. *)
Theorem stale_selected_record (c : Comp) (newRow : Z) :
  let col := selectedColumnIndex (state c) in
  Inv c ->
  0 <= newRow < Z.of_nat (List.length (rows c)) ->
  tileAtZ (rows c) newRow col = None ->
  (0 <= col -> itemCount (collections (state c)) newRow <= col)
  /\ exists c',
    updateSelectedRow newRow c = (Ok tt, c') /\
    selectedRowIndex (state c') = newRow /\
    selectedColumnIndex (state c') = col /\
    selectedTile (state c') = selectedTile (state c) /\
    cursorItem c' = None /\
    (overlayClosed c ->
     forall r c'',
       handleKeyDown dateToString "Enter" c' = (r, c'') ->
       overlayOpen c'' ->
       exists v, selectedTile (state c) = Some v /\
                 boundTo dateToString (modal c'') v /\
                 cursorItem c'' <> Some v) /\
    (overlayClosed c ->
     forall v genres,
       selectedTile (state c) = Some v -> typedView v genres ->
       exists c'', handleKeyDown dateToString "Enter" c' = (Ok tt, c'') /\
                   overlayOpen c'' /\
                   boundTo dateToString (modal c'') v).
Proof.
  intros col HI Hrow Htile.
  pose proof (Inv_no_tile c newRow col HI Htile) as Hview.
  rewrite (Inv_rows_length c HI) in Hrow.
  assert (Hne : collections (state c) <> []).
  { destruct (collections (state c)); [simpl in Hrow; lia|done]. }
  split.
  { intros Hcol.
    destruct (Z.le_gt_cases (itemCount (collections (state c)) newRow) col)
      as [Hle|Hgt]; [exact Hle|].
    assert (Hs : is_Some (viewAt (collections (state c)) newRow col))
      by (apply viewAt_is_Some; lia).
    rewrite Hview in Hs. by destruct Hs. }
  destruct (Inv_ready c HI Hne) as (Hb & _ & _).
  destruct (updateSelectedRow_run c newRow HI Hb Hrow)
    as (c' & Hrun & HI' & Hf & Hr & Hcl & Ht).
  fold col in Hcl, Ht. rewrite Hview in Ht.
  destruct Hf as (Hcs & _ & Hm & Hmod & _).
  assert (Hcur : cursorItem c' = None).
  { unfold cursorItem. by rewrite Hcs, Hr, Hcl. }
  exists c'. repeat split; try done.
  - intros [_ Hclosed] r c'' Henter [_ Hopen].
    assert (Hc' : overlayClosed c')
      by (split; [apply (inv_mounted c' HI')|by rewrite Hmod]).
    rewrite (handleKeyDown_open dateToString c' _ Hc') in Henter.
    cbn [String.eqb Ascii.eqb Bool.eqb] in Henter. unfold bind in Henter.
    pose proof (keepsCore_renderModal dateToString c') as Hcore.
    destruct (renderModal_cases dateToString c')
      as [(v & c1 & Hsel & Hren & Hbound & _) | (e & c1 & Hren & Hsame)];
      rewrite Hren in Henter, Hcore.
    + injection Henter as <- <-. exists v. split; [congruence|].
      split; [exact Hbound|].
      destruct Hcore as (Hst & _). cbn in Hst.
      unfold cursorItem in *. cbn. rewrite Hst, Hcur. discriminate.
    + injection Henter as <- <-. exfalso.
      rewrite Hsame, Hmod in Hopen. unfold attrIs in Hclosed.
      by rewrite Hopen in Hclosed.
  - intros [_ Hclosed] v genres Hsel Htyped.
    assert (Hc' : overlayClosed c')
      by (split; [apply (inv_mounted c' HI')|by rewrite Hmod]).
    rewrite (handleKeyDown_open dateToString c' _ Hc').
    cbn [String.eqb Ascii.eqb Bool.eqb]. unfold bind.
    destruct (renderModal_cases dateToString c')
      as [(v' & c1 & Hsel' & Hren & Hbound & Hopen) | (e & c1 & Hren & _)].
    + rewrite Hren. eexists. split; [reflexivity|].
      assert (v' = v) as -> by congruence.
      split; [|exact Hbound]. split; [|exact Hopen].
      destruct (keepsCore_renderModal dateToString c') as (_ & _ & Hm1 & _).
      rewrite Hren in Hm1. cbn [snd] in Hm1. cbn [snd setOpacity modify mounted emit withOpacity].
      rewrite Hm1. apply (inv_mounted c' HI').
    + destruct (renderModal_typed dateToString c' v genres) as [c2 Hok];
        [congruence|done|]. congruence.
Qed.

End SelectionClaims.

(** ** Concrete runs *)

Lemma started31_listening : listening started31 = true.
Proof. vm_compute. reflexivity. Qed.

Lemma started31_nonempty : collections (state started31) <> [].
Proof. vm_compute. discriminate. Qed.

(** C1 as stated fails: on the catalog of sizes 3 and 1, Right, Right, Down
    from (0,0) leaves the cursor at (1,2) while row 1 has one item. *)
Lemma cursor_bounds_counterexample :
  let c := run31 [KeyDown "ArrowRight"; KeyDown "ArrowRight"; KeyDown "ArrowDown"] in
  selectedRowIndex (state c) = 1
  /\ selectedColumnIndex (state c) = 2
  /\ itemCount (collections (state c)) (selectedRowIndex (state c)) = 1
  /\ ~ columnInBounds c.
Proof.
  cbv zeta. split; [vm_compute; reflexivity|]. split; [vm_compute; reflexivity|].
  split; [vm_compute; reflexivity|].
  unfold columnInBounds. vm_compute. intros [_ H]. discriminate H.
Qed.

Lemma started31_Inv : Inv started31.
Proof.
  exact (started_Inv "hub" "proxy" "logo.jpeg" fetch31 Fixture.allLoad
           Fixture.printDate started31_listening).
Qed.

Lemma started31_closed : overlayClosed started31.
Proof. split; vm_compute; reflexivity. Qed.

Lemma cursor_bounds_amended_witness :
  Inv started31
  /\ collections (state started31) <> []
  /\ rowInBounds (pressed Fixture.printDate started31 ["ArrowDown"; "ArrowDown"]).
Proof.
  split; [exact started31_Inv|]. split; [exact started31_nonempty|].
  exact (proj1 (cursor_bounds_amended "hub" "proxy" "logo.jpeg" fetch31
                  Fixture.allLoad Fixture.printDate started31
                  ["ArrowDown"; "ArrowDown"]
                  started31_Inv started31_nonempty)).
Defined.

Lemma overlay_gating_witness :
  overlayOpen (run31 [KeyDown "Enter"])
  /\ handleKeyDown Fixture.printDate "ArrowDown" (run31 [KeyDown "Enter"])
     = (Ok tt, run31 [KeyDown "Enter"]).
Proof.
  assert (Ho : overlayOpen (run31 [KeyDown "Enter"]))
    by (split; vm_compute; reflexivity).
  split; [exact Ho|].
  apply (proj1 (overlay_gating Fixture.printDate _ Ho)). simpl. tauto.
Defined.

(** C3 as stated fails. With the overlay open on the catalog of sizes 3
    and 1, Down leaves the row index at 0 while min(row + 1, lastRowIndex)
    is 1: the keys are gated. On the empty catalog, Down leaves the row
    index at 0 while min(row + 1, lastRowIndex) is -1. *)
Lemma directional_transitions_counterexample :
  let c := run31 [KeyDown "Enter"] in
  let c' := snd (handleKeyDown Fixture.printDate "ArrowDown" c) in
  let e := started "hub" "proxy" "logo.jpeg" fetchEmpty Fixture.allLoad
                   Fixture.printDate in
  let e' := snd (handleKeyDown Fixture.printDate "ArrowDown" e) in
  (overlayOpen c
   /\ selectedRowIndex (state c) = 0
   /\ lastRowIndex c = 1
   /\ selectedRowIndex (state c') = 0
   /\ selectedRowIndex (state c')
      <> Z.min (selectedRowIndex (state c) + 1) (lastRowIndex c))
  /\ (collections (state e) = []
      /\ selectedRowIndex (state e) = 0
      /\ lastRowIndex e = -1
      /\ selectedRowIndex (state e') = 0
      /\ selectedRowIndex (state e')
         <> Z.min (selectedRowIndex (state e) + 1) (lastRowIndex e)).
Proof.
  cbv zeta. split.
  - split; [split; vm_compute; reflexivity|].
    split; [vm_compute; reflexivity|]. split; [vm_compute; reflexivity|].
    split; [vm_compute; reflexivity|]. vm_compute. discriminate.
  - split; [vm_compute; reflexivity|].
    split; [vm_compute; reflexivity|]. split; [vm_compute; reflexivity|].
    split; [vm_compute; reflexivity|]. vm_compute. discriminate.
Qed.

Lemma directional_transitions_witness :
  Inv started31
  /\ collections (state started31) <> []
  /\ overlayClosed started31
  /\ exists c', handleKeyDown Fixture.printDate "ArrowDown" started31 = (Ok tt, c')
                /\ selectedRowIndex (state c') = 1.
Proof.
  split; [exact started31_Inv|]. split; [exact started31_nonempty|].
  split; [exact started31_closed|].
  destruct (directional_transitions Fixture.printDate started31
              started31_Inv started31_nonempty started31_closed)
    as (_ & (c' & Hrun & Hrow & _) & _).
  exists c'. split; [exact Hrun|]. rewrite Hrow. vm_compute. reflexivity.
Defined.

Lemma boundary_noop_witness :
  atBoundary "ArrowLeft" started31
  /\ run Fixture.printDate started31 (repeat (KeyDown "ArrowLeft") 3) = started31.
Proof.
  assert (Hb : atBoundary "ArrowLeft" started31)
    by (exists 0; split; vm_compute; reflexivity).
  split; [exact Hb|].
  exact (proj1 (proj2 (boundary_noop Fixture.printDate started31 "ArrowLeft" Hb) 3%nat)).
Defined.


Lemma soft_fail_transport_witness :
  transportFails (Fixture.service Fixture.catalog31 ["b"]) "proxy/b"
  /\ getViews "proxy" "logo.jpeg" (Fixture.service Fixture.catalog31 ["b"])
       Fixture.allLoad (JStr "/b") = Ok [].
Proof.
  assert (Hf : transportFails (Fixture.service Fixture.catalog31 ["b"]) "proxy/b").
  { right. eexists. split; [vm_compute; reflexivity | reflexivity]. }
  split; [exact Hf|].
  apply (proj1 (proj2 (proj2 (proj2 (soft_fail_transport "hub" "proxy" "logo.jpeg"
                         (Fixture.service Fixture.catalog31 ["b"]) Fixture.allLoad))))
           (JStr "/b") "/b"); [reflexivity | exact Hf].
Defined.

Lemma stale_selected_record_witness :
  let c := pressed Fixture.printDate started31 ["ArrowRight"; "ArrowRight"] in
  Inv c
  /\ tileAtZ (rows c) 1 (selectedColumnIndex (state c)) = None
  /\ exists c', updateSelectedRow 1 c = (Ok tt, c')
                /\ selectedRowIndex (state c') = 1
                /\ selectedTile (state c') = selectedTile (state c)
                /\ cursorItem c' = None.
Proof.
  cbv zeta.
  assert (HI : Inv (pressed Fixture.printDate started31 ["ArrowRight"; "ArrowRight"]))
    by (apply pressed_Inv; exact started31_Inv).
  assert (Hrow : 0 <= 1 < Z.of_nat (List.length (rows
             (pressed Fixture.printDate started31 ["ArrowRight"; "ArrowRight"])))).
  { vm_compute. split; [discriminate | reflexivity]. }
  assert (Htile : tileAtZ (rows (pressed Fixture.printDate started31
                                   ["ArrowRight"; "ArrowRight"])) 1
                    (selectedColumnIndex (state (pressed Fixture.printDate started31
                                                   ["ArrowRight"; "ArrowRight"])))
                  = None).
  { vm_compute. reflexivity. }
  split; [exact HI|]. split; [exact Htile|].
  destruct (stale_selected_record Fixture.printDate
              (pressed Fixture.printDate started31 ["ArrowRight"; "ArrowRight"]) 1
              HI Hrow Htile)
    as (_ & c' & Hrun & Hr & Hc & Ht & Hcur & _).
  exists c'. split; [exact Hrun|]. split; [exact Hr|].
  split; [exact Ht | exact Hcur].
Defined.

(* ===================================================================== *)
(** * Further properties *)
(* ===================================================================== *)

(** ** The catalog client on well-formed and on malformed payloads *)

Lemma getProp_Ok v name w :
  getProp v name = Ok w <-> nullish v = false /\ w = field v name.
Proof.
  rewrite getProp_field. destruct (nullish v); split; try intros [? ?]; try done.
  - intros [= <-]. done.
  - by subst.
Qed.

Lemma mapJS_not_array {B} v (f : JSValue -> Exc B) :
  isArray v = false -> mapJS v f = Throw TypeError.
Proof. by destruct v. Qed.

Lemma mapE_map {A B} (f : A -> Exc B) (g : A -> B) xs :
  Forall (fun x => f x = Ok (g x)) xs -> mapE f xs = Ok (map g xs).
Proof.
  induction 1 as [|x xs Hx _ IH]; simpl; [done|]. by rewrite Hx, IH.
Qed.

Lemma mapE_throws {A B} (f : A -> Exc B) xs :
  Exists (fun x => raises (f x)) xs -> raises (mapE f xs).
Proof.
  induction 1 as [x xs [e He]|x xs _ [e IH]]; simpl.
  - rewrite He. by exists e.
  - destruct (f x) as [y|e']; simpl; [|by exists e'].
    rewrite IH. by exists e.
Qed.

Lemma filterBoolean_map {A} (f : A -> option View.t) xs :
  filterBoolean (map f xs) = omap f xs.
Proof.
  unfold filterBoolean. induction xs as [|x xs IH]; [done|]. csimpl.
  destruct (f x); by rewrite IH.
Qed.

Lemma omap_length_le {A B} (f : A -> option B) xs :
  (List.length (omap f xs) <= List.length xs)%nat.
Proof.
  induction xs as [|x xs IH]; [done|]. csimpl. destruct (f x); simpl; lia.
Qed.

Section ClientProperties.

Variables (API_HUB_URL PROXY logo : string).
Variable fetch : string -> Exc Response.
Variable imageLoads : string -> bool.

Lemma fetchCollections_ok response body :
  fetch API_HUB_URL = Ok response -> ok response = true ->
  json response = Ok body -> nullish body = false ->
  fetchCollections API_HUB_URL fetch = Ok (field body "components").
Proof.
  intros Hf Hok Hj Hb. unfold fetchCollections. rewrite Hf. simpl.
  rewrite Hok. simpl. rewrite Hj. simpl. rewrite getProp_field, Hb. done.
Qed.

(** X1. When the hub answers with an array of descriptors none of which is
    null or undefined, [getCollections] returns one collection per
    descriptor, in order, with [title] read from [name] and no [views] yet;
    a single null or undefined descriptor makes it return the empty list. *)
Theorem getCollections_descriptors response body items :
  fetch API_HUB_URL = Ok response -> ok response = true ->
  json response = Ok body -> nullish body = false ->
  field body "components" = JArr items ->
  (Forall (fun item => nullish item = false) items ->
     getCollections API_HUB_URL fetch = Ok (map skeleton items))
  /\ (Exists (fun item => nullish item = true) items ->
        getCollections API_HUB_URL fetch = Ok []).
Proof.
  intros Hf Hok Hj Hb Hc. unfold getCollections.
  rewrite (fetchCollections_ok response body Hf Hok Hj Hb), Hc. simpl. split.
  - intros Hall. erewrite mapE_map; [reflexivity|].
    eapply Forall_impl; [exact Hall|]. intros item Hn. simpl in Hn.
    rewrite !getProp_field, Hn. reflexivity.
  - intros Hex.
    destruct (mapE_throws
                (fun item =>
                   let? id := getProp item "id" in
                   let? name := getProp item "name" in
                   let? theme := getProp item "theme" in
                   let? href := getProp item "href" in
                   Ok (Collection.mk id name href theme None)) items) as [e He].
    { eapply Exists_impl; [exact Hex|]. intros item Hn. simpl in Hn.
      rewrite getProp_field, Hn. by exists TypeError. }
    by rewrite He.
Qed.

(** X2. When the item request succeeds with an array of raw items,
    [getViews] returns, in order, exactly the items the normaliser keeps:
    an item that is dropped neither aborts the batch nor affects the others,
    and the list is never longer than the raw one. *)
Theorem getViews_keeps_normalised href h response body items :
  ToString href = Ok h ->
  fetch (PROXY ++ h) = Ok response -> ok response = true ->
  json response = Ok body -> nullish body = false ->
  field body "items" = JArr items ->
  let views := omap (normalised logo imageLoads) items in
  getViews PROXY logo fetch imageLoads href = Ok views
  /\ (List.length views <= List.length items)%nat
  /\ (forall before dropped after,
        items = (before ++ dropped :: after)%list ->
        normalised logo imageLoads dropped = None ->
        views = omap (normalised logo imageLoads) (before ++ after)%list).
Proof.
  intros Hh Hf Hok Hj Hb Hi views. split; [|split].
  - unfold getViews. rewrite Hh. simpl. rewrite Hf. simpl. rewrite Hok. simpl.
    rewrite Hj. simpl. rewrite getProp_field, Hb. simpl. rewrite Hi. simpl.
    erewrite (mapE_map _ (normalised logo imageLoads)).
    + simpl. by rewrite filterBoolean_map.
    + apply Forall_forall. intros item _. unfold normalised.
      by destruct (transformDataToView_returns logo imageLoads item) as [r ->].
  - apply omap_length_le.
  - intros before dropped after -> Hd. unfold views.
    rewrite !omap_app. csimpl. by rewrite Hd.
Qed.

(** X3. A payload of the wrong shape is answered like a transport failure:
    when the body cannot be parsed, is null, or holds no array under
    [components] (for the hub) or [items] (for a collection), the result is
    the empty list. *)
Theorem malformed_payload_is_empty response :
  ok response = true ->
  (raises (json response)
   \/ exists body, json response = Ok body /\
                   (nullish body = true
                    \/ (isArray (field body "components") = false
                        /\ isArray (field body "items") = false))) ->
  (fetch API_HUB_URL = Ok response -> getCollections API_HUB_URL fetch = Ok [])
  /\ (forall href h, ToString href = Ok h -> fetch (PROXY ++ h) = Ok response ->
        getViews PROXY logo fetch imageLoads href = Ok []).
Proof.
  intros Hok Hbad. split.
  - intros Hf. unfold getCollections, fetchCollections. rewrite Hf. simpl.
    rewrite Hok. simpl. destruct Hbad as [[e ->]|(body & -> & [Hn|[Hc _]])]; simpl.
    + done.
    + rewrite getProp_field, Hn. done.
    + rewrite getProp_field. destruct (nullish body); simpl; [done|].
      by rewrite mapJS_not_array.
  - intros href h Hh Hf. unfold getViews. rewrite Hh. simpl. rewrite Hf. simpl.
    rewrite Hok. simpl. destruct Hbad as [[e ->]|(body & -> & [Hn|[_ Hi]])]; simpl.
    + done.
    + rewrite getProp_field, Hn. done.
    + rewrite getProp_field. destruct (nullish body); simpl; [done|].
      by rewrite mapJS_not_array.
Qed.

End ClientProperties.

(** ** Which raw items the normaliser keeps *)

Section KeepProperties.

Variable logo : string.
Variable imageLoads : string -> bool.

(** X4. The normaliser keeps a raw item exactly when the blocks on the way
    to the two image records are there, the two image paths convert to
    strings and the two URLs made of them load, [entity_metadata] and its
    [rating] are there, and the premiere date can be made a [Date] of (an
    object or an array has to convert to a string for that). Nothing else
    is required: an absent headline, body, action text, id, genre list,
    type, date, rating code or branding does not drop the item, and an
    absent path is converted like any other value. *)
Theorem normalisation_keeps_iff (data : JSValue) :
  (exists view, transformDataToView logo imageLoads data = Ok (Some view))
  <-> tileNested data "horizontal_tile" = true
      /\ tileNested data "vertical_tile" = true
      /\ (exists hpath vpath,
            ToString (imagePath data "horizontal_tile") = Ok hpath /\
            ToString (imagePath data "vertical_tile") = Ok vpath /\
            imageLoads (constructImageUrl hpath "800" "600" "jpeg") = true /\
            imageLoads (constructImageUrl vpath "600" "800" "jpeg") = true)
      /\ metadataNested data = true
      /\ returns (ToString (field (field data "entity_metadata") "premiere_date")).
Proof.
  unfold transformDataToView. rewrite transformBody_eval. split.
  - intros [view H].
    destruct (tileNested data "horizontal_tile"); [|discriminate].
    destruct (ToString (imagePath data "horizontal_tile")) as [hpath|];
      [|discriminate].
    destruct (tileNested data "vertical_tile"); [|discriminate].
    destruct (ToString (imagePath data "vertical_tile")) as [vpath|];
      [|discriminate].
    cbv zeta in H.
    destruct (imageLoads (constructImageUrl hpath _ _ _)) eqn:Lh; [|discriminate].
    destruct (imageLoads (constructImageUrl vpath _ _ _)) eqn:Lv; [|discriminate].
    cbn [andb] in H.
    destruct (metadataNested data); [|discriminate].
    destruct (ToString (field (field data "entity_metadata") "premiere_date"))
      as [d|]; [|discriminate].
    split; [done|]. split; [done|]. split; [by exists hpath, vpath|].
    split; [done|]. by exists d.
  - intros (-> & -> & (hpath & vpath & -> & -> & Lh & Lv) & -> & [d ->]).
    cbv zeta. rewrite Lh, Lv. cbn [andb try_catch]. by eexists.
Qed.

End KeepProperties.

(** ** What one event does to the state *)

Lemma state_eta s row col tile cs h :
  selectedRowIndex s = row -> selectedColumnIndex s = col ->
  selectedTile s = tile -> collections s = cs -> isHorizontal s = h ->
  s = mkState row col tile cs h.
Proof. destruct s. simpl. by intros -> -> -> -> ->. Qed.

Section StepProperties.

Variable dateToString : Date -> string.

Lemma dispatch_stateStep c e :
  Inv c -> stateStep (state c) (state (dispatch dateToString c e)).
Proof.
  intros HI. unfold dispatch. destruct (listening c); [|by left].
  destruct e as [key|].
  2:{ destruct (toggleHandler_run dateToString c HI) as (c' & rs & -> & _ & Hst & _).
      right. left. exact Hst. }
  destruct (in_dec String.string_dec key
              ["ArrowUp"; "ArrowDown"; "ArrowLeft"; "ArrowRight"]) as [Hin|Hnot].
  2:{ destruct (handleKeyDown_core dateToString c key Hnot) as (Hst & _).
      left. exact Hst. }
  destruct (overlay_cases c (inv_mounted c HI)) as [Ho|Hc].
  { rewrite handleKeyDown_gated; [by left|done|].
    simpl in Hin. intuition (subst; discriminate). }
  destruct (collections (state c)) as [|x cs] eqn:Hcs.
  { rewrite handleKeyDown_arrow_empty; [by left| |done].
    pose proof (Inv_rows_length c HI) as Hl. rewrite Hcs in Hl.
    by destruct (rows c). }
  assert (Hne : collections (state c) <> []) by (by rewrite Hcs).
  right. right. split; [done|].
  simpl in Hin. destruct Hin as [<-|[<-|[<-|[<-|[]]]]].
  - destruct (ArrowUp_run dateToString c HI Hne Hc)
      as (c' & -> & _ & (Hc1 & Hh & _) & Hr & Hcl & Ht).
    left. by apply state_eta.
  - destruct (ArrowDown_run dateToString c HI Hne Hc)
      as (c' & -> & _ & (Hc1 & Hh & _) & Hr & Hcl & Ht).
    right. left. by apply state_eta.
  - destruct (ArrowLeft_run dateToString c HI Hne Hc)
      as (c' & -> & _ & (Hc1 & Hh & _) & Hr & Hcl & Ht).
    right. right. left. by apply state_eta.
  - destruct (ArrowRight_run dateToString c HI Hne Hc)
      as (c' & -> & _ & (Hc1 & Hh & _) & Hr & Hcl & Ht).
    right. right. right. by apply state_eta.
Qed.

Lemma stateStep_collections s s' : stateStep s s' -> collections s' = collections s.
Proof.
  unfold stateStep. intros H.
  destruct H as [H|[H|[_ [H|[H|[H|H]]]]]]; by rewrite H.
Qed.

End StepProperties.

(** ** Global bounds of the column index *)

Lemma itemCount_nonneg cs row : 0 <= itemCount cs row.
Proof.
  unfold itemCount. destruct (at_ cs row) as [x|]; [|done].
  destruct (Collection.views x); lia.
Qed.

Lemma maxItemCount_nonneg cs : 0 <= maxItemCount cs.
Proof. induction cs as [|x cs IH]; simpl; lia. Qed.

Lemma itemCount_le_max cs row : itemCount cs row <= maxItemCount cs.
Proof.
  unfold itemCount. destruct (at_ cs row) as [x|] eqn:Hx;
    [|apply maxItemCount_nonneg].
  apply at_Some in Hx as [_ Hx]. revert Hx. generalize (Z.to_nat row).
  induction cs as [|y cs IH]; intros [|k] Hk; simpl in *; try done.
  - injection Hk as ->. destruct (Collection.views x); lia.
  - specialize (IH k Hk). destruct (Collection.views x), (Collection.views y); lia.
Qed.

Section ColumnBounds.

Variable dateToString : Date -> string.

Lemma dispatch_column_bounds c e :
  Inv c ->
  -1 <= selectedColumnIndex (state c)
     <= Z.max 0 (maxItemCount (collections (state c)) - 1) ->
  let c' := dispatch dateToString c e in
  -1 <= selectedColumnIndex (state c')
     <= Z.max 0 (maxItemCount (collections (state c')) - 1).
Proof.
  intros HI H. cbv zeta.
  pose proof (dispatch_stateStep dateToString c e HI) as Hstep.
  pose proof (itemCount_le_max (collections (state c)) (selectedRowIndex (state c))).
  pose proof (itemCount_nonneg (collections (state c)) (selectedRowIndex (state c))).
  unfold stateStep in Hstep.
  destruct Hstep as [Hs|[Hs|[_ [Hs|[Hs|[Hs|Hs]]]]]]; rewrite Hs; simpl;
    try exact H; lia.
Qed.

(** X5. From a state in which the grid is in step with the catalog
    ([Inv]) and the column index is within [-1, max(0, n - 1)], n being the
    greatest item count of a collection, every sequence of keys leaves the
    column index within that range. *)
Theorem column_global_bounds (c : Comp) (keys : list string) :
  let c' := pressed dateToString c keys in
  Inv c ->
  -1 <= selectedColumnIndex (state c)
     <= Z.max 0 (maxItemCount (collections (state c)) - 1) ->
  -1 <= selectedColumnIndex (state c')
     <= Z.max 0 (maxItemCount (collections (state c')) - 1).
Proof.
  cbv zeta. unfold pressed, run. revert c.
  induction keys as [|key keys IH]; intros c HI H; [exact H|].
  cbn [map fold_left]. apply IH.
  - by apply dispatch_Inv.
  - by apply dispatch_column_bounds.
Qed.

End ColumnBounds.

(** ** The selected tile, the bound record and the overlay *)

Section SelectionProperties.

Variable dateToString : Date -> string.

(** X6. From a state in which the grid is in step with the catalog
    ([Inv]), after any sequence of keys each tile of the grid reads
    [is-selected] as [true] or [false], and as [true] exactly when it is the
    tile at the cursor: at most one tile is selected, and one is exactly
    when the cursor is on an item. *)
Theorem one_selected_tile (c0 : Comp) (keys : list string) :
  let c := pressed dateToString c0 keys in
  Inv c0 ->
  (forall i j e,
     tileAtZ (rows c) i j = Some e ->
     (e !! "is-selected" = Some "true" \/ e !! "is-selected" = Some "false")
     /\ (e !! "is-selected" = Some "true"
         <-> i = selectedRowIndex (state c) /\ j = selectedColumnIndex (state c)))
  /\ ((exists e, tileAtZ (rows c) (selectedRowIndex (state c))
                         (selectedColumnIndex (state c)) = Some e)
      <-> columnInBounds c).
Proof.
  intros c HI0.
  destruct (pressed_Inv dateToString c0 keys HI0) as [HI _]. fold c in HI.
  split.
  - intros i j e He. rewrite (inv_marked c HI i j e He).
    destruct (Z.eqb_spec j (selectedColumnIndex (state c))) as [->|Hj];
      destruct (Z.eqb_spec i (selectedRowIndex (state c))) as [->|Hi]; simpl;
      (split; [tauto|]); split; try done; intros [? ?]; congruence.
  - unfold columnInBounds. rewrite <- viewAt_is_Some.
    apply (shape_tile_view _ _ _ _ (inv_shape c HI)).
Qed.

(** X7. From a state in which the grid is in step with the catalog
    ([Inv]), after any sequence of keys that leaves the cursor on an item,
    the bound record is that item; with the overlay closed and the item
    typed as the data model declares, Enter opens the overlay on it, dims
    the grid to 0.5 and changes neither the state nor the tiles. *)
Theorem enter_binds_cursor_item (c0 : Comp) (keys : list string) (v : View.t)
                                (genres : list string) :
  let c := pressed dateToString c0 keys in
  Inv c0 ->
  cursorItem c = Some v ->
  selectedTile (state c) = Some v
  /\ (overlayClosed c -> typedView v genres ->
      exists c',
        handleKeyDown dateToString "Enter" c = (Ok tt, c') /\
        overlayOpen c' /\
        boundTo dateToString (modal c') v /\
        opacity c' = Some "0.5" /\
        state c' = state c /\
        rows c' = rows c).
Proof.
  intros c HI0 Hcur.
  destruct (pressed_Inv dateToString c0 keys HI0) as [HI _]. fold c in HI.
  pose proof (inv_tile c HI v Hcur) as Hsel. split; [exact Hsel|].
  intros Hc Htyped. rewrite (handleKeyDown_open dateToString c _ Hc).
  cbn [String.eqb Ascii.eqb Bool.eqb]. unfold bind.
  destruct (keepsCore_renderModal dateToString c) as (Hst & Hr & Hm & _).
  destruct (renderModal_cases dateToString c)
    as [(v' & c1 & Hsel' & Hren & Hbound & Hopen) | (e & c1 & Hren & _)].
  - rewrite Hren in *. cbn [snd] in *.
    assert (v' = v) as -> by congruence.
    eexists. split; [reflexivity|]. cbn.
    repeat split; try done.
    transitivity (mounted c1); [reflexivity|]. rewrite Hm. apply (inv_mounted c HI).
  - destruct (renderModal_typed dateToString c v genres Hsel Htyped) as [c2 Hok].
    congruence.
Qed.

End SelectionProperties.

Section EnterProperties.

Variable dateToString : Date -> string.

Lemma renderModal_opacity c :
  opacity (snd (renderModal dateToString c)) = opacity c.
Proof.
  unfold renderModal, bind, gets, liftE, modalSetAttribute, modify.
  cbv beta iota.
  destruct (selectedTile (state c)) as [v|]; cbn [defined ret throw]; [|done].
  cbv beta iota.
  destruct (ToString (View.title v)); [|done].
  destruct (ToString (View.description v)); [|done].
  destruct (ToString (View.rating v)); [|done].
  destruct (join (View.genre v) separator); [|done].
  destruct (ToString (View.type v)); [|done].
  destruct (ToString (View.actionText v)); done.
Qed.

(** X8. With the overlay closed, Enter either opens it and dims the grid
    to 0.5, or throws and leaves the overlay closed and the opacity as it
    was; in both cases the state and the tiles are unchanged. It throws in
    particular when no record is bound. *)
Theorem enter_opens_or_fails (c : Comp) :
  overlayClosed c ->
  let r := fst (handleKeyDown dateToString "Enter" c) in
  let c' := snd (handleKeyDown dateToString "Enter" c) in
  state c' = state c /\ rows c' = rows c
  /\ ((r = Ok tt /\ overlayOpen c' /\ opacity c' = Some "0.5")
      \/ ((exists e, r = Throw e) /\ overlayClosed c' /\ opacity c' = opacity c))
  /\ (selectedTile (state c) = None -> r = Throw TypeError /\ c' = c).
Proof.
  intros Hc. cbv zeta. rewrite (handleKeyDown_open dateToString c _ Hc).
  cbn [String.eqb Ascii.eqb Bool.eqb]. unfold bind.
  destruct (keepsCore_renderModal dateToString c) as (Hst & Hr & Hm & _).
  pose proof (renderModal_opacity c) as Hop.
  destruct (renderModal_cases dateToString c)
    as [(v & c1 & Hsel & Hren & _ & Hopen) | (e & c1 & Hren & Hsame)];
    rewrite Hren in *; cbn [fst snd] in *.
  - cbn [fst snd]. split; [exact Hst|]. split; [exact Hr|]. split.
    + left. split; [reflexivity|]. split; [|reflexivity]. split; [|exact Hopen].
      transitivity (mounted c1); [reflexivity|]. rewrite Hm. apply Hc.
    + intros Hnone. congruence.
  - split; [exact Hst|]. split; [exact Hr|]. split.
    + right. split; [by exists e|]. split; [|exact Hop].
      destruct Hc as [Hmc Hclosed]. split; [congruence|].
      unfold attrIs in *. by rewrite Hsame.
    + intros Hnone. unfold renderModal, bind, gets in Hren.
      cbv beta iota in Hren. rewrite Hnone in Hren. cbn in Hren.
      split; congruence.
Qed.

(** X9. Enter then Escape is a round trip for everything but the overlay's
    fields: from a state with the overlay closed and a bound record typed as
    the data model declares, the state and the tiles are as before, the
    overlay is closed again, the opacity is 1, and the fields of the record
    stay bound to the overlay (closing does not clear them). *)
Theorem enter_escape_round_trip (c : Comp) (v : View.t) (genres : list string) :
  overlayClosed c ->
  selectedTile (state c) = Some v ->
  typedView v genres ->
  exists c1 c2,
    handleKeyDown dateToString "Enter" c = (Ok tt, c1) /\
    handleKeyDown dateToString "Escape" c1 = (Ok tt, c2) /\
    state c2 = state c /\ rows c2 = rows c /\
    overlayClosed c2 /\
    modal c2 !! "is-open" = Some "false" /\
    opacity c2 = Some "1" /\
    boundTo dateToString (modal c2) v.
Proof.
  intros Hc Hsel Htyped. rewrite (handleKeyDown_open dateToString c _ Hc).
  cbn [String.eqb Ascii.eqb Bool.eqb]. unfold bind.
  destruct (keepsCore_renderModal dateToString c) as (Hst & Hr & Hm & _).
  destruct (renderModal_cases dateToString c)
    as [(v' & c1 & Hsel' & Hren & Hbound & Hopen) | (e & c1 & Hren & _)].
  2:{ destruct (renderModal_typed dateToString c v genres Hsel Htyped) as [c2 Hok].
      congruence. }
  rewrite Hren in *. cbn [snd] in *. assert (v' = v) as -> by congruence.
  assert (Hm1 : mounted c1 = true) by (rewrite Hm; apply Hc).
  eexists _, _. split; [reflexivity|].
  split; [apply handleKeyDown_Escape; exact Hm1|].
  cbn [state rows opacity emit withOpacity withModal modal setOpacity modify snd mounted].
  repeat split; try done.
  - unfold attrIs. cbn [modal emit withOpacity withModal].
    by rewrite lookup_insert_eq.
  - apply lookup_insert_eq.
  - destruct Hbound as (t & d & r & g & ty & a & H1 & H2 & H3 & H4 & H5 & H6 &
                        L1 & L2 & L3 & L4 & L5 & L6 & L7 & L8 & L9).
    exists t, d, r, g, ty, a.
    repeat split; try assumption; by rewrite lookup_insert_ne.
Qed.

End EnterProperties.

(** ** The overlay and the dimming of the grid *)

Section OverlayProperties.

Variable dateToString : Date -> string.

Lemma handleKeyDown_other c key :
  overlayClosed c -> ~ In key handledKeys ->
  handleKeyDown dateToString key c = (Ok tt, c).
Proof.
  intros Hc Hnot. rewrite (handleKeyDown_open dateToString c _ Hc).
  unfold handledKeys in Hnot. simpl in Hnot.
  repeat (match goal with |- context [String.eqb key ?s] =>
            destruct (String.eqb_spec key s) as [->|_];
              [exfalso; intuition congruence|] end).
  reflexivity.
Qed.






End OverlayProperties.

Section ReachableOverlay.

Variables (API_HUB_URL PROXY logo : string).
Variable fetch : string -> Exc Response.
Variable imageLoads : string -> bool.
Variable dateToString : Date -> string.



(** X12. In a state in which the grid is in step with the catalog
    ([Inv]), the catalog has a collection, the overlay is closed and the
    column index is not below -1, Right in a row that has items always
    leaves the cursor on an item of that row, with that item as the bound
    record: a column index left over from a longer row is brought back to
    the last item. In a row with no item, Right sets the column index to -1
    and keeps the bound record. *)
Theorem right_lands_on_item (c : Comp) :
  let n := itemCount (collections (state c)) (selectedRowIndex (state c)) in
  Inv c ->
  collections (state c) <> [] ->
  overlayClosed c ->
  -1 <= selectedColumnIndex (state c) ->
  exists c',
    handleKeyDown dateToString "ArrowRight" c = (Ok tt, c') /\
    selectedRowIndex (state c') = selectedRowIndex (state c) /\
    (0 < n ->
       columnInBounds c' /\
       selectedColumnIndex (state c') <= n - 1 /\
       (n <= selectedColumnIndex (state c) -> selectedColumnIndex (state c') = n - 1) /\
       is_Some (cursorItem c') /\
       selectedTile (state c') = cursorItem c') /\
    (n = 0 ->
       selectedColumnIndex (state c') = -1 /\
       cursorItem c' = None /\
       selectedTile (state c') = selectedTile (state c)).
Proof.
  intros n HI Hne Hc Hlow.
  destruct (ArrowRight_run dateToString c HI Hne Hc)
    as (c' & Hrun & _ & (Hcs & _) & Hrow & Hcol & Htile).
  fold n in Hcol, Htile.
  exists c'. split; [exact Hrun|]. split; [exact Hrow|].
  unfold columnInBounds, cursorItem. rewrite Hcs, Hrow, Hcol. fold n.
  split.
  - intros Hn.
    assert (Hin : 0 <= Z.min (selectedColumnIndex (state c) + 1) (n - 1) < n) by lia.
    apply viewAt_is_Some in Hin as [v Hv]. fold n in Htile.
    rewrite Hv in Htile. rewrite Hv.
    repeat split; try lia; try done.
  - intros Hn.
    assert (Hnone : viewAt (collections (state c)) (selectedRowIndex (state c))
                      (Z.min (selectedColumnIndex (state c) + 1) (n - 1)) = None).
    { apply eq_None_not_Some. rewrite viewAt_is_Some. fold n. lia. }
    rewrite Hnone in Htile. rewrite Hnone. repeat split; try done. lia.
Qed.

End ReachableOverlay.

(** ** What a key press keeps *)

Lemma preserves_bind {A B} P (m : M A) (k : A -> M B) :
  preserves P m -> (forall a, preserves P (k a)) -> preserves P (bind m k).
Proof.
  intros Hm Hk c HP. unfold bind. specialize (Hm c HP).
  destruct (m c) as [[a|e] c1]; simpl in *; [by apply Hk|done].
Qed.

Lemma preserves_ret {A} P (a : A) : preserves P (ret a).
Proof. by intros c. Qed.

Lemma preserves_throw {A} P (e : exn) : preserves P (@throw A e).
Proof. by intros c. Qed.

Lemma preserves_liftE {A} P (m : Exc A) : preserves P (liftE m).
Proof. by intros c. Qed.

Lemma preserves_gets {A} P (f : Comp -> A) : preserves P (gets f).
Proof. by intros c. Qed.

Lemma preserves_defined {A} P (x : option A) : preserves P (defined x).
Proof. destruct x; [apply preserves_ret | apply preserves_throw]. Qed.

Lemma preserves_modify P (f : Comp -> Comp) :
  (forall c, P c -> P (f c)) -> preserves P (modify f).
Proof. intros Hf c HP. by apply Hf. Qed.

Create HintDb keeps_db.

#[local] Hint Resolve preserves_ret preserves_throw preserves_liftE preserves_gets
  preserves_defined : keeps_db.

Ltac keeps :=
  repeat first
    [ solve [auto with keeps_db]
    | apply preserves_bind; [|intros ?]
    | match goal with
      | |- preserves _ (if ?b then _ else _) => destruct b
      | |- preserves _ (match ?x with Some _ => _ | None => _ end) => destruct x
      end ].

Section StableProperties.

Variable dateToString : Date -> string.
Variable P : Comp -> Prop.
Hypothesis HS : Stable P.

Lemma preserves_tileSetAttribute row col value :
  preserves P (tileSetAttribute row col "is-selected" value).
Proof. intros c. apply (stable_tile P HS). Qed.

Lemma preserves_setSelectedTile t :
  preserves P (modify (withState (setSelectedTile t))).
Proof. apply preserves_modify. intros c. by apply (stable_state P HS). Qed.

Lemma preserves_setRowIndex i :
  preserves P (modify (withState (setRowIndex i))).
Proof. apply preserves_modify. intros c. by apply (stable_state P HS). Qed.

Lemma preserves_setColumnIndex i :
  preserves P (modify (withState (setColumnIndex i))).
Proof. apply preserves_modify. intros c. by apply (stable_state P HS). Qed.

Lemma preserves_modalSetAttribute name value :
  preserves P (modalSetAttribute name value).
Proof. apply preserves_modify. intros c. apply (stable_modal P HS). Qed.

Lemma preserves_setOpacity value : preserves P (setOpacity value).
Proof. apply preserves_modify. intros c. apply (stable_opacity P HS). Qed.

#[local] Hint Resolve preserves_tileSetAttribute preserves_setSelectedTile
  preserves_setRowIndex preserves_setColumnIndex preserves_modalSetAttribute
  preserves_setOpacity : keeps_db.

Lemma preserves_getCollectionElement i : preserves P (getCollectionElement i).
Proof. unfold getCollectionElement. keeps. Qed.

Lemma preserves_getCollectionLength : preserves P getCollectionLength.
Proof. unfold getCollectionLength. keeps. Qed.

#[local] Hint Resolve preserves_getCollectionElement preserves_getCollectionLength
  : keeps_db.

Lemma preserves_getTilesLength i : preserves P (getTilesLength i).
Proof. unfold getTilesLength. keeps. Qed.

Lemma preserves_updateSelectedTile col row sel :
  preserves P (updateSelectedTile col row sel).
Proof. unfold updateSelectedTile. keeps. Qed.

#[local] Hint Resolve preserves_getTilesLength preserves_updateSelectedTile
  : keeps_db.

Lemma preserves_updateSelectedRow new : preserves P (updateSelectedRow new).
Proof. unfold updateSelectedRow. keeps. Qed.

Lemma preserves_updateSelectedColumn new : preserves P (updateSelectedColumn new).
Proof. unfold updateSelectedColumn. keeps. Qed.

Lemma preserves_renderModal : preserves P (renderModal dateToString).
Proof. unfold renderModal. keeps. Qed.

#[local] Hint Resolve preserves_updateSelectedRow preserves_updateSelectedColumn
  preserves_renderModal : keeps_db.

Lemma preserves_handleKeyDown key : preserves P (handleKeyDown dateToString key).
Proof. unfold handleKeyDown. keeps. Qed.

End StableProperties.

Lemma tileCounts_alter row col name value rs :
  tileCounts (alter (setChildAttribute col name value) row rs) = tileCounts rs
  /\ map heading (alter (setChildAttribute col name value) row rs) = map heading rs
  /\ map vertical (alter (setChildAttribute col name value) row rs) = map vertical rs.
Proof.
  unfold tileCounts. revert row.
  induction rs as [|r rs IH]; intros [|row]; try done.
  - change (alter (setChildAttribute col name value) 0%nat (r :: rs))
      with (setChildAttribute col name value r :: rs).
    cbn [map setChildAttribute children heading vertical].
    by rewrite length_alter.
  - change (alter (setChildAttribute col name value) (S row) (r :: rs))
      with (r :: alter (setChildAttribute col name value) row rs).
    cbn [map]. destruct (IH row) as (-> & -> & ->). done.
Qed.

Lemma tileSetAttribute_cases row col name value c :
  let c1 := withRows (alter (setChildAttribute col name value) row (rows c)) c in
  snd (tileSetAttribute row col name value c)
  = emit (TileSetAttribute row col name value) c1
  \/ snd (tileSetAttribute row col name value c)
     = emit (TileAdjustScroll row col)
            (emit (TileSetAttribute row col name value) c1).
Proof.
  cbv zeta. unfold tileSetAttribute.
  destruct (match match tileAt (rows c) row col with
                  | Some e => e !! name
                  | None => None
                  end with
            | Some s => String.eqb s value
            | None => false
            end); [by left|].
  destruct (String.eqb name "is-selected" && String.eqb value "true");
    [by right|by left].
Qed.

Lemma Stable_keyFrame c0 : Stable (keyFrame c0).
Proof.
  constructor.
  - intros row col value c (H1 & H2 & H3 & H4 & H5 & H6 & H7 & H8 & H9).
    destruct (tileCounts_alter row col "is-selected" value (rows c))
      as (Ha & Hb & Hc).
    destruct (tileSetAttribute_cases row col "is-selected" value c) as [->| ->];
      unfold keyFrame; cbn [state mounted listening collectionsElement rows
                            effects emit withRows];
      rewrite ?filter_app, Ha, Hb, Hc; cbn [filter list_filter isRender];
      rewrite ?app_nil_r; done.
  - intros f c Hcs Hh (H1 & H2 & H3 & H4 & H5 & H6 & H7 & H8 & H9).
    unfold keyFrame. cbn [state mounted listening collectionsElement rows
                          effects withState].
    rewrite Hcs, Hh. done.
  - intros name value c (H1 & H2 & H3 & H4 & H5 & H6 & H7 & H8 & H9).
    unfold keyFrame, modalSet.
    cbn [state mounted listening collectionsElement rows effects emit withModal].
    rewrite filter_app. cbn [filter list_filter isRender].
    rewrite app_nil_r. done.
  - intros value c (H1 & H2 & H3 & H4 & H5 & H6 & H7 & H8 & H9).
    unfold keyFrame.
    cbn [state mounted listening collectionsElement rows effects emit withOpacity].
    rewrite filter_app. cbn [filter list_filter isRender].
    rewrite app_nil_r. done.
Qed.

Section KeyFrame.

Variable dateToString : Date -> string.

(** X13. No key press, in any state of the component and whether it throws
    or not, changes the catalog, the layout flag or the wiring, adds or
    removes a row or a tile, changes a row's heading or orientation, or
    rewrites the markup of the grid. *)
Theorem keydown_keeps_frame (c : Comp) (key : string) :
  keyFrame c (snd (handleKeyDown dateToString key c)).
Proof.
  apply (preserves_handleKeyDown dateToString (keyFrame c) (Stable_keyFrame c)).
  by repeat split.
Qed.

End KeyFrame.

(** ** The grid is a function of the state *)

Lemma mapEi_intro {A B} (f : A -> nat -> Exc B) (i0 : nat) xs ys :
  List.length ys = List.length xs ->
  (forall k x y, xs !! k = Some x -> ys !! k = Some y -> f x (i0 + k)%nat = Ok y) ->
  mapEi f i0 xs = Ok ys.
Proof.
  revert i0 ys. induction xs as [|x xs IH]; intros i0 [|y ys] Hlen H;
    simpl in Hlen; try done.
  simpl. rewrite <- (Nat.add_0_r i0) at 1. rewrite (H 0%nat x y); [|done|done].
  simpl. rewrite (IH (S i0) ys); [done|lia|].
  intros k x' y' Hx Hy. rewrite Nat.add_succ_comm. by apply H.
Qed.

Section RenderedProperties.

Variable dateToString : Date -> string.

Lemma renderTile_reselect h v b b' e0 :
  renderTile dateToString h v b = Ok e0 ->
  renderTile dateToString h v b'
  = Ok (<["is-selected" := boolToString b']> e0).
Proof.
  unfold renderTile. intros H.
  apply ebind_Ok in H as (t & Ht & H). apply ebind_Ok in H as (a & Ha & H).
  apply ebind_Ok in H as (g & Hg & H). injection H as <-.
  rewrite Ht. simpl. rewrite Ha. simpl. rewrite Hg. simpl. apply f_equal.
  rewrite (insert_insert_ne _ "is-selected" "title") by done.
  rewrite (insert_insert_ne _ "is-selected" "action-text") by done.
  rewrite (insert_insert_ne _ "is-selected" "layout") by done.
  rewrite (insert_insert_ne _ "is-selected" "image") by done.
  by rewrite insert_insert_eq.
Qed.

Lemma render_templated s cs rs :
  mapEi (renderRow dateToString s) 0%nat cs = Ok rs ->
  Forall2 (rowFrom dateToString (isHorizontal s)) cs rs.
Proof.
  intros H. apply mapEi_lookup in H as [Hlen Hk].
  apply Forall2_same_length_lookup. split; [done|].
  intros k x r Hx Hr. destruct (Hk _ _ Hx) as (r' & Hr' & Hrow).
  assert (r' = r) as -> by congruence. unfold renderRow in Hrow.
  apply ebind_Ok in Hrow as (title & Ht & Hrow).
  apply ebind_Ok in Hrow as (views & Hviews & Hrow).
  apply ebind_Ok in Hrow as (tiles & Htiles & Hrow). injection Hrow as <-.
  destruct (Collection.views x) as [views'|] eqn:Hv; [|discriminate].
  injection Hviews as ->.
  split; [exact Ht|]. split; [reflexivity|]. exists views. split; [done|].
  cbn [children]. apply mapEi_lookup in Htiles as [Hlen' Hj].
  apply Forall2_same_length_lookup. split; [done|].
  intros j v e Hv' He. destruct (Hj _ _ Hv') as (e' & He' & Htile).
  assert (e' = e) as -> by congruence.
  eexists _, e. split; [exact Htile|done].
Qed.

Lemma templated_rendered s cs rs :
  Forall2 (rowFrom dateToString (isHorizontal s)) cs rs ->
  marked (selectedRowIndex s) (selectedColumnIndex s) rs ->
  mapEi (renderRow dateToString s) 0%nat cs = Ok rs.
Proof.
  intros Hfrom Hmarked. apply mapEi_intro.
  { symmetry. by eapply Forall2_length. }
  intros k x r Hx Hr. cbn [Nat.add].
  destruct (Forall2_lookup_lr _ _ _ _ _ _ Hfrom Hx Hr)
    as (Ht & Hv & views & Hviews & Htiles).
  unfold renderRow. rewrite Ht. cbn [ebind]. rewrite Hviews. cbn [ebind].
  rewrite (mapEi_intro _ 0%nat views (children r)).
  { cbn [ebind]. rewrite <- Hv. by destruct r. }
  { symmetry. by eapply Forall2_length. }
  intros j v e Hv' He. cbn [Nat.add].
  destruct (Forall2_lookup_lr _ _ _ _ _ _ Htiles Hv' He) as (b & e0 & Hren & Hdel).
  rewrite (renderTile_reselect _ _ _ _ _ Hren). f_equal.
  rewrite <- insert_delete_eq, <- Hdel. apply insert_delete_id.
  apply Hmarked. unfold tileAtZ. rewrite at_of_nat, Hr. by rewrite at_of_nat.
Qed.

Lemma Stable_templated : Stable (templated dateToString).
Proof.
  constructor.
  - intros row col value c H.
    assert (Hgoal : Forall2 (rowFrom dateToString (isHorizontal (state c)))
                      (collections (state c))
                      (alter (setChildAttribute col "is-selected" value) row (rows c))).
    { apply Forall2_alter_r; [exact H|].
      intros x r _ _ (Ht & Hv & views & Hviews & Htiles).
      split; [exact Ht|]. split; [exact Hv|]. exists views. split; [done|].
      cbn [setChildAttribute children]. apply Forall2_alter_r; [exact Htiles|].
      intros v e _ _ (b & e0 & Hren & Hdel). exists b, e0. split; [done|].
      by rewrite delete_insert_eq. }
    by destruct (tileSetAttribute_cases row col "is-selected" value c) as [->| ->].
  - intros f c Hcs Hh H. unfold templated in *.
    cbn [state rows withState]. by rewrite Hcs, Hh.
  - by intros name value c H.
  - by intros value c H.
Qed.

Lemma dispatch_templated c e :
  Inv c -> templated dateToString c ->
  templated dateToString (dispatch dateToString c e).
Proof.
  intros HI H. unfold dispatch. destruct (listening c); [|done].
  destruct e as [key|].
  - by apply (preserves_handleKeyDown dateToString _ Stable_templated).
  - destruct (toggleHandler_run dateToString c HI)
      as (c' & rs & -> & _ & Hst & Hrs & Hrows & _).
    unfold templated. cbn [snd]. rewrite Hrows. by apply render_templated.
Qed.

Lemma run_templated c events :
  Inv c -> templated dateToString c ->
  templated dateToString (run dateToString c events).
Proof.
  revert c. induction events as [|e events IH]; intros c HI H; [done|].
  unfold run. simpl. apply IH; [by apply dispatch_Inv|by apply dispatch_templated].
Qed.



Lemma dispatch_toggle c :
  Inv c -> listening c = true ->
  exists c',
    dispatch dateToString c ToggleClick = c' /\
    Inv c' /\ listening c' = true /\
    state c' = setIsHorizontal (negb (isHorizontal (state c))) (state c) /\
    rendered dateToString c' /\
    modal c' = modal c /\ opacity c' = opacity c.
Proof.
  intros HI Hl. unfold dispatch. rewrite Hl.
  destruct (toggleHandler_run dateToString c HI)
    as (c' & rs & Heq & HI' & Hst & Hrs & Hrows & _ & Hm & Ho & _ & Hl' & _).
  rewrite Heq. exists c'. cbn [snd]. split; [done|].
  split; [exact HI'|]. split; [congruence|]. split; [exact Hst|].
  split; [|done]. unfold rendered. by rewrite Hrows.
Qed.

End RenderedProperties.

Section ReachableRendered.

Variables (API_HUB_URL PROXY logo : string).
Variable fetch : string -> Exc Response.
Variable imageLoads : string -> bool.
Variable dateToString : Date -> string.

Lemma started_templated :
  let c := started API_HUB_URL PROXY logo fetch imageLoads dateToString in
  listening c = true -> templated dateToString c.
Proof.
  cbv zeta. unfold started, connectedCallback, render, addEventListeners,
    renderCollections, bind, modify, gets.
  destruct (fetchData_run API_HUB_URL PROXY logo fetch imageLoads constructed)
    as (fetched & _ & ->).
  generalize (map (attached PROXY logo fetch imageLoads) fetched). intros cs.
  comp_cbn.
  destruct (mapEi _ 0%nat cs) as [rs|e] eqn:Hrs; [|discriminate].
  comp_cbn. intros _.
  apply render_templated in Hrs. cbn [isHorizontal appendCollections] in Hrs.
  destruct cs as [|x cs]; [exact Hrs|].
  change (at_ (x :: cs) 0) with (Some x). cbn [defined ret].
  destruct (Collection.views x); exact Hrs.
Qed.


End ReachableRendered.

Section KeysRendered.

Variable dateToString : Date -> string.

(** X14. The in-place updates of the selection mark made by the arrows
    never drift from the state: from a state in step with the catalog
    ([Inv]) whose grid is what [renderCollections] makes of the state,
    after any sequence of keys the grid is exactly what rendering the state
    reached from scratch gives. *)
Theorem grid_is_rendered_state (c0 : Comp) (keys : list string) :
  let c := pressed dateToString c0 keys in
  Inv c0 -> rendered dateToString c0 -> rendered dateToString c.
Proof.
  intros c HI0 Hren.
  destruct (pressed_Inv dateToString c0 keys HI0) as [HI _]. fold c in HI.
  assert (Ht : templated dateToString c).
  { apply run_templated; [exact HI0|]. by apply render_templated. }
  apply templated_rendered; [exact Ht|apply (inv_marked c HI)].
Qed.



Lemma sameTilesBut_refl name rs : sameTilesBut name rs rs.
Proof.
  apply Forall2_same_length_lookup. split; [done|].
  intros i r r' Hr Hr'. assert (r' = r) as -> by congruence.
  split; [done|]. split; [done|].
  apply Forall2_same_length_lookup. split; [done|].
  intros j e e' He He'. congruence.
Qed.

Lemma Stable_sameTilesBut c0 :
  Stable (fun c => sameTilesBut "is-selected" (rows c0) (rows c)
                   /\ collections (state c) = collections (state c0)
                   /\ isHorizontal (state c) = isHorizontal (state c0)).
Proof.
  constructor.
  - intros row col value c (H & Hcs & Hh).
    assert (Hgoal : sameTilesBut "is-selected" (rows c0)
                      (alter (setChildAttribute col "is-selected" value) row (rows c))).
    { apply Forall2_alter_r; [exact H|].
      intros r r' _ _ (Hhd & Hv & Htiles).
      split; [exact Hhd|]. split; [exact Hv|].
      cbn [setChildAttribute children]. apply Forall2_alter_r; [exact Htiles|].
      intros e e' _ _ Hdel. by rewrite delete_insert_eq. }
    by destruct (tileSetAttribute_cases row col "is-selected" value c) as [->| ->].
  - intros f c Hcs Hh (H & Hcs' & Hh'). cbn [state rows withState].
    split; [exact H|]. split; congruence.
  - by intros name value c H.
  - by intros value c H.
Qed.

Lemma pressed_templated c keys :
  templated dateToString c -> templated dateToString (pressed dateToString c keys).
Proof.
  revert c. induction keys as [|key keys IH]; intros c Ht; [exact Ht|].
  unfold pressed, run. cbn [map fold_left]. apply IH.
  unfold dispatch. destruct (listening c); [|exact Ht].
  by apply (preserves_handleKeyDown dateToString _ (Stable_templated dateToString)).
Qed.

Lemma pressed_sameTilesBut c0 c keys :
  sameTilesBut "is-selected" (rows c0) (rows c)
  /\ collections (state c) = collections (state c0)
  /\ isHorizontal (state c) = isHorizontal (state c0) ->
  sameTilesBut "is-selected" (rows c0) (rows (pressed dateToString c keys))
  /\ collections (state (pressed dateToString c keys)) = collections (state c0)
  /\ isHorizontal (state (pressed dateToString c keys)) = isHorizontal (state c0).
Proof.
  revert c. induction keys as [|key keys IH]; intros c H; [exact H|].
  unfold pressed, run. cbn [map fold_left]. apply IH.
  unfold dispatch. destruct (listening c); [|exact H].
  by apply (preserves_handleKeyDown dateToString _ (Stable_sameTilesBut c0)).
Qed.

(** X16. In every state, no sequence of keys changes the collections, the
    layout flag, a heading, the orientation of a row, or any attribute of
    a tile other than [is-selected]. Hence a grid whose tiles carry the
    layout, the image, the date and the logo of the items at their
    positions for the layout flag keeps doing so under the keys. *)
Theorem tiles_follow_layout (c0 : Comp) (keys : list string) :
  let c := pressed dateToString c0 keys in
  let h := isHorizontal (state c) in
  sameTilesBut "is-selected" (rows c0) (rows c)
  /\ collections (state c) = collections (state c0)
  /\ h = isHorizontal (state c0)
  /\ (templated dateToString c0 ->
      (forall i r, at_ (rows c) i = Some r -> vertical r = negb h)
      /\ (forall i j e v,
            tileAtZ (rows c) i j = Some e ->
            viewAt (collections (state c)) i j = Some v ->
            e !! "layout" = Some (if h then "horizontal" else "vertical") /\
            e !! "image" = Some (if h then View.horizontalImage v
                                 else View.verticalImage v) /\
            e !! "date" = Some (dateToString (View.date v)) /\
            e !! "logo" = Some (brandingLogo (View.branding v)))).
Proof.
  intros c h.
  destruct (pressed_sameTilesBut c0 c0 keys) as (Hsame & Hcs & Hh).
  { split; [apply sameTilesBut_refl|done]. }
  fold c in Hsame, Hcs, Hh. fold h in Hh.
  split; [exact Hsame|]. split; [exact Hcs|]. split; [exact Hh|].
  intros Ht0.
  pose proof (pressed_templated c0 keys Ht0) as Ht. fold c in Ht.
  unfold templated in Ht. fold h in Ht. split.
  - intros i r Hr. apply at_Some in Hr as [_ Hr].
    destruct (Forall2_lookup_r _ _ _ _ _ Ht Hr) as (x & _ & (_ & Hv & _)). exact Hv.
  - intros i j e v He Hv. unfold tileAtZ in He. unfold viewAt in Hv.
    destruct (at_ (rows c) i) as [r|] eqn:Hr; [|discriminate].
    destruct (at_ (collections (state c)) i) as [x|] eqn:Hx; [|discriminate].
    apply at_Some in Hr as [_ Hr]. apply at_Some in Hx as [_ Hx].
    destruct (Forall2_lookup_lr _ _ _ _ _ _ Ht Hx Hr)
      as (_ & _ & views & Hviews & Htiles).
    rewrite Hviews in Hv. apply at_Some in He as [_ He]. apply at_Some in Hv as [_ Hv].
    destruct (Forall2_lookup_lr _ _ _ _ _ _ Htiles Hv He) as (b & e0 & Hren & Hdel).
    assert (Hk : forall k, k <> "is-selected" -> e !! k = e0 !! k).
    { intros k Hne.
      rewrite <- (lookup_delete_ne e "is-selected" k) by done.
      rewrite Hdel. by apply lookup_delete_ne. }
    rewrite !Hk by done. clear Hk Hdel.
    unfold renderTile in Hren.
    apply ebind_Ok in Hren as (t & _ & Hren). apply ebind_Ok in Hren as (a & _ & Hren).
    apply ebind_Ok in Hren as (g & _ & Hren). injection Hren as <-.
    cbn [list_to_map foldr uncurry fst snd].
    repeat split;
      repeat (rewrite lookup_insert_ne by done); by rewrite lookup_insert_eq.
Qed.

End KeysRendered.

(** ** What a move does to the tiles *)








Section MoveEffects.

Variable dateToString : Date -> string.


End MoveEffects.

(** ** Start-up on an empty catalog *)

Section EmptyKeys.

Variable dateToString : Date -> string.

Lemma handleKeyDown_Enter_unbound c :
  overlayClosed c -> selectedTile (state c) = None ->
  handleKeyDown dateToString "Enter" c = (Throw TypeError, c).
Proof.
  intros Hc Hnone. rewrite (handleKeyDown_open dateToString c _ Hc).
  cbn [String.eqb Ascii.eqb Bool.eqb].
  unfold renderModal, bind, gets. cbv beta iota. by rewrite Hnone.
Qed.

Lemma inert_key c key :
  inert c -> key <> "Escape" -> dispatch dateToString c (KeyDown key) = c.
Proof.
  intros (Hl & _ & _ & Ht & _ & Hr & Hc) Hkey. unfold dispatch. rewrite Hl.
  destruct (in_dec String.string_dec key
              ["ArrowUp"; "ArrowDown"; "ArrowLeft"; "ArrowRight"]) as [Hin|Hnot].
  { by apply handleKeyDown_arrow_empty. }
  destruct (String.eqb_spec key "Enter") as [->|Hent].
  { by rewrite handleKeyDown_Enter_unbound. }
  rewrite handleKeyDown_other; [done|done|].
  unfold handledKeys. simpl. simpl in Hnot. intuition congruence.
Qed.

Lemma inert_dispatch c e : Inv c -> inert c -> inert (dispatch dateToString c e).
Proof.
  intros HI Hin. pose proof Hin as (Hl & Hrow & Hcol & Ht & Hcs & Hr & Hc).
  destruct e as [key|].
  - destruct (String.eqb_spec key "Escape") as [->|Hkey];
      [|by rewrite inert_key].
    unfold dispatch. rewrite Hl.
    rewrite handleKeyDown_Escape by apply Hc. cbn [snd].
    repeat split; try done; [apply Hc|].
    unfold attrIs. cbn [modal emit withOpacity withModal].
    by rewrite lookup_insert_eq.
  - destruct (dispatch_toggle dateToString c HI Hl)
      as (c' & -> & HI' & Hl' & Hst & Hren & Hm & _).
    pose proof (Inv_rows_length c' HI') as Hlen.
    rewrite Hst in Hlen. cbn [collections setIsHorizontal] in Hlen.
    rewrite Hcs in Hlen.
    repeat split; try (rewrite Hst; done); try done.
    + by destruct (rows c').
    + apply (inv_mounted c' HI').
    + rewrite Hm. apply Hc.
Qed.

Lemma inert_run c events :
  Inv c -> inert c ->
  Inv (run dateToString c events) /\ inert (run dateToString c events).
Proof.
  revert c. induction events as [|e events IH]; intros c HI Hin; [done|].
  unfold run. simpl. apply IH; [by apply dispatch_Inv|by apply inert_dispatch].
Qed.

End EmptyKeys.

Section EmptyCatalog.

Variables (API_HUB_URL PROXY logo : string).
Variable fetch : string -> Exc Response.
Variable imageLoads : string -> bool.
Variable dateToString : Date -> string.

(** X18. When retrieval yields no collection, start-up wires the handlers
    and then throws on reading the first item of the first collection.
    From then on the cursor stays at the origin, no record is ever bound,
    the grid has no row, the overlay never opens, and every key but Escape
    leaves the component exactly as it is. *)
Theorem empty_catalog_inert (events : list Event) :
  getCollections API_HUB_URL fetch = Ok [] ->
  let c0 := started API_HUB_URL PROXY logo fetch imageLoads dateToString in
  let c := run dateToString c0 events in
  fst (connectedCallback API_HUB_URL PROXY logo fetch imageLoads dateToString
         constructed) = Throw TypeError
  /\ inert c
  /\ ~ overlayOpen c
  /\ (forall key, key <> "Escape" -> dispatch dateToString c (KeyDown key) = c).
Proof.
  intros Hempty c0 c.
  assert (Hstart : fst (connectedCallback API_HUB_URL PROXY logo fetch imageLoads
                          dateToString constructed) = Throw TypeError
                   /\ inert c0).
  { subst c0. unfold started, connectedCallback, render, addEventListeners,
      renderCollections, bind, modify, gets.
    destruct (fetchData_run API_HUB_URL PROXY logo fetch imageLoads constructed)
      as (fetched & Hf & ->).
    assert (fetched = []) as -> by congruence.
    cbn. split; [reflexivity|]. repeat split. }
  destruct Hstart as [Hthrow Hin0]. split; [exact Hthrow|].
  assert (HI0 : Inv c0).
  { apply started_Inv. apply Hin0. }
  destruct (inert_run dateToString c0 events HI0 Hin0) as [HI Hin].
  fold c in HI, Hin. split; [exact Hin|]. split.
  - destruct Hin as (_ & _ & _ & _ & _ & _ & _ & Hc).
    intros [_ Ho]. unfold attrIs in Hc. by rewrite Ho in Hc.
  - intros key Hkey. by apply (inert_key dateToString).
Qed.

End EmptyCatalog.

(** ** The overlay element *)

Section ModalFacts.

Import Modal.

Variable yearOf : option string -> string.

Lemma setAttribute_cases name value m :
  let m1 := withAttrs (<[name := value]> (attrs m)) m in
  (name = "is-open" /\
   setAttribute yearOf name value m
   = if sameValue (attrs m !! name) (Some value) then m1
     else withShow (String.eqb value "true") m1)
  \/ (In name contentAttributes /\
      setAttribute yearOf name value m
      = if sameValue (attrs m !! name) (Some value) then m1
        else updateModal yearOf m1)
  \/ (name <> "is-open" /\ ~ In name contentAttributes /\
      setAttribute yearOf name value m = m1).
Proof.
  cbv zeta. unfold setAttribute, attributeChangedCallback, observedAttributes,
    contentAttributes.
  cbn [existsb In sameValue].
  destruct (String.eqb_spec name "is-open") as [->|H0]; cbn [orb]; [by left|].
  right.
  repeat (match goal with |- context [String.eqb name ?s] =>
            destruct (String.eqb_spec name s) as [->|?]; cbn [orb];
            [left; split; [tauto|reflexivity]|] end).
  right. split; [done|]. split; [|reflexivity]. intuition congruence.
Qed.

Lemma sameValue_Some a value :
  sameValue a (Some value) = true -> a = Some value.
Proof.
  destruct a as [s|]; [|discriminate]. cbn [sameValue].
  by intros ->%String.eqb_eq.
Qed.


Lemma setAttribute_follows name value m :
  follows yearOf m -> follows yearOf (setAttribute yearOf name value m).
Proof.
  unfold follows. intros [Hshow Hview].
  destruct (setAttribute_cases name value m)
    as [[-> ->]|[[Hin ->]|(Hopen & Hnot & ->)]].
  - assert (Hkeep : forall n, In n contentAttributes ->
              <["is-open" := value]> (attrs m) !! n = attrs m !! n).
    { intros n Hn. apply lookup_insert_ne. intros <-.
      unfold contentAttributes in Hn. simpl in Hn. intuition discriminate. }
    assert (Hview' : forall b,
      untouched (withShow b (withAttrs (<["is-open" := value]> (attrs m)) m))
      \/ tracked yearOf (withShow b (withAttrs (<["is-open" := value]> (attrs m)) m))).
    { intros b. destruct Hview as [[Hnone Hconn]|Ht]; [left|right].
      - split; [|exact Hconn]. intros n Hn. cbn [attrs withShow withAttrs].
        rewrite Hkeep by done. by apply Hnone.
      - unfold tracked in *. cbn [attrs withShow withAttrs imageSrc titleText
          actionText ratingText genreText dateText descriptionText].
        rewrite !Hkeep by (unfold contentAttributes; simpl; tauto). exact Ht. }
    destruct (sameValue (attrs m !! "is-open") (Some value)) eqn:Hsame.
    + apply sameValue_Some in Hsame. split.
      * cbn [show attrs withAttrs]. rewrite Hshow. unfold attrIs.
        by rewrite Hsame, lookup_insert_eq.
      * destruct m. apply (Hview' show0).
    + split; [|apply Hview'].
      cbn [show attrs withShow withAttrs]. unfold attrIs.
      by rewrite lookup_insert_eq.
  - assert (Hne : name <> "is-open").
    { intros ->. unfold contentAttributes in Hin. simpl in Hin.
      intuition discriminate. }
    destruct (sameValue (attrs m !! name) (Some value)) eqn:Hsame.
    + apply sameValue_Some in Hsame.
      rewrite (insert_id _ _ _ Hsame). by destruct m.
    + split.
      * cbn [show attrs withAttrs updateModal]. rewrite Hshow. unfold attrIs.
        by rewrite lookup_insert_ne.
      * right. by repeat split.
  - assert (Hkeep : forall n, In n contentAttributes ->
              <[name := value]> (attrs m) !! n = attrs m !! n).
    { intros n Hn. apply lookup_insert_ne. by intros <-. }
    split.
    + cbn [show attrs withAttrs]. rewrite Hshow. unfold attrIs.
      by rewrite lookup_insert_ne.
    + destruct Hview as [[Hnone Hconn]|Ht]; [left|right].
      * split; [|exact Hconn]. intros n Hn. cbn [attrs withAttrs].
        rewrite Hkeep by done. by apply Hnone.
      * unfold tracked in *. cbn [attrs withAttrs imageSrc titleText
          actionText ratingText genreText dateText descriptionText].
        rewrite !Hkeep by (unfold contentAttributes; simpl; tauto). exact Ht.
Qed.

Lemma connected_follows : follows yearOf connected.
Proof.
  split; [reflexivity|]. left. split; [|reflexivity].
  intros n _. apply lookup_empty.
Qed.

Lemma follows_tracked m :
  follows yearOf m ->
  (exists name, In name contentAttributes /\ is_Some (attrs m !! name)) ->
  tracked yearOf m.
Proof.
  intros [_ Hview] (name & Hin & [s Hs]).
  destruct Hview as [[Hnone _]|Ht]; [|exact Ht].
  rewrite (Hnone name Hin) in Hs. discriminate.
Qed.


(** X19. Whatever attributes are set on the overlay element, in whatever
    order, it shows exactly when [is-open] reads [true], and once a content
    attribute has been set its image and each of its texts are those of
    the current attributes. *)
Theorem modal_follows_attributes (sets : list (string * string)) :
  let m := fold_left (fun m s => setAttribute yearOf (fst s) (snd s) m) sets connected in
  show m = attrIs (attrs m) "is-open" "true"
  /\ (untouched m \/ tracked yearOf m)
  /\ ((exists name, In name contentAttributes /\ is_Some (attrs m !! name)) ->
      tracked yearOf m).
Proof.
  cbv zeta.
  assert (Hgen : forall m,
    follows yearOf m ->
    follows yearOf (fold_left (fun m s => setAttribute yearOf (fst s) (snd s) m) sets m)).
  { induction sets as [|[name value] sets IH]; intros m Hm; [exact Hm|].
    cbn [fold_left fst snd]. by apply IH, setAttribute_follows. }
  pose proof (Hgen connected connected_follows) as Hf.
  split; [apply Hf|]. split; [apply Hf|]. by apply follows_tracked.
Qed.

End ModalFacts.

(** ** The overlay element under the component *)

Section OverlayElement.

Variable yearOf : option string -> string.



Variable dateToString : Date -> string.



End OverlayElement.

Section ReachableOverlayElement.

Variables (API_HUB_URL PROXY logo : string).
Variable fetch : string -> Exc Response.
Variable imageLoads : string -> bool.
Variable dateToString : Date -> string.
Variable yearOf : option string -> string.



End ReachableOverlayElement.

(** ** The layout switch under the component *)

Section SwitchProperties.

Variable dateToString : Date -> string.




End SwitchProperties.

Section ReachableSwitch.

Variables (API_HUB_URL PROXY logo : string).
Variable fetch : string -> Exc Response.
Variable imageLoads : string -> bool.
Variable dateToString : Date -> string.



End ReachableSwitch.

(** ** The tile element *)

Section TileFacts.

Import Tile.

Lemma tile_setAttribute_cases name value s :
  let s1 := withAttrs (<[name := value]> (attrs s)) s in
  (name = "is-selected" /\
   setAttribute name value s
   = if sameValue (attrs s !! name) (Some value) then s1
     else updateSelection (String.eqb value "true") s1)
  \/ (name <> "is-selected" /\ setAttribute name value s = s1).
Proof.
  cbv zeta. unfold setAttribute, attributeChangedCallback, observedAttributes.
  cbn [existsb sameValue].
  destruct (String.eqb_spec name "is-selected") as [->|Hne].
  - left. split; [done|]. reflexivity.
  - right. split; [done|].
    destruct (_ || _); [|reflexivity]. by destruct (sameValue _ _).
Qed.

Lemma tile_setAttribute_consistent name value s :
  consistent s -> consistent (setAttribute name value s).
Proof.
  intros (Hr & H1 & H2 & H3 & H4).
  destruct (tile_setAttribute_cases name value s) as [[-> ->]|[Hne ->]].
  - destruct (sameValue (attrs s !! "is-selected") (Some value)) eqn:Hsame.
    + apply sameValue_Some in Hsame. rewrite (insert_id _ _ _ Hsame). by destruct s.
    + unfold updateSelection, consistent.
      cbn [rendered withAttrs attrs tileSelected titleSelected subtitleSelected
           imageSelected]. rewrite Hr. cbn [negb].
      cbn [rendered withAttrs attrs tileSelected titleSelected subtitleSelected
           imageSelected]. unfold attrIs. rewrite lookup_insert_eq. done.
  - unfold consistent in *.
    cbn [rendered withAttrs attrs tileSelected titleSelected subtitleSelected
         imageSelected]. unfold attrIs in *. by rewrite lookup_insert_ne.
Qed.

(** X22. A tile whose shadow tree is filled and whose selection marks
    agree with its [is-selected] attribute stays so whatever attributes
    are set on it afterwards: its three selection classes and the mark of
    its image all say whether [is-selected] reads [true]. It scrolls
    itself into view once for each change of [is-selected] to [true], and
    never otherwise. While its shadow tree is empty, setting an attribute
    changes that attribute and nothing else. *)
Theorem tile_marks_follow_attribute (s0 : Tile.t) (sets : list (string * string)) :
  let s := fold_left (fun s x => setAttribute (fst x) (snd x) s) sets s0 in
  consistent s0 ->
  consistent s
  /\ (forall name value,
        scrolls (setAttribute name value s)
        = if String.eqb name "is-selected" && String.eqb value "true"
             && negb (attrIs (attrs s) "is-selected" "true")
          then S (scrolls s) else scrolls s)
  /\ (forall u name value,
        rendered u = false ->
        setAttribute name value u = withAttrs (<[name := value]> (attrs u)) u).
Proof.
  cbv zeta. intros H0.
  assert (Hs : consistent
                 (fold_left (fun s x => setAttribute (fst x) (snd x) s) sets s0)).
  { revert H0. generalize s0.
    induction sets as [|[name value] sets IH]; intros s Hs; [exact Hs|].
    cbn [fold_left fst snd]. by apply IH, tile_setAttribute_consistent. }
  split; [exact Hs|]. split.
  - intros name value.
    set (s := fold_left _ sets _) in *. destruct Hs as (Hr & _).
    destruct (tile_setAttribute_cases name value s) as [[-> ->]|[Hne ->]].
    + cbn [String.eqb Ascii.eqb Bool.eqb andb]. unfold attrIs.
      destruct (attrs s !! "is-selected") as [old|]; cbn [sameValue].
      * destruct (String.eqb_spec old value) as [->|Hne].
        -- destruct (String.eqb value "true"); reflexivity.
        -- unfold updateSelection. cbn [rendered withAttrs]. rewrite Hr. cbn [negb].
           destruct (String.eqb_spec value "true") as [->|Hv]; cbn [scrolls withAttrs].
           ++ apply String.eqb_neq in Hne. by rewrite Hne.
           ++ reflexivity.
      * unfold updateSelection. cbn [rendered withAttrs]. rewrite Hr. cbn [negb].
        by destruct (String.eqb value "true").
    + apply String.eqb_neq in Hne. rewrite Hne. reflexivity.
  - intros u name value Hu.
    destruct (tile_setAttribute_cases name value u) as [[-> ->]|[_ ->]];
      [|reflexivity].
    destruct (sameValue _ _); [reflexivity|].
    unfold updateSelection. cbn [rendered withAttrs]. by rewrite Hu.
Qed.

(** X23. The grid component's account of a tile agrees with the tile
    element: setting an attribute on the tile at a position leaves the
    attributes the element has after the same call, and the component
    records a scroll exactly when the element scrolls. *)
Theorem grid_tile_agrees (c : Comp) (row col : nat) (name value : string)
                         (e : Element) (s : Tile.t) :
  tileAt (rows c) row col = Some e ->
  attrs s = e -> rendered s = true ->
  let c' := snd (tileSetAttribute row col name value c) in
  let s' := setAttribute name value s in
  tileAt (rows c') row col = Some (attrs s')
  /\ effects c'
     = (effects c ++ TileSetAttribute row col name value
                     :: repeat (TileAdjustScroll row col) (scrolls s' - scrolls s))%list.
Proof.
  intros He Ha Hr. cbv zeta.
  assert (Hattrs : attrs (setAttribute name value s) = <[name := value]> e).
  { destruct (tile_setAttribute_cases name value s) as [[-> ->]|[_ ->]];
      [|by rewrite <- Ha].
    destruct (sameValue _ _); [by rewrite <- Ha|].
    unfold updateSelection. cbn [rendered withAttrs]. rewrite Hr. cbn [negb attrs].
    by rewrite Ha. }
  assert (Hrows :
            tileAt (alter (setChildAttribute col name value) row (rows c)) row col
            = Some (<[name := value]> e)).
  { unfold tileAt in *. rewrite list_lookup_alter_eq.
    destruct (rows c !! row) as [r|]; [|discriminate].
    cbn [fmap option_fmap option_map setChildAttribute children].
    rewrite list_lookup_alter_eq, He. done. }
  split.
  - rewrite Hattrs.
    destruct (tileSetAttribute_cases row col name value c) as [->| ->];
      cbn [rows emit withRows]; by apply Hrows.
  - unfold tileSetAttribute. rewrite He.
    destruct (tile_setAttribute_cases name value s) as [[-> ->]|[Hne ->]].
    + rewrite Ha. cbn [String.eqb Ascii.eqb Bool.eqb andb].
      destruct (e !! "is-selected") as [old|]; cbn [sameValue].
      * destruct (String.eqb old value); cbn [snd effects emit withRows scrolls withAttrs].
        -- by rewrite Nat.sub_diag.
        -- unfold updateSelection. cbn [rendered withAttrs]. rewrite Hr. cbn [negb].
           destruct (String.eqb value "true");
             cbn [snd effects emit withRows scrolls withAttrs].
           ++ replace (S (scrolls s) - scrolls s)%nat with 1%nat by lia.
              cbn [repeat]. by rewrite <- app_assoc.
           ++ by rewrite Nat.sub_diag.
      * unfold updateSelection. cbn [rendered withAttrs]. rewrite Hr. cbn [negb].
        destruct (String.eqb value "true");
          cbn [snd effects emit withRows scrolls withAttrs].
        -- replace (S (scrolls s) - scrolls s)%nat with 1%nat by lia.
           cbn [repeat]. by rewrite <- app_assoc.
        -- by rewrite Nat.sub_diag.
    + apply String.eqb_neq in Hne. rewrite Hne. cbn [andb].
      cbn [scrolls withAttrs]. rewrite Nat.sub_diag. cbn [repeat].
      by destruct (match e !! name with Some s0 => String.eqb s0 value | None => false end).
Qed.

End TileFacts.

(** ** The outcome of start-up *)

Section StartupOutcome.

Variables (API_HUB_URL PROXY logo : string).
Variable fetch : string -> Exc Response.
Variable imageLoads : string -> bool.
Variable dateToString : Date -> string.



End StartupOutcome.

(** ** The listeners *)

Section WiringFacts.

Import Wiring.

Lemma Fn_eqb_eq f g : Fn_eqb f g = true <-> f = g.
Proof.
  revert g. induction f as [a|f IH a|a]; intros [b|g b|b]; simpl;
    try (split; [discriminate|congruence]).
  - rewrite String.eqb_eq. split; congruence.
  - rewrite andb_true_iff, IH, Nat.eqb_eq. split; [intros [-> ->]; done|].
    intros [= -> ->]. done.
  - rewrite Nat.eqb_eq. split; congruence.
Qed.

Lemma filter_keeps_all {A} (p : A -> bool) l :
  Forall (fun x => p x = true) l -> List.filter p l = l.
Proof.
  induction 1 as [|x l Hx _ IH]; simpl; [done|]. by rewrite Hx, IH.
Qed.

Lemma disconnected_keeps w :
  wellFormed w ->
  keydown (disconnected w) = keydown w /\ click (disconnected w) = click w.
Proof.
  intros [Hk Hc]. unfold disconnected. cbn [keydown click removeEventListener]. split.
  - apply filter_keeps_all. eapply Forall_impl; [exact Hk|].
    intros f (k & -> & _). reflexivity.
  - destruct (toggleHandler w) as [f|]; [|done].
    destruct Hc as [->|(j & -> & _ & Hne)]; [done|].
    unfold removeEventListener. cbn [List.filter].
    destruct (Fn_eqb f (Arrow j)) eqn:Heq; cbn [negb]; [|done].
    by apply Fn_eqb_eq in Heq.
Qed.

Lemma connected_keydown w :
  wellFormed w ->
  keydown (connected w)
  = (keydown w ++ [Bound (Method "handleKeyDown") (S (serial w))])%list.
Proof.
  intros [Hk _]. unfold connected, addEventListeners, switchConnected, addEventListener.
  cbn [keydown serial].
  destruct (existsb _ (keydown w)) eqn:Hex; [|done].
  apply existsb_exists in Hex as (f & Hin & Heq). apply Fn_eqb_eq in Heq. subst f.
  rewrite Forall_forall in Hk. apply list_elem_of_In, Hk in Hin as (k & [= <-] & Hlt).
  lia.
Qed.

Lemma step_wellFormed w e : wellFormed w -> wellFormed (step w e).
Proof.
  intros Hw. destruct e; cbn [step].
  - split.
    + rewrite (connected_keydown w Hw). destruct Hw as [Hk _].
      apply Forall_app. split.
      * eapply Forall_impl; [exact Hk|]. intros f (k & -> & Hlt).
        exists k. split; [done|]. cbn. lia.
      * constructor; [|constructor]. eexists. split; [done|]. cbn. lia.
    + right. exists (serial w). cbn. split; [done|]. split; [lia|].
      intros [= H]. lia.
  - destruct (disconnected_keeps w Hw) as [Hk Hc]. destruct Hw as [Hwk Hwc].
    split; [by rewrite Hk|]. rewrite Hc. exact Hwc.
Qed.

(** X25. Removing the grid component from the document removes no
    listener: [disconnectedCallback] names the method where the listener
    is a bound copy of it, and the switch names its [toggleHandler] where
    the listener is its own wrapper. Through any sequence of connections
    and disconnections the document therefore holds one keydown listener
    for each connection made so far. *)
Theorem disconnect_removes_no_listener (lives : list Wiring.Life) :
  let w := fold_left step lives initial in
  keydown (disconnected w) = keydown w
  /\ click (disconnected w) = click w
  /\ List.length (keydown w) = connects lives.
Proof.
  cbv zeta.
  assert (Hgen : forall w0,
            wellFormed w0 ->
            wellFormed (fold_left step lives w0)
            /\ List.length (keydown (fold_left step lives w0))
               = (List.length (keydown w0) + connects lives)%nat).
  { induction lives as [|e lives IH]; intros w0 Hw0.
    - split; [done|]. unfold connects. simpl. lia.
    - cbn [fold_left]. destruct (IH _ (step_wellFormed w0 e Hw0)) as [Hw ->].
      split; [exact Hw|]. unfold connects. destruct e; cbn [step List.filter].
      + rewrite (connected_keydown w0 Hw0), length_app. simpl. lia.
      + destruct (disconnected_keeps w0 Hw0) as [-> _]. done. }
  destruct (Hgen initial) as [Hw Hlen].
  { split; [constructor|by left]. }
  destruct (disconnected_keeps _ Hw) as [Hk Hc].
  split; [exact Hk|]. split; [exact Hc|]. rewrite Hlen. reflexivity.
Qed.

End WiringFacts.

(** ** Concrete runs of the further properties *)

Lemma started31_rendered : rendered Fixture.printDate started31.
Proof.
  apply templated_rendered; [|apply (inv_marked _ started31_Inv)].
  exact (started_templated "hub" "proxy" "logo.jpeg" fetch31 Fixture.allLoad
           Fixture.printDate started31_listening).
Qed.

Lemma getCollections_descriptors_witness :
  fetch31 "hub" = Ok (Fixture.okResponse hubBody31)
  /\ getCollections "hub" fetch31
     = Ok (map skeleton [Fixture.rawCollection "a"; Fixture.rawCollection "b"]).
Proof.
  assert (Hf : fetch31 "hub" = Ok (Fixture.okResponse hubBody31))
    by (vm_compute; reflexivity).
  split; [exact Hf|].
  apply (proj1 (getCollections_descriptors "hub" fetch31
                  (Fixture.okResponse hubBody31) hubBody31
                  [Fixture.rawCollection "a"; Fixture.rawCollection "b"]
                  Hf eq_refl eq_refl eq_refl eq_refl)).
  repeat constructor.
Defined.

Lemma getViews_keeps_normalised_witness :
  fetch31 "proxy/b" = Ok (Fixture.okResponse itemsBody31)
  /\ getViews "proxy" "logo.jpeg" fetch31 Fixture.allLoad (JStr "/b")
     = Ok (omap (normalised "logo.jpeg" Fixture.allLoad) [Fixture.rawItem "b0" ["News"]]).
Proof.
  assert (Hf : fetch31 ("proxy" ++ "/b") = Ok (Fixture.okResponse itemsBody31))
    by (vm_compute; reflexivity).
  split; [exact Hf|].
  exact (proj1 (getViews_keeps_normalised "proxy" "logo.jpeg" fetch31 Fixture.allLoad
                  (JStr "/b") "/b" (Fixture.okResponse itemsBody31) itemsBody31
                  [Fixture.rawItem "b0" ["News"]]
                  eq_refl Hf eq_refl eq_refl eq_refl eq_refl)).
Defined.

Lemma malformed_payload_is_empty_witness :
  ok nullResponse = true
  /\ getCollections "hub" (fun _ : string => Ok nullResponse) = Ok [].
Proof.
  split; [reflexivity|].
  apply (proj1 (malformed_payload_is_empty "hub" "proxy" "logo.jpeg"
                  (fun _ : string => Ok nullResponse) Fixture.allLoad nullResponse
                  eq_refl
                  (or_intror (ex_intro _ JNull (conj eq_refl (or_introl eq_refl)))))).
  reflexivity.
Defined.

Lemma normalisation_keeps_iff_witness :
  metadataNested (Fixture.rawItem "a0" ["Drama"]) = true
  /\ exists view,
       transformDataToView "logo.jpeg" Fixture.allLoad (Fixture.rawItem "a0" ["Drama"])
       = Ok (Some view).
Proof.
  split; [vm_compute; reflexivity|].
  apply (proj2 (normalisation_keeps_iff "logo.jpeg" Fixture.allLoad
                  (Fixture.rawItem "a0" ["Drama"]))).
  split; [vm_compute; reflexivity|]. split; [vm_compute; reflexivity|].
  split; [|split; [vm_compute; reflexivity|eexists; vm_compute; reflexivity]].
  exists "a0/h", "a0/v". repeat split; vm_compute; reflexivity.
Defined.

Lemma column_global_bounds_witness :
  Inv started31
  /\ -1 <= selectedColumnIndex (state (pressed Fixture.printDate started31 ["ArrowRight"]))
        <= Z.max 0 (maxItemCount
                      (collections (state (pressed Fixture.printDate started31
                                             ["ArrowRight"]))) - 1).
Proof.
  split; [exact started31_Inv|].
  apply (column_global_bounds Fixture.printDate started31 ["ArrowRight"]
           started31_Inv).
  vm_compute. split; discriminate.
Defined.

Lemma one_selected_tile_witness :
  Inv started31
  /\ ((exists e, tileAtZ (rows (pressed Fixture.printDate started31 ["ArrowDown"]))
                   (selectedRowIndex
                      (state (pressed Fixture.printDate started31 ["ArrowDown"])))
                   (selectedColumnIndex
                      (state (pressed Fixture.printDate started31 ["ArrowDown"])))
                 = Some e)
      <-> columnInBounds (pressed Fixture.printDate started31 ["ArrowDown"])).
Proof.
  split; [exact started31_Inv|].
  exact (proj2 (one_selected_tile Fixture.printDate started31 ["ArrowDown"]
                  started31_Inv)).
Defined.

Lemma enter_binds_cursor_item_witness :
  Inv started31
  /\ exists v, cursorItem (pressed Fixture.printDate started31 ["ArrowRight"]) = Some v
               /\ selectedTile (state (pressed Fixture.printDate started31
                                         ["ArrowRight"])) = Some v.
Proof.
  split; [exact started31_Inv|].
  assert (Hv : exists v, cursorItem (pressed Fixture.printDate started31
                                       ["ArrowRight"]) = Some v)
    by (eexists; vm_compute; reflexivity).
  destruct Hv as [v Hv]. exists v. split; [exact Hv|].
  exact (proj1 (enter_binds_cursor_item Fixture.printDate started31 ["ArrowRight"]
                  v [] started31_Inv Hv)).
Defined.

Lemma enter_opens_or_fails_witness :
  overlayClosed started31
  /\ state (snd (handleKeyDown Fixture.printDate "Enter" started31)) = state started31.
Proof.
  split; [exact started31_closed|].
  exact (proj1 (enter_opens_or_fails Fixture.printDate started31 started31_closed)).
Defined.

Lemma enter_escape_round_trip_witness :
  overlayClosed started31
  /\ exists v c1 c2,
       selectedTile (state started31) = Some v
       /\ typedView v ["Drama"]
       /\ handleKeyDown Fixture.printDate "Enter" started31 = (Ok tt, c1)
       /\ handleKeyDown Fixture.printDate "Escape" c1 = (Ok tt, c2)
       /\ state c2 = state started31.
Proof.
  split; [exact started31_closed|].
  assert (Hv : exists v, selectedTile (state started31) = Some v
                         /\ typedView v ["Drama"]).
  { eexists. split; [vm_compute; reflexivity|].
    repeat split; try (eexists; reflexivity); reflexivity. }
  destruct Hv as (v & Hv & Ht).
  destruct (enter_escape_round_trip Fixture.printDate started31 v ["Drama"]
              started31_closed Hv Ht) as (c1 & c2 & H1 & H2 & H3 & _).
  exists v, c1, c2. split; [exact Hv|]. split; [exact Ht|]. split; [exact H1|].
  split; [exact H2 | exact H3].
Defined.



Lemma right_lands_on_item_witness :
  Inv started31
  /\ collections (state started31) <> []
  /\ overlayClosed started31
  /\ -1 <= selectedColumnIndex (state started31)
  /\ exists c', handleKeyDown Fixture.printDate "ArrowRight" started31 = (Ok tt, c')
                /\ selectedRowIndex (state c') = selectedRowIndex (state started31).
Proof.
  assert (Hlow : -1 <= selectedColumnIndex (state started31))
    by (vm_compute; discriminate).
  split; [exact started31_Inv|]. split; [exact started31_nonempty|].
  split; [exact started31_closed|]. split; [exact Hlow|].
  destruct (right_lands_on_item Fixture.printDate started31
              started31_Inv started31_nonempty started31_closed Hlow)
    as (c' & Hrun & Hrow & _).
  exists c'. split; [exact Hrun | exact Hrow].
Defined.

Lemma keydown_keeps_frame_witness :
  keyFrame started31 (snd (handleKeyDown Fixture.printDate "ArrowDown" started31)).
Proof. exact (keydown_keeps_frame Fixture.printDate started31 "ArrowDown"). Defined.

Lemma grid_is_rendered_state_witness :
  Inv started31
  /\ rendered Fixture.printDate started31
  /\ rendered Fixture.printDate
       (pressed Fixture.printDate started31 ["ArrowRight"; "ArrowDown"]).
Proof.
  split; [exact started31_Inv|]. split; [exact started31_rendered|].
  exact (grid_is_rendered_state Fixture.printDate started31 ["ArrowRight"; "ArrowDown"]
           started31_Inv started31_rendered).
Defined.


Lemma tiles_follow_layout_witness :
  sameTilesBut "is-selected" (rows started31)
    (rows (pressed Fixture.printDate started31 ["ArrowRight"; "ArrowDown"])).
Proof.
  exact (proj1 (tiles_follow_layout Fixture.printDate started31
                  ["ArrowRight"; "ArrowDown"])).
Defined.


Lemma empty_catalog_inert_witness :
  getCollections "hub" fetchEmpty = Ok []
  /\ fst (connectedCallback "hub" "proxy" "logo.jpeg" fetchEmpty Fixture.allLoad
            Fixture.printDate constructed) = Throw TypeError.
Proof.
  assert (He : getCollections "hub" fetchEmpty = Ok []) by (vm_compute; reflexivity).
  split; [exact He|].
  exact (proj1 (empty_catalog_inert "hub" "proxy" "logo.jpeg" fetchEmpty
                  Fixture.allLoad Fixture.printDate [] He)).
Defined.

Lemma modal_follows_attributes_witness :
  Modal.tracked (fun _ : option string => "2020")
    (fold_left (fun m s => Modal.setAttribute (fun _ => "2020") (fst s) (snd s) m)
               [("title", "Title"); ("is-open", "true")] Modal.connected).
Proof.
  apply (proj2 (proj2 (modal_follows_attributes (fun _ => "2020")
                         [("title", "Title"); ("is-open", "true")]))).
  exists "title". split; [simpl; tauto|]. vm_compute. by eexists.
Defined.



Lemma tile_marks_follow_attribute_witness :
  Tile.consistent renderedTile
  /\ Tile.consistent
       (fold_left (fun s x => Tile.setAttribute (fst x) (snd x) s)
                  [("is-selected", "true"); ("layout", "vertical")] renderedTile).
Proof.
  assert (H0 : Tile.consistent renderedTile) by (repeat split).
  split; [exact H0|].
  exact (proj1 (tile_marks_follow_attribute renderedTile
                  [("is-selected", "true"); ("layout", "vertical")] H0)).
Defined.

Lemma grid_tile_agrees_witness :
  tileAt (rows oneTile) 0 0 = Some (<["is-selected" := "false"]> ∅)
  /\ Tile.rendered renderedTile = true
  /\ effects (snd (tileSetAttribute 0 0 "is-selected" "true" oneTile))
     = (effects oneTile
        ++ TileSetAttribute 0 0 "is-selected" "true"
           :: repeat (TileAdjustScroll 0 0)
                (Tile.scrolls (Tile.setAttribute "is-selected" "true" renderedTile)
                 - Tile.scrolls renderedTile))%list.
Proof.
  split; [reflexivity|]. split; [reflexivity|].
  exact (proj2 (grid_tile_agrees oneTile 0 0 "is-selected" "true"
                  (<["is-selected" := "false"]> ∅) renderedTile
                  eq_refl eq_refl eq_refl)).
Defined.


Lemma disconnect_removes_no_listener_witness :
  List.length (Wiring.keydown
                 (fold_left Wiring.step
                    [Wiring.Connect; Wiring.Disconnect; Wiring.Connect] Wiring.initial))
  = Wiring.connects [Wiring.Connect; Wiring.Disconnect; Wiring.Connect].
Proof.
  exact (proj2 (proj2 (disconnect_removes_no_listener
                         [Wiring.Connect; Wiring.Disconnect; Wiring.Connect]))).
Defined.
